(** * ait: ontology introspection engine (src/ait/web.py)

    A shallow embedding of the hierarchy builder, the code-list resolver and
    the property resolver of [ait.web], with the properties of the written
    specification stated and settled on it; and of the code around them:
    the URI helpers, the namespace classifier, the stored configuration,
    the entity details, the code-list sidebar and the class list, with
    properties read off the code.

    Conventions of the embedding.
    - A Python [str] is a [string]; comparison is by code point, which on
      UTF-8 bytes is the order of [String.leb].  [str.lower] is embedded on
      the ASCII letters ([Py.lower]); where the order of a result depends on
      it, in the code-list resolver, it is a parameter of the embedding.
    - A Python [dict] is an association list in insertion order (a Python
      dict iterates in insertion order, and the order of [nodes.values()]
      reaches the output through a stable sort).
    - A Python [set] is a list used through membership only.
    - [store.query] is the Query Gateway: a function from the query the code
      builds (template and interpolated identifiers) to the rows it returns.
      A row is a dict from variable names to strings.
    - [store.update] changes the named graphs of the store: a function
      that writes takes the graphs before and returns the graphs after. *)

From Stdlib Require Import String Ascii List ZArith Lia Bool Arith.
From Stdlib Require Import Sorted Permutation.
Import ListNotations.

Local Open Scope string_scope.
Local Open Scope list_scope.

(** ** Python primitives *)

Module Py.

(** [x in xs] on a list or set of strings. *)
Definition mem (x : string) (xs : list string) : bool :=
  existsb (String.eqb x) xs.

(** Truth value of a [str | None]: [None] and the empty string are falsy. *)
Definition truthy (o : option string) : bool :=
  match o with
  | Some s => negb (s =? "")
  | None => false
  end.

(** [a or b] where [a : str | None] and [b : str]. *)
Definition or_else (a : option string) (b : string) : string :=
  match a with
  | Some s => if s =? "" then b else s
  | None => b
  end.

(** [s.startswith(p)] *)
Definition startswith (s p : string) : bool := String.prefix p s.

(** [s.rfind(c)] for a one-character needle: last index, or -1. *)
Fixpoint rfind_from (c : ascii) (s : string) (i last : Z) : Z :=
  match s with
  | EmptyString => last
  | String a s' =>
      rfind_from c s' (i + 1) (if Ascii.eqb a c then i else last)
  end.

Definition rfind (s : string) (c : ascii) : Z := rfind_from c s 0 (-1).

(** [s[:n]] and [s[n:]] for [0 <= n]. *)
Definition take (n : nat) (s : string) : string := String.substring 0 n s.

Fixpoint drop (n : nat) (s : string) : string :=
  match n, s with
  | O, _ => s
  | S n', String _ s' => drop n' s'
  | S _, EmptyString => EmptyString
  end.

Definition lower_ascii (a : ascii) : ascii :=
  let n := nat_of_ascii a in
  if (65 <=? n)%nat && (n <=? 90)%nat then ascii_of_nat (n + 32) else a.

(** [s.lower()] *)
Fixpoint lower (s : string) : string :=
  match s with
  | EmptyString => EmptyString
  | String a s' => String (lower_ascii a) (lower s')
  end.

(** [s.rstrip("/")] *)
Fixpoint rstrip_slash (s : string) : string :=
  match s with
  | EmptyString => EmptyString
  | String a s' =>
      match rstrip_slash s' with
      | EmptyString => if Ascii.eqb a "/" then EmptyString else String a EmptyString
      | r => String a r
      end
  end.

(** [s.split("/")] *)
Fixpoint split_slash (s : string) : list string :=
  match s with
  | EmptyString => [""]
  | String a s' =>
      if Ascii.eqb a "/" then "" :: split_slash s'
      else match split_slash s' with
           | p :: ps => String a p :: ps
           | [] => [String a EmptyString]
           end
  end.

(** ["/".join(parts)] *)
Definition join_slash (parts : list string) : string := String.concat "/" parts.

(** A dict with string keys, in insertion order. *)
Definition dict (V : Type) : Type := list (string * V).

Section Dict.
Context {V : Type}.

(** [d.get(k)] *)
Fixpoint get (d : dict V) (k : string) : option V :=
  match d with
  | [] => None
  | (k', v) :: d' => if k' =? k then Some v else get d' k
  end.

(** [k in d] *)
Definition contains (d : dict V) (k : string) : bool :=
  match get d k with Some _ => true | None => false end.

(** [d[k] = v]: an existing key keeps its position, a new one goes last. *)
Fixpoint set (d : dict V) (k : string) (v : V) : dict V :=
  match d with
  | [] => [(k, v)]
  | (k', v') :: d' =>
      if k' =? k then (k', v) :: d' else (k', v') :: set d' k v
  end.

Definition keys (d : dict V) : list string := map fst d.
Definition values (d : dict V) : list V := map snd d.
End Dict.

(** [sorted(xs, key=key)]: the stable sort by a string key.  Python's sort
    is stable, and the stable sort of a list by a total order on keys is
    unique, so insertion from the right gives the same list. *)
Section Sorted.
Context {A : Type} (key : A -> string).

Fixpoint insert (x : A) (l : list A) : list A :=
  match l with
  | [] => [x]
  | y :: l' =>
      if String.leb (key x) (key y) then x :: y :: l'
      else y :: insert x l'
  end.

Definition sorted (l : list A) : list A := fold_right insert [] l.

(** The order [sorted] sorts by. *)
Definition key_le (a b : A) : Prop := String.leb (key a) (key b) = true.
End Sorted.

(** Set built from a list: first occurrences. *)
Fixpoint dedup (xs : list string) : list string :=
  match xs with
  | [] => []
  | x :: xs' => let r := dedup xs' in if mem x r then r else x :: r
  end.

End Py.

(** ** Rows and the Query Gateway *)

(** A result row of [Store.query]: variable name to rendered value.  Blank
    nodes are rendered with the prefix [_:]; an unbound variable is absent. *)
Definition Row : Type := Py.dict string.

(** The queries [ait.web] sends, one constructor per query template of the
    source, carrying the identifiers the template interpolates. *)
Inductive Query : Type :=
| QSelectedNamespaces (ontology_uri : string)
| QDisplayNameMode (ontology_uri : string)
| QShowDeprecated (ontology_uri : string)
| QHierarchy (ontology_uri : string)
| QSkosMembersCount (graph_uri entity_uri : string)
| QOneOfCount (graph_uri entity_uri : string)
| QEquivOneOfCount (graph_uri entity_uri : string)
| QCollectionCount (graph_uri entity_uri : string)
| QEntityLabel (ontology entity : string)
| QSchemeMembers (ontology entity : string)
| QCollectionMembers (ontology entity : string)
| QOneOfMembers (ontology entity : string)
| QEquivOneOfMembers (ontology entity : string)
| QDomain (ontology class_uri : string)
| QRange (ontology class_uri : string)
| QBlankRange (graph_uri property_uri : string)
| QParent (ontology current : string).

Definition Store : Type := Query -> list Row.

(** ** Constants *)

Definition OWL_CLASS := "http://www.w3.org/2002/07/owl#Class".
Definition OWL_OBJECT_PROPERTY := "http://www.w3.org/2002/07/owl#ObjectProperty".
Definition OWL_DATATYPE_PROPERTY := "http://www.w3.org/2002/07/owl#DatatypeProperty".
Definition OWL_ANNOTATION_PROPERTY := "http://www.w3.org/2002/07/owl#AnnotationProperty".
Definition OWL_ONE_OF := "http://www.w3.org/2002/07/owl#oneOf".
Definition RDFS_CLASS := "http://www.w3.org/2000/01/rdf-schema#Class".
Definition RDFS_DOMAIN := "http://www.w3.org/2000/01/rdf-schema#domain".
Definition RDFS_RANGE := "http://www.w3.org/2000/01/rdf-schema#range".
Definition RDFS_LABEL := "http://www.w3.org/2000/01/rdf-schema#label".
Definition RDF_TYPE := "http://www.w3.org/1999/02/22-rdf-syntax-ns#type".
Definition RDF_FIRST := "http://www.w3.org/1999/02/22-rdf-syntax-ns#first".
Definition RDF_REST := "http://www.w3.org/1999/02/22-rdf-syntax-ns#rest".
Definition RDFS_SUBCLASS_OF := "http://www.w3.org/2000/01/rdf-schema#subClassOf".
Definition OWL_DEPRECATED := "http://www.w3.org/2002/07/owl#deprecated".
Definition PREFIX_IRI := "http://data.bioontology.org/metadata/prefixIRI".
Definition AIT_META_GRAPH := "urn:ait:meta".
Definition AIT_NS := "urn:ait:ontology#".

Definition EXCLUDED_CLASSES : list string :=
  [ "http://www.w3.org/2002/07/owl#Thing";
    "http://www.w3.org/2002/07/owl#Nothing";
    "http://www.w3.org/2000/01/rdf-schema#Resource";
    "http://www.w3.org/2000/01/rdf-schema#Class";
    "http://www.w3.org/2002/07/owl#Class" ].

(** ** URI helpers *)

Definition _extract_local_name (uri : string) : string :=
  let hash_idx := Py.rfind uri "#" in
  let slash_idx := Py.rfind uri "/" in
  let idx := Z.max hash_idx slash_idx in
  if (idx >=? 0)%Z then Py.drop (Z.to_nat (idx + 1)) uri else uri.

Definition _extract_namespace (uri : string) : string :=
  let hash_idx := Py.rfind uri "#" in
  if (hash_idx >=? 0)%Z then Py.take (Z.to_nat (hash_idx + 1)) uri
  else
    let slash_idx := Py.rfind uri "/" in
    if (slash_idx >=? 0)%Z then Py.take (Z.to_nat (slash_idx + 1)) uri
    else uri.

(** ** Data model *)

Record HierarchyNode : Type := mkHierarchyNode {
  node_uri : string;
  node_label : string;
  prefix_iri : option string;
  entity_type : string;
  parent_uris : list string;
  is_external : bool;
  is_deprecated : bool
}.

Record OntologyConfig : Type := mkOntologyConfig {
  ontology_uri : string;
  selected_namespaces : list string;
  display_name_mode : string;
  show_deprecated : bool
}.

(** ** Namespace classifier *)

(** [_detect_internal_namespaces(class_uris)] with the default threshold
    0.05.  [int(total * 0.05)] is [total // 20]: the double nearest to 0.05
    lies above 1/20 by less than one part in 2^54, so the product is never
    rounded below a multiple of 1/20 nor up to the next integer.  The sets of
    the source are lists here; only membership in the result is observed. *)
Definition _detect_internal_namespaces (class_uris : list string) : list string :=
  match class_uris with
  | [] => []
  | _ =>
      let all_namespaces := map _extract_namespace class_uris in
      let namespace_keys := Py.dedup all_namespaces in
      let total := List.length class_uris in
      let min_count := Nat.max 3 (total / 20) in
      let major_namespaces :=
        filter (fun ns =>
                  (min_count <=? List.length (filter (String.eqb ns) all_namespaces))%nat)
               namespace_keys in
      let base_prefixes :=
        flat_map (fun ns =>
          let parts := Py.split_slash (Py.rstrip_slash ns) in
          flat_map (fun i =>
            let prefix := String.append (Py.join_slash (firstn i parts)) "/" in
            let matches :=
              List.length (filter (fun mns => Py.startswith mns prefix)
                                  major_namespaces) in
            if (2 <=? matches)%nat then [prefix] else [])
            (seq 3 (List.length parts - 3)))
          major_namespaces in
      major_namespaces ++
      filter (fun ns => existsb (fun base => Py.startswith ns base) base_prefixes)
             namespace_keys
  end.

(** [_get_ontology_config(store, ontology_uri)] *)
Definition _get_ontology_config (store : Store) (ontology : string) : OntologyConfig :=
  let ns_results := store (QSelectedNamespaces ontology) in
  let namespaces :=
    flat_map (fun r => match Py.get r "namespace" with
                       | Some ns => if ns =? "" then [] else [ns]
                       | None => []
                       end) ns_results in
  let display_mode :=
    match store (QDisplayNameMode ontology) with
    | r :: _ => match Py.get r "mode" with Some m => m | None => "label" end
    | [] => "label"
    end in
  let show :=
    match store (QShowDeprecated ontology) with
    | r :: _ =>
        let val := match Py.get r "show" with Some v => v | None => "false" end in
        Py.lower val =? "true"
    | [] => false
    end in
  mkOntologyConfig ontology namespaces display_mode show.

(** ** Hierarchy builder *)

Section Hierarchy.

(** The set [internal_namespaces] that [is_external] closes over. *)
Variable internal_namespaces : list string.

(** The closure [is_external(uri)] of [get_class_hierarchy]. *)
Definition uri_is_external (uri : string) : bool :=
  let ns := _extract_namespace uri in
  negb (Py.mem ns internal_namespaces).

(** First pass: rows whose class is bound, named and not an excluded root. *)
Definition keep_class_row (row : Row) : bool :=
  match Py.get row "class" with
  | Some class_uri =>
      negb (class_uri =? "") && negb (Py.startswith class_uri "_:")
      && negb (Py.mem class_uri EXCLUDED_CLASSES)
  | None => false
  end.

(** The guard on a parent: bound, non-empty, not excluded, not blank. *)
Definition keep_parent (parent : string) : bool :=
  negb (parent =? "") && negb (Py.mem parent EXCLUDED_CLASSES)
  && negb (Py.startswith parent "_:").

Definition row_is_deprecated (row : Row) : bool :=
  match Py.get row "deprecated" with
  | Some v => if v =? "" then false else Py.lower v =? "true"
  | None => false
  end.

Definition add_parent (n : HierarchyNode) (parent : string) : HierarchyNode :=
  mkHierarchyNode (node_uri n) (node_label n) (prefix_iri n) (entity_type n)
                  (parent_uris n ++ [parent]) (is_external n) (is_deprecated n).

Definition set_external (n : HierarchyNode) (b : bool) : HierarchyNode :=
  mkHierarchyNode (node_uri n) (node_label n) (prefix_iri n) (entity_type n)
                  (parent_uris n) b (is_deprecated n).

(** The state of the main loop: [nodes], [children_map],
    [deprecated_classes]. *)
Record BuildState : Type := mkBuildState {
  nodes : Py.dict HierarchyNode;
  children_map : Py.dict (list string);
  deprecated_classes : list string
}.

(** One iteration of [for row in class_data]. *)
Definition build_row (st : BuildState) (row : Row) : BuildState :=
  match Py.get row "class" with
  | None => st
  | Some class_uri =>
    if class_uri =? "" then st else
    let is_dep := row_is_deprecated row in
    let deprecated1 :=
      if is_dep then class_uri :: deprecated_classes st
      else deprecated_classes st in
    let nodes1 :=
      if Py.contains (nodes st) class_uri then nodes st
      else Py.set (nodes st) class_uri
             (mkHierarchyNode class_uri
                (Py.or_else (Py.get row "label") (_extract_local_name class_uri))
                (Py.get row "prefixIRI") "Class" []
                (uri_is_external class_uri) is_dep) in
    match Py.get row "parent" with
    | None => mkBuildState nodes1 (children_map st) deprecated1
    | Some parent =>
      if keep_parent parent then
        let nodes2 :=
          match Py.get nodes1 class_uri with
          | Some n =>
              if Py.mem parent (parent_uris n) then nodes1
              else Py.set nodes1 class_uri (add_parent n parent)
          | None => nodes1
          end in
        let children1 :=
          if Py.contains (children_map st) parent then children_map st
          else Py.set (children_map st) parent [] in
        let children2 :=
          match Py.get children1 parent with
          | Some cs =>
              if Py.mem class_uri cs then children1
              else Py.set children1 parent (cs ++ [class_uri])
          | None => children1
          end in
        mkBuildState nodes2 children2 deprecated1
      else mkBuildState nodes1 (children_map st) deprecated1
    end
  end.

Definition build (class_data : list Row) : BuildState :=
  fold_left build_row class_data (mkBuildState [] [] []).

(** [children_map.get(uri, [])] *)
Definition children_of (cm : Py.dict (list string)) (uri : string) : list string :=
  match Py.get cm uri with Some cs => cs | None => [] end.

(** [has_internal_descendant(uri, visited)].  The recursion of the source
    is on a mutable [visited] set shared by all calls: the set is threaded
    through and returned.  [for_children] is the loop
    [for child_uri in children_map.get(uri, [])], with the recursive call
    as [rec].  [fuel] bounds the depth of the recursion; [None] is fuel
    exhausted, which [has_internal_descendant_total] below excludes for the
    fuel [get_class_hierarchy] gives.  (The interpreter's own limit on the
    depth of recursion is not part of the embedding.) *)
Fixpoint for_children (st : BuildState)
         (rec : string -> list string -> option (bool * list string))
         (cs : list string) (visited : list string)
  : option (bool * list string) :=
  match cs with
  | [] => Some (false, visited)
  | child_uri :: cs' =>
    match Py.get (nodes st) child_uri with
    | Some _ =>
      if negb (uri_is_external child_uri) then Some (true, visited)
      else
        match rec child_uri visited with
        | None => None
        | Some (true, visited') => Some (true, visited')
        | Some (false, visited') => for_children st rec cs' visited'
        end
    | None => for_children st rec cs' visited
    end
  end.

Fixpoint has_internal_descendant (fuel : nat) (st : BuildState)
         (uri : string) (visited : list string) : option (bool * list string) :=
  match fuel with
  | O => None
  | S fuel' =>
    if Py.mem uri visited then Some (false, visited)
    else for_children st (has_internal_descendant fuel' st)
                      (children_of (children_map st) uri) (uri :: visited)
  end.

(** Depth of recursion that cannot be exceeded: every call that gets past
    the [visited] test marks a node not marked before. *)
Definition promotion_fuel (st : BuildState) : nat := S (List.length (nodes st)).

(** The promotion pass: [for uri, node in nodes.items()]. *)
Definition promote_node (st : BuildState) (kv : string * HierarchyNode)
  : string * HierarchyNode :=
  let (uri, node) := kv in
  if is_external node then
    match has_internal_descendant (promotion_fuel st) st uri [] with
    | Some (true, _) => (uri, set_external node false)
    | _ => (uri, node)
    end
  else (uri, node).

Definition promote (st : BuildState) : Py.dict HierarchyNode :=
  map (promote_node st) (nodes st).

End Hierarchy.

(** The pieces of [get_class_hierarchy(ontology_uri)], in the order of the
    source: the rows kept by the first pass, the stored configuration, the
    internal namespaces, the state after the main loop. *)
Definition hierarchy_class_data (store : Store) (ontology : string) : list Row :=
  filter keep_class_row (store (QHierarchy ontology)).

Definition hierarchy_internal_namespaces (store : Store) (ontology : string)
  : list string :=
  let config := _get_ontology_config store ontology in
  match selected_namespaces config with
  | _ :: _ => selected_namespaces config
  | [] =>
      let all_class_uris :=
        Py.dedup (flat_map (fun row => match Py.get row "class" with
                                       | Some c => if c =? "" then [] else [c]
                                       | None => []
                                       end)
                           (hierarchy_class_data store ontology)) in
      _detect_internal_namespaces all_class_uris
  end.

Definition hierarchy_state (store : Store) (ontology : string) : BuildState :=
  build (hierarchy_internal_namespaces store ontology)
        (hierarchy_class_data store ontology).

Definition get_class_hierarchy (store : Store) (ontology : string)
  : list HierarchyNode :=
  let config := _get_ontology_config store ontology in
  let internal_namespaces := hierarchy_internal_namespaces store ontology in
  let st := hierarchy_state store ontology in
  let result_nodes := Py.values (promote internal_namespaces st) in
  let result_nodes :=
    if show_deprecated config then result_nodes
    else filter (fun n => negb (is_deprecated n)) result_nodes in
  Py.sorted (fun n => Py.lower (node_label n)) result_nodes.

(** ** Code-list resolver *)

(** Errors a request can end with: [int()] on a string that is no integer. *)
Inductive result (A : Type) : Type :=
| Ok (a : A)
| ValueError.
Arguments Ok {A} a.
Arguments ValueError {A}.

Definition bind {A B : Type} (r : result A) (k : A -> result B) : result B :=
  match r with
  | Ok a => k a
  | ValueError => ValueError
  end.

Notation "x <- r ;; k" := (bind r (fun x => k))
  (at level 61, r at next level, right associativity).

Module PyInt.

Definition is_space (a : ascii) : bool :=
  let n := nat_of_ascii a in
  ((9 <=? n)%nat && (n <=? 13)%nat) || ((28 <=? n)%nat && (n <=? 32)%nat).

Definition digit (a : ascii) : option Z :=
  let n := nat_of_ascii a in
  if (48 <=? n)%nat && (n <=? 57)%nat then Some (Z.of_nat (n - 48)) else None.

Fixpoint lstrip (s : string) : string :=
  match s with
  | String a s' => if is_space a then lstrip s' else s
  | EmptyString => EmptyString
  end.

Fixpoint rstrip (s : string) : string :=
  match s with
  | EmptyString => EmptyString
  | String a s' =>
      match rstrip s' with
      | EmptyString => if is_space a then EmptyString else String a EmptyString
      | r => String a r
      end
  end.

(** Digits with single underscores between them; [acc] is the value read,
    [after_digit] tells whether the last character was a digit. *)
Fixpoint digits (s : string) (acc : Z) (after_digit : bool) : option Z :=
  match s with
  | EmptyString => if after_digit then Some acc else None
  | String a s' =>
      match digit a with
      | Some d => digits s' (10 * acc + d)%Z true
      | None =>
          if Ascii.eqb a "_" && after_digit then digits s' acc false
          else None
      end
  end.

(** [int(s)] for an ASCII string [s]: surrounding whitespace, an optional
    sign, decimal digits.  [None] is [ValueError]. *)
Definition int (s : string) : option Z :=
  match lstrip (rstrip s) with
  | String "-" s' => option_map Z.opp (digits s' 0%Z false)
  | String "+" s' => digits s' 0%Z false
  | s' => digits s' 0%Z false
  end.

End PyInt.

Inductive Pattern : Type :=
| skos_scheme
| owl_oneof
| owl_equivalent_oneof
| skos_collection.

(** The test [result and int(result[0].get("count", 0)) > 0]. *)
Definition count_positive (rows : list Row) : result bool :=
  match rows with
  | [] => Ok false
  | r :: _ =>
      match Py.get r "count" with
      | None => Ok false
      | Some s =>
          match PyInt.int s with
          | Some n => Ok (0 <? n)%Z
          | None => ValueError
          end
      end
  end.

(** [_detect_codelist_pattern(store, graph_uri, entity_uri)] *)
Definition _detect_codelist_pattern (store : Store) (graph_uri entity_uri : string)
  : result (option Pattern) :=
  skos <- count_positive (store (QSkosMembersCount graph_uri entity_uri)) ;;
  if skos then Ok (Some skos_scheme) else
  oneof <- count_positive (store (QOneOfCount graph_uri entity_uri)) ;;
  if oneof then Ok (Some owl_oneof) else
  equiv <- count_positive (store (QEquivOneOfCount graph_uri entity_uri)) ;;
  if equiv then Ok (Some owl_equivalent_oneof) else
  collection <- count_positive (store (QCollectionCount graph_uri entity_uri)) ;;
  if collection then Ok (Some skos_collection) else
  Ok None.

Record CodeListMember : Type := mkCodeListMember {
  member_uri : string;
  member_label : string;
  notation : option string;
  description : option string
}.

Record CodeListInfo : Type := mkCodeListInfo {
  codelist_uri : string;
  codelist_label : string;
  pattern : Pattern;
  member_count : nat;
  members : list CodeListMember
}.

(** The loop over the rows of the two SKOS member queries. *)
Definition skos_members (results : list Row) : list CodeListMember :=
  flat_map (fun r =>
    match Py.get r "member" with
    | Some uri =>
        if uri =? "" then [] else
        [ mkCodeListMember uri
            (Py.or_else (Py.get r "label")
               (Py.or_else (Py.get r "rdfsLabel") (_extract_local_name uri)))
            (Py.get r "notation") (Py.get r "description") ]
    | None => []
    end) results.

(** The loop over the rows of the two [owl:oneOf] member queries. *)
Definition oneof_members (results : list Row) : list CodeListMember :=
  flat_map (fun r =>
    match Py.get r "member" with
    | Some uri =>
        if uri =? "" then [] else
        [ mkCodeListMember uri
            (Py.or_else (Py.get r "label") (_extract_local_name uri))
            None None ]
    | None => []
    end) results.

(** The members appended before the final sort, by pattern. *)
Definition pattern_members (store : Store) (ontology entity : string) (p : Pattern)
  : list CodeListMember :=
  match p with
  | skos_scheme => skos_members (store (QSchemeMembers ontology entity))
  | skos_collection => skos_members (store (QCollectionMembers ontology entity))
  | owl_oneof => oneof_members (store (QOneOfMembers ontology entity))
  | owl_equivalent_oneof => oneof_members (store (QEquivOneOfMembers ontology entity))
  end.

(** The sort key [m.label.lower()].  [str.lower] is the interpreter's
    lowercasing of a Unicode string; its tables are not embedded, and the
    resolver takes it as the parameter [str_lower].  On ASCII text it is
    [Py.lower]. *)
Definition member_key (str_lower : string -> string) (m : CodeListMember)
  : string :=
  str_lower (member_label m).

(** [get_codelist_info(ontology, entity)] *)
Definition get_codelist_info (str_lower : string -> string) (store : Store)
           (ontology entity : string)
  : result (option CodeListInfo) :=
  detected <- _detect_codelist_pattern store ontology entity ;;
  match detected with
  | None => Ok None
  | Some p =>
      let entity_label :=
        match store (QEntityLabel ontology entity) with
        | r :: _ => Py.get r "label"
        | [] => None
        end in
      let members := pattern_members store ontology entity p in
      let members := Py.sorted (member_key str_lower) members in
      Ok (Some (mkCodeListInfo entity
                  (Py.or_else entity_label (_extract_local_name entity))
                  p (List.length members) members))
  end.

(** ** Property resolver *)

(** The [{"uri": ..., "label": ...}] dicts of [domains], [ranges] and
    [from_class]. *)
Record Ref : Type := mkRef {
  ref_uri : string;
  ref_label : string
}.

Record PropertyInfo : Type := mkPropertyInfo {
  prop_uri : string;
  prop_label : option string;
  property_type : string;
  domains : list Ref;
  ranges : list Ref
}.

Record InheritedPropertyGroup : Type := mkInheritedPropertyGroup {
  from_class : Ref;
  properties : list PropertyInfo
}.

Record ClassProperties : Type := mkClassProperties {
  domain_of : list PropertyInfo;
  inherited : list InheritedPropertyGroup;
  range_of : list PropertyInfo
}.

(** [needle in s] on strings. *)
Definition is_substring (needle s : string) : bool :=
  match String.index 0 needle s with
  | Some _ => true
  | None => false
  end.

(** The [prop_type] computed from [r.get("propType", "")]. *)
Definition prop_type_of (r : Row) : string :=
  let prop_type_uri := match Py.get r "propType" with Some t => t | None => "" end in
  if is_substring OWL_DATATYPE_PROPERTY prop_type_uri then "DatatypeProperty"
  else if is_substring OWL_ANNOTATION_PROPERTY prop_type_uri then "AnnotationProperty"
  else "ObjectProperty".

(** [_resolve_blank_node_range(store, graph_uri, property_uri)] *)
Definition _resolve_blank_node_range (store : Store) (graph_uri property_uri : string)
  : list Ref :=
  flat_map (fun r =>
    match Py.get r "member" with
    | Some member_uri =>
        if member_uri =? "" then [] else
        [ mkRef member_uri
            (Py.or_else (Py.get r "memberLabel") (_extract_local_name member_uri)) ]
    | None => []
    end) (store (QBlankRange graph_uri property_uri)).

Definition add_range (p : PropertyInfo) (r : Ref) : PropertyInfo :=
  mkPropertyInfo (prop_uri p) (prop_label p) (property_type p) (domains p)
                 (ranges p ++ [r]).

Definition extend_ranges (p : PropertyInfo) (rs : list Ref) : PropertyInfo :=
  mkPropertyInfo (prop_uri p) (prop_label p) (property_type p) (domains p)
                 (ranges p ++ rs).

Definition add_domain (p : PropertyInfo) (r : Ref) : PropertyInfo :=
  mkPropertyInfo (prop_uri p) (prop_label p) (property_type p)
                 (domains p ++ [r]) (ranges p).

(** One iteration of [for r in domain_results] in
    [_get_properties_for_class]. *)
Definition domain_row (class_uri : string) (props : Py.dict PropertyInfo) (r : Row)
  : Py.dict PropertyInfo :=
  match Py.get r "prop" with
  | None => props
  | Some p =>
    if p =? "" then props else
    let props1 :=
      if Py.contains props p then props
      else Py.set props p
             (mkPropertyInfo p
                (Some (Py.or_else (Py.get r "propLabel") (_extract_local_name p)))
                (prop_type_of r)
                [mkRef class_uri (_extract_local_name class_uri)] []) in
    match Py.get r "range" with
    | Some range_uri =>
        if negb (range_uri =? "") && negb (Py.startswith range_uri "_:") then
          match Py.get props1 p with
          | Some info =>
              let existing_ranges := map ref_uri (ranges info) in
              if Py.mem range_uri existing_ranges then props1
              else Py.set props1 p
                     (add_range info
                        (mkRef range_uri
                           (Py.or_else (Py.get r "rangeLabel")
                                       (_extract_local_name range_uri))))
          | None => props1
          end
        else props1
    | None => props1
    end
  end.

(** The second loop of [_get_properties_for_class]: blank-node ranges. *)
Definition resolve_blank_ranges (store : Store) (ontology : string)
           (kv : string * PropertyInfo) : string * PropertyInfo :=
  let (p, info) := kv in
  match ranges info with
  | [] =>
      match _resolve_blank_node_range store ontology p with
      | [] => (p, info)
      | resolved => (p, extend_ranges info resolved)
      end
  | _ :: _ => (p, info)
  end.

(** [_get_properties_for_class(store, ontology, class_uri)] *)
Definition _get_properties_for_class (store : Store) (ontology class_uri : string)
  : Py.dict PropertyInfo :=
  let domain_results := store (QDomain ontology class_uri) in
  let props := fold_left (domain_row class_uri) domain_results [] in
  map (resolve_blank_ranges store ontology) props.

(** The state of the loop of [_get_superclass_chain].  [queries] is a ghost
    field: the number of loop iterations entered, each of which sends one
    parent query. *)
Record ChainState : Type := mkChainState {
  superclasses : list Ref;
  visited : list string;
  current : string;
  queries : nat
}.

(** [for _ in range(n)]: the loop body, with [break] as the early return. *)
Fixpoint chain_loop (store : Store) (ontology : string) (n : nat) (s : ChainState)
  : ChainState :=
  match n with
  | O => s
  | S n' =>
    let s := mkChainState (superclasses s) (visited s) (current s) (S (queries s)) in
    match store (QParent ontology (current s)) with
    | [] => s
    | r :: _ =>
      match Py.get r "parent" with
      | None => s
      | Some parent_uri =>
        if (parent_uri =? "") || Py.mem parent_uri (visited s) then s
        else if Py.mem parent_uri EXCLUDED_CLASSES then s
        else
          chain_loop store ontology n'
            (mkChainState
               (superclasses s ++
                [mkRef parent_uri
                   (Py.or_else (Py.get r "parentLabel")
                               (_extract_local_name parent_uri))])
               (parent_uri :: visited s) parent_uri (queries s))
      end
    end
  end.

Definition superclass_chain_run (store : Store) (ontology class_uri : string)
  : ChainState :=
  chain_loop store ontology 50 (mkChainState [] [class_uri] class_uri 0).

(** [_get_superclass_chain(store, ontology, class_uri)] *)
Definition _get_superclass_chain (store : Store) (ontology class_uri : string)
  : list Ref :=
  superclasses (superclass_chain_run store ontology class_uri).

Definition prop_key (p : PropertyInfo) : string := Py.or_else (prop_label p) "".

(** One iteration of [for ancestor in superclasses]; the state is
    [inherited_groups] and [seen_prop_uris]. *)
Definition inherit_from (store : Store) (ontology : string)
           (st : list InheritedPropertyGroup * list string) (ancestor : Ref)
  : list InheritedPropertyGroup * list string :=
  let (inherited_groups, seen_prop_uris) := st in
  let ancestor_props := _get_properties_for_class store ontology (ref_uri ancestor) in
  let new_props :=
    filter (fun kv => negb (Py.mem (fst kv) seen_prop_uris)) ancestor_props in
  match new_props with
  | [] => (inherited_groups, seen_prop_uris)
  | _ :: _ =>
      (inherited_groups ++
       [mkInheritedPropertyGroup ancestor
          (Py.sorted prop_key (Py.values new_props))],
       seen_prop_uris ++ Py.keys new_props)
  end.

(** One iteration of [for r in range_results] in [get_class_properties]. *)
Definition range_row (class_uri : string) (props : Py.dict PropertyInfo) (r : Row)
  : Py.dict PropertyInfo :=
  match Py.get r "prop" with
  | None => props
  | Some p =>
    if p =? "" then props else
    let props1 :=
      if Py.contains props p then props
      else Py.set props p
             (mkPropertyInfo p
                (Some (Py.or_else (Py.get r "propLabel") (_extract_local_name p)))
                (prop_type_of r) []
                [mkRef class_uri (_extract_local_name class_uri)]) in
    match Py.get r "domain" with
    | Some domain_uri =>
        if negb (domain_uri =? "") && negb (Py.startswith domain_uri "_:") then
          match Py.get props1 p with
          | Some info =>
              let existing_domains := map ref_uri (domains info) in
              if Py.mem domain_uri existing_domains then props1
              else Py.set props1 p
                     (add_domain info
                        (mkRef domain_uri
                           (Py.or_else (Py.get r "domainLabel")
                                       (_extract_local_name domain_uri))))
          | None => props1
          end
        else props1
    | None => props1
    end
  end.

(** [get_class_properties(ontology, class_uri)] *)
Definition get_class_properties (store : Store) (ontology class_uri : string)
  : ClassProperties :=
  let domain_props := _get_properties_for_class store ontology class_uri in
  let superclasses := _get_superclass_chain store ontology class_uri in
  let inherited_groups :=
    fst (fold_left (inherit_from store ontology) superclasses
                   ([], Py.keys domain_props)) in
  let range_results := store (QRange ontology class_uri) in
  let range_props := fold_left (range_row class_uri) range_results [] in
  mkClassProperties
    (Py.sorted prop_key (Py.values domain_props))
    inherited_groups
    (Py.sorted prop_key (Py.values range_props)).

(** ** The queries of the property resolver on a graph of triples

    The gateway is [pyoxigraph] behind [Store.query] (src/ait/store.py).
    For the four query templates of the property resolver, this module gives
    the rows the SPARQL algebra prescribes for a graph of triples: basic
    graph patterns as nested iteration over the triples, [OPTIONAL] as a left
    join, [FILTER], [DISTINCT] on the solutions, [LIMIT].  The order of the
    rows is the one of the iteration (SPARQL leaves it open). *)

Module Sparql.

Inductive Term : Type :=
| NamedNode (iri : string)
| BlankNode (id : string)
| Literal (value : string) (lang_or_datatype : string).

Definition term_eqb (a b : Term) : bool :=
  match a, b with
  | NamedNode x, NamedNode y => x =? y
  | BlankNode x, BlankNode y => x =? y
  | Literal x t, Literal y u => (x =? y) && (t =? u)
  | _, _ => false
  end.

Record Triple : Type := mkTriple {
  subject : Term;
  predicate : string;
  object : Term
}.

Definition Graph : Type := list Triple.

(** The conversion of a bound value in [Store.query]. *)
Definition render (t : Term) : string :=
  match t with
  | NamedNode v => v
  | Literal v _ => v
  | BlankNode v => String.append "_:" v
  end.

Definition isBlank (t : Term) : bool :=
  match t with BlankNode _ => true | _ => false end.

Definition isIRI (t : Term) : bool :=
  match t with NamedNode _ => true | _ => false end.

(** Matches of the triple pattern [s p ?o]. *)
Definition objects (g : Graph) (s : Term) (p : string) : list Term :=
  map object
      (filter (fun t => term_eqb (subject t) s && (predicate t =? p)) g).

(** Matches of the triple pattern [?s p o]. *)
Definition subjects (g : Graph) (p : string) (o : Term) : list Term :=
  map subject
      (filter (fun t => (predicate t =? p) && term_eqb (object t) o) g).

(** [OPTIONAL]: the matches, or one solution that leaves the variable
    unbound when there is none. *)
Definition optional {A : Type} (matches : list A) : list (option A) :=
  match matches with
  | [] => [None]
  | _ :: _ => map Some matches
  end.

(** A solution: the variables in the order of the [SELECT] clause. *)
Definition Solution : Type := list (string * option Term).

Definition binding_eqb (a b : string * option Term) : bool :=
  (fst a =? fst b) &&
  match snd a, snd b with
  | Some x, Some y => term_eqb x y
  | None, None => true
  | _, _ => false
  end.

Fixpoint solution_eqb (a b : Solution) : bool :=
  match a, b with
  | [], [] => true
  | x :: a', y :: b' => binding_eqb x y && solution_eqb a' b'
  | _, _ => false
  end.

(** [DISTINCT]: first occurrences. *)
Fixpoint distinct (sols : list Solution) : list Solution :=
  match sols with
  | [] => []
  | s :: sols' =>
      s :: filter (fun s' => negb (solution_eqb s s')) (distinct sols')
  end.

(** The row [Store.query] builds from a solution. *)
Definition to_row (sol : Solution) : Row :=
  flat_map (fun b => match snd b with
                     | Some t => [(fst b, render t)]
                     | None => []
                     end) sol.

Definition property_types : list string :=
  [OWL_OBJECT_PROPERTY; OWL_DATATYPE_PROPERTY; OWL_ANNOTATION_PROPERTY].

Definition is_property_type (t : Term) : bool :=
  match t with
  | NamedNode v => Py.mem v property_types
  | _ => false
  end.

(** [domain_query] of [_get_properties_for_class]. *)
Definition domain_solutions (g : Graph) (class_uri : string) : list Solution :=
  flat_map (fun prop =>
    flat_map (fun propLabel =>
      flat_map (fun propType =>
        flat_map (fun range =>
          map (fun rangeLabel =>
                 [("prop", Some prop); ("propLabel", propLabel);
                  ("propType", propType); ("range", range);
                  ("rangeLabel", rangeLabel)])
              (match range with
               | Some rg => optional (objects g rg RDFS_LABEL)
               | None => [None]
               end))
          (optional (objects g prop RDFS_RANGE)))
        (optional (filter is_property_type (objects g prop RDF_TYPE))))
      (optional (objects g prop RDFS_LABEL)))
    (subjects g RDFS_DOMAIN (NamedNode class_uri)).

Definition domain_rows (g : Graph) (class_uri : string) : list Row :=
  map to_row (distinct (domain_solutions g class_uri)).

(** [range_query] of [get_class_properties]. *)
Definition range_solutions (g : Graph) (class_uri : string) : list Solution :=
  flat_map (fun prop =>
    flat_map (fun propLabel =>
      flat_map (fun propType =>
        flat_map (fun domain =>
          map (fun domainLabel =>
                 [("prop", Some prop); ("propLabel", propLabel);
                  ("propType", propType); ("domain", domain);
                  ("domainLabel", domainLabel)])
              (match domain with
               | Some d => optional (objects g d RDFS_LABEL)
               | None => [None]
               end))
          (optional (objects g prop RDFS_DOMAIN)))
        (optional (filter is_property_type (objects g prop RDF_TYPE))))
      (optional (objects g prop RDFS_LABEL)))
    (subjects g RDFS_RANGE (NamedNode class_uri)).

Definition range_rows (g : Graph) (class_uri : string) : list Row :=
  map to_row (distinct (range_solutions g class_uri)).

(** The query of [_resolve_blank_node_range]. *)
Definition blank_range_solutions (g : Graph) (property_uri : string)
  : list Solution :=
  flat_map (fun range =>
    flat_map (fun lst =>
      flat_map (fun member =>
        map (fun memberLabel =>
               [("member", Some member); ("memberLabel", memberLabel)])
            (optional (objects g member RDFS_LABEL)))
        (filter (fun m => negb (isBlank m)) (objects g lst RDF_FIRST)))
      (objects g range OWL_ONE_OF))
    (objects g (NamedNode property_uri) RDFS_RANGE).

Definition blank_range_rows (g : Graph) (property_uri : string) : list Row :=
  map to_row (blank_range_solutions g property_uri).

(** [parent_query] of [_get_superclass_chain], with its [LIMIT 1]. *)
Definition parent_solutions (g : Graph) (current : string) : list Solution :=
  flat_map (fun parent =>
    map (fun parentLabel =>
           [("parent", Some parent); ("parentLabel", parentLabel)])
        (optional (objects g parent RDFS_LABEL)))
    (filter isIRI (objects g (NamedNode current) RDFS_SUBCLASS_OF)).

Definition parent_rows (g : Graph) (current : string) : list Row :=
  map to_row (firstn 1 (parent_solutions g current)).

(** The bulk query of [get_class_hierarchy]: the union of the two class
    declarations, then the four [OPTIONAL]s in the order of the source. *)
Definition declared_classes (g : Graph) : list Term :=
  subjects g RDF_TYPE (NamedNode OWL_CLASS) ++
  subjects g RDF_TYPE (NamedNode RDFS_CLASS).

Definition hierarchy_solutions (g : Graph) : list Solution :=
  flat_map (fun class =>
    flat_map (fun label =>
      flat_map (fun prefixIRI =>
        flat_map (fun deprecated =>
          map (fun parent =>
                 [("class", Some class); ("label", label);
                  ("prefixIRI", prefixIRI); ("parent", parent);
                  ("deprecated", deprecated)])
              (optional (filter isIRI (objects g class RDFS_SUBCLASS_OF))))
          (optional (objects g class OWL_DEPRECATED)))
        (optional (objects g class PREFIX_IRI)))
      (optional (objects g class RDFS_LABEL)))
    (declared_classes g).

Definition hierarchy_rows (g : Graph) : list Row :=
  map to_row (distinct (hierarchy_solutions g)).

(** The three queries of [_get_ontology_config] on the meta graph. *)
Definition config_rows (meta : Graph) (ontology_uri setting var : string)
  : list Row :=
  map (fun t => to_row [(var, Some t)])
      (objects meta (NamedNode ontology_uri) (String.append AIT_NS setting)).

(** A store that holds the named graphs [dataset] and answers the queries
    of the hierarchy builder and of the property resolver (the queries of
    the code-list resolver, with property paths and aggregates, are not
    evaluated here). *)
Definition store_of (dataset : string -> Graph) : Store :=
  fun q =>
    match q with
    | QSelectedNamespaces o =>
        config_rows (dataset AIT_META_GRAPH) o "selectedNamespace" "namespace"
    | QDisplayNameMode o =>
        config_rows (dataset AIT_META_GRAPH) o "displayNameMode" "mode"
    | QShowDeprecated o =>
        config_rows (dataset AIT_META_GRAPH) o "showDeprecated" "show"
    | QHierarchy o => hierarchy_rows (dataset o)
    | QDomain ontology class_uri => domain_rows (dataset ontology) class_uri
    | QRange ontology class_uri => range_rows (dataset ontology) class_uri
    | QBlankRange graph_uri property_uri =>
        blank_range_rows (dataset graph_uri) property_uri
    | QParent ontology current => parent_rows (dataset ontology) current
    | _ => []
    end.

(** A dataset with one named graph. *)
Definition single (name : string) (g : Graph) : string -> Graph :=
  fun n => if n =? name then g else [].

(** [store] answers the queries of the property resolver on the named
    graph [ontology] as the algebra prescribes for [g]. *)
Definition answers (store : Store) (ontology : string) (g : Graph) : Prop :=
  (forall c, store (QDomain ontology c) = domain_rows g c) /\
  (forall c, store (QRange ontology c) = range_rows g c) /\
  (forall p, store (QBlankRange ontology p) = blank_range_rows g p) /\
  (forall c, store (QParent ontology c) = parent_rows g c).

(** The members of the RDF list at [lst]: [rdf:first] of every node
    reached through [rdf:rest]; [fuel] bounds the walk (cyclic lists). *)
Fixpoint list_members (fuel : nat) (g : Graph) (lst : Term) : list Term :=
  match fuel with
  | O => []
  | S fuel' =>
      objects g lst RDF_FIRST ++
      flat_map (list_members fuel' g) (objects g lst RDF_REST)
  end.

Definition rdf_list_members (g : Graph) (lst : Term) : list Term :=
  list_members (S (List.length g)) g lst.

End Sparql.

(** ** Notions of the specification *)

(** [d] is a descendant of [u]: reachable through the children map. *)
Inductive descendant (cm : Py.dict (list string)) : string -> string -> Prop :=
| descendant_child (u c : string) :
    In c (children_of cm u) -> descendant cm u c
| descendant_step (u c d : string) :
    In c (children_of cm u) -> descendant cm c d -> descendant cm u d.

(** A URI the hierarchy builder takes as a class or as a parent: non-empty,
    not rendered as a blank node, not an excluded root. *)
Definition named_class (uri : string) : bool :=
  negb (uri =? "") && negb (Py.startswith uri "_:")
  && negb (Py.mem uri EXCLUDED_CLASSES).

(** [c] is declared a class in [g], in either schema vocabulary. *)
Definition class_declared (g : Sparql.Graph) (c : Sparql.Term) : Prop :=
  In (Sparql.mkTriple c RDF_TYPE (Sparql.NamedNode OWL_CLASS)) g \/
  In (Sparql.mkTriple c RDF_TYPE (Sparql.NamedNode RDFS_CLASS)) g.

Definition subclass_edge (g : Sparql.Graph) (child parent : string) : Prop :=
  In (Sparql.mkTriple (Sparql.NamedNode child) RDFS_SUBCLASS_OF
                      (Sparql.NamedNode parent)) g.

(** Order of the specification for code-list members: by notation, then by
    label without regard to case.  An absent notation comes first. *)
Definition notation_leb (a b : option string) : bool :=
  match a, b with
  | None, _ => true
  | Some _, None => false
  | Some x, Some y => String.leb x y
  end.

Definition notation_eqb (a b : option string) : bool :=
  match a, b with
  | None, None => true
  | Some x, Some y => x =? y
  | _, _ => false
  end.

Definition notation_then_label (a b : CodeListMember) : Prop :=
  (if notation_eqb (notation a) (notation b)
   then String.leb (Py.lower (member_label a)) (Py.lower (member_label b))
   else notation_leb (notation a) (notation b)) = true.

(** Order of the code on code-list members: the lowercased label alone. *)
Definition label_lower_le (str_lower : string -> string)
           (a b : CodeListMember) : Prop :=
  String.leb (member_key str_lower a) (member_key str_lower b) = true.

(** The member query [get_codelist_info] sends for a pattern. *)
Definition member_query (ontology entity : string) (p : Pattern) : Query :=
  match p with
  | skos_scheme => QSchemeMembers ontology entity
  | skos_collection => QCollectionMembers ontology entity
  | owl_oneof => QOneOfMembers ontology entity
  | owl_equivalent_oneof => QEquivOneOfMembers ontology entity
  end.

(** The member URIs the rows of a member query bind, in the order of the
    rows. *)
Definition row_member_uris (rows : list Row) : list string :=
  flat_map (fun r => match Py.get r "member" with
                     | Some u => if u =? "" then [] else [u]
                     | None => []
                     end) rows.

(** Orders on properties: by label without regard to case (specification),
    by label as it is (code).  The empty string is least in both. *)
Definition prop_label_ci_le (a b : PropertyInfo) : Prop :=
  String.leb (Py.lower (prop_key a)) (Py.lower (prop_key b)) = true.

Definition prop_label_le (a b : PropertyInfo) : Prop :=
  String.leb (prop_key a) (prop_key b) = true.

(** The three lists of a [ClassProperties] are sorted by [le]. *)
Definition class_properties_sorted (le : PropertyInfo -> PropertyInfo -> Prop)
           (cp : ClassProperties) : Prop :=
  Sorted le (domain_of cp) /\
  Forall (fun grp => Sorted le (properties grp)) (inherited cp) /\
  Sorted le (range_of cp).

(** A member the resolver can return as a range: not a blank node, and with
    a non-empty rendered value. *)
Definition concrete (t : Sparql.Term) : bool :=
  negb (Sparql.isBlank t) && negb (Sparql.render t =? "").

(** [p] declares no concrete range in [g]: every range of a subject that
    the gateway renders as [p] is a blank node. *)
Definition no_concrete_range (g : Sparql.Graph) (p : string) : Prop :=
  forall s o, Sparql.render s = p ->
              In (Sparql.mkTriple s RDFS_RANGE o) g ->
              Sparql.isBlank o = true.

(** Every property of [domain_of] without concrete range has, among its
    ranges, what [members_of] selects from each [owl:oneOf] list on a
    blank-node range. *)
Definition oneof_ranges_resolved
           (members_of : Sparql.Graph -> Sparql.Term -> list Sparql.Term)
           (store : Store) (ontology : string) (g : Sparql.Graph)
           (class_uri : string) : Prop :=
  forall info range lst m,
    In info (domain_of (get_class_properties store ontology class_uri)) ->
    no_concrete_range g (prop_uri info) ->
    In (Sparql.mkTriple (Sparql.NamedNode (prop_uri info)) RDFS_RANGE range) g ->
    In (Sparql.mkTriple range OWL_ONE_OF lst) g ->
    In m (members_of g lst) ->
    concrete m = true ->
    In (Sparql.render m) (map ref_uri (ranges info)).

(** What the list-walking reading selects, and what the head-only reading
    selects. *)
Definition every_member : Sparql.Graph -> Sparql.Term -> list Sparql.Term :=
  Sparql.rdf_list_members.

Definition head_member (g : Sparql.Graph) (lst : Sparql.Term) : list Sparql.Term :=
  Sparql.objects g lst RDF_FIRST.

(** Detection by precedence, in the words of the specification: the first
    pattern, in the fixed order, whose existence count is not zero. *)
Definition detection_order : list Pattern :=
  [skos_scheme; owl_oneof; owl_equivalent_oneof; skos_collection].

Definition count_query (p : Pattern) (graph_uri entity_uri : string) : Query :=
  match p with
  | skos_scheme => QSkosMembersCount graph_uri entity_uri
  | owl_oneof => QOneOfCount graph_uri entity_uri
  | owl_equivalent_oneof => QEquivOneOfCount graph_uri entity_uri
  | skos_collection => QCollectionCount graph_uri entity_uri
  end.

Definition first_match (counts : Pattern -> Z) : option Pattern :=
  find (fun p => negb (counts p =? 0)%Z) detection_order.

(** The gateway reports [n] for the existence count of [p]: one row, whose
    [count] reads as the integer [n]. *)
Definition reports_count (store : Store) (graph_uri entity_uri : string)
           (p : Pattern) (n : Z) : Prop :=
  exists r rest s,
    store (count_query p graph_uri entity_uri) = r :: rest /\
    Py.get r "count" = Some s /\
    PyInt.int s = Some n.

(** The first direct parent the gateway returns for [c], if any. *)
Definition first_parent (store : Store) (ontology c : string) : option string :=
  match store (QParent ontology c) with
  | r :: _ => Py.get r "parent"
  | [] => None
  end.

(** Each class of the chain is the first-returned parent of the one before
    it, starting from [c]. *)
Fixpoint linked (store : Store) (ontology c : string) (chain : list Ref) : Prop :=
  match chain with
  | [] => True
  | r :: chain' =>
      first_parent store ontology c = Some (ref_uri r) /\
      linked store ontology (ref_uri r) chain'
  end.

(** The walk stops at [c]: no parent, a parent already visited, or an
    excluded root. *)
Definition stops_at (store : Store) (ontology : string) (seen : list string)
           (c : string) : Prop :=
  match first_parent store ontology c with
  | None => True
  | Some p => p = "" \/ In p seen \/ In p EXCLUDED_CLASSES
  end.

(** What the main loop keeps true of the node stored under [k]: it carries
    the URI [k], which names a class; its parents passed the guard; its flag
    is the namespace test. *)
Definition node_ok (internal_namespaces : list string) (k : string)
           (n : HierarchyNode) : Prop :=
  node_uri n = k /\
  named_class k = true /\
  Forall (fun p => keep_parent p = true) (parent_uris n) /\
  is_external n = uri_is_external internal_namespaces k.

(** The set [visited] is closed at [x]: every child of [x] that is a node is
    external and in [visited]. *)
Definition closed_at (internal_namespaces : list string) (st : BuildState)
           (visited : list string) (x : string) : Prop :=
  forall c, In c (children_of (children_map st) x) ->
            Py.get (nodes st) c <> None ->
            uri_is_external internal_namespaces c = true /\ In c visited.

(** The number of nodes not yet in [visited]: what the recursion of
    [has_internal_descendant] consumes. *)
Definition unvisited (st : BuildState) (visited : list string) : nat :=
  List.length (filter (fun k => negb (Py.mem k visited)) (Py.keys (nodes st))).

(** What the first loop of [_get_properties_for_class] keeps true of the
    entry stored under [k]. *)
Definition ranges_from_rows (rows : list Row) (k : string) (info : PropertyInfo)
  : Prop :=
  prop_uri info = k /\
  forall rf, In rf (ranges info) ->
    exists row, In row rows /\ Py.get row "prop" = Some k /\
                Py.get row "range" = Some (ref_uri rf) /\
                Py.startswith (ref_uri rf) "_:" = false.

(** [l] is [l'] with some elements left out, in the same order. *)
Inductive subsequence {A : Type} : list A -> list A -> Prop :=
| subsequence_nil : subsequence [] []
| subsequence_skip (x : A) (l l' : list A) :
    subsequence l l' -> subsequence l (x :: l')
| subsequence_take (x : A) (l l' : list A) :
    subsequence l l' -> subsequence (x :: l) (x :: l').

(** The property URIs listed by the inherited groups, in order. *)
Definition inherited_uris (groups : list InheritedPropertyGroup) : list string :=
  flat_map (fun grp => map prop_uri (properties grp)) groups.

(** [c] occurs in [s]. *)
Definition occurs (c : ascii) (s : string) : Prop :=
  In c (list_ascii_of_string s).

(** The index of the last occurrence of [c] in [s], if any: what
    [s.rfind(c)] returns when it is not -1. *)
Fixpoint last_index (c : ascii) (s : string) : option nat :=
  match s with
  | EmptyString => None
  | String a s' =>
      match last_index c s' with
      | Some k => Some (S k)
      | None => if Ascii.eqb a c then Some O else None
      end
  end.

(** The distinct class URIs that [get_class_hierarchy] hands to the
    classifier when no selection is stored ([all_class_uris]). *)
Definition hierarchy_class_uris (store : Store) (ontology : string) : list string :=
  Py.dedup (flat_map (fun row => match Py.get row "class" with
                                 | Some c => if c =? "" then [] else [c]
                                 | None => []
                                 end)
                     (hierarchy_class_data store ontology)).

(** ** Stored configuration *)

(** The updates [_save_ontology_config] sends with [store.update], one
    constructor per update template of the source.  All of them act on the
    graph [AIT_META_GRAPH]. *)
Inductive Update : Type :=
| UDeleteSelectedNamespaces (ontology_uri : string)
| UDeleteDisplayNameMode (ontology_uri : string)
| UDeleteShowDeprecated (ontology_uri : string)
| UInsertSelectedNamespaces (ontology_uri : string) (namespaces : list string)
| UInsertDisplayNameMode (ontology_uri display_name_mode : string)
| UInsertShowDeprecated (ontology_uri value : string).

(** The effect of an update on the named graphs of the store: [DELETE WHERE]
    with one triple pattern removes its matches, [INSERT DATA] adds the
    triples that are not in the graph yet (a graph is a set of triples).
    As for the queries, the identifiers are taken to be such that the
    template is read as written: an IRI between the angle brackets, the
    text of a literal between the quotes. *)
Module SparqlUpdate.
Import Sparql.

Definition XSD_STRING := "http://www.w3.org/2001/XMLSchema#string".

Definition triple_eqb (a b : Triple) : bool :=
  term_eqb (subject a) (subject b) && (predicate a =? predicate b)
  && term_eqb (object a) (object b).

(** [DELETE WHERE { GRAPH <g> { s p ?x } }] *)
Definition delete_where (s : Term) (p : string) (g : Graph) : Graph :=
  filter (fun t => negb (term_eqb (subject t) s && (predicate t =? p))) g.

(** [INSERT DATA { GRAPH <g> { triples } }] *)
Definition insert_triple (g : Graph) (t : Triple) : Graph :=
  if existsb (triple_eqb t) g then g else g ++ [t].

Definition insert_data (triples : list Triple) (g : Graph) : Graph :=
  fold_left insert_triple triples g.

Definition on_graph (name : string) (f : Graph -> Graph)
           (dataset : string -> Graph) : string -> Graph :=
  fun n => if n =? name then f (dataset n) else dataset n.

Definition setting (name : string) : string := String.append AIT_NS name.

Definition apply_update (u : Update) (dataset : string -> Graph)
  : string -> Graph :=
  match u with
  | UDeleteSelectedNamespaces o =>
      on_graph AIT_META_GRAPH
               (delete_where (NamedNode o) (setting "selectedNamespace")) dataset
  | UDeleteDisplayNameMode o =>
      on_graph AIT_META_GRAPH
               (delete_where (NamedNode o) (setting "displayNameMode")) dataset
  | UDeleteShowDeprecated o =>
      on_graph AIT_META_GRAPH
               (delete_where (NamedNode o) (setting "showDeprecated")) dataset
  | UInsertSelectedNamespaces o namespaces =>
      on_graph AIT_META_GRAPH
               (insert_data
                  (map (fun ns => mkTriple (NamedNode o)
                                           (setting "selectedNamespace")
                                           (NamedNode ns))
                       namespaces))
               dataset
  | UInsertDisplayNameMode o mode =>
      on_graph AIT_META_GRAPH
               (insert_data [mkTriple (NamedNode o) (setting "displayNameMode")
                                      (Literal mode XSD_STRING)])
               dataset
  | UInsertShowDeprecated o value =>
      on_graph AIT_META_GRAPH
               (insert_data [mkTriple (NamedNode o) (setting "showDeprecated")
                                      (Literal value XSD_STRING)])
               dataset
  end.

End SparqlUpdate.

(** [str(b)] for a [bool]. *)
Definition str_of_bool (b : bool) : string := if b then "True" else "False".

(** [_save_ontology_config(store, ontology_uri, namespaces,
    display_name_mode, show_deprecated)].  The store is the state: the
    function takes the named graphs before and returns the named graphs
    after.  The three deletions are in a [try] whose handler passes.  The
    embedding covers the calls in which the store reads every update as
    written ([plain_iri], [plain_literal] below give identifiers for which
    it does): there no update raises and the handler is not reached.  For
    other identifiers the store may refuse an insertion, as it does for an
    empty namespace, after the deletions have been made. *)
Definition _save_ontology_config (dataset : string -> Sparql.Graph)
           (ontology_uri : string) (namespaces : list string)
           (display_name_mode : string) (show_deprecated : bool)
  : string -> Sparql.Graph :=
  let dataset :=
    SparqlUpdate.apply_update (UDeleteSelectedNamespaces ontology_uri) dataset in
  let dataset :=
    SparqlUpdate.apply_update (UDeleteDisplayNameMode ontology_uri) dataset in
  let dataset :=
    SparqlUpdate.apply_update (UDeleteShowDeprecated ontology_uri) dataset in
  let dataset :=
    match namespaces with
    | [] => dataset
    | _ :: _ =>
        SparqlUpdate.apply_update
          (UInsertSelectedNamespaces ontology_uri namespaces) dataset
    end in
  let dataset :=
    SparqlUpdate.apply_update
      (UInsertDisplayNameMode ontology_uri display_name_mode) dataset in
  SparqlUpdate.apply_update
    (UInsertShowDeprecated ontology_uri (Py.lower (str_of_bool show_deprecated)))
    dataset.

(** ** Entity details *)

Definition SKOS_CONCEPT_SCHEME := "http://www.w3.org/2004/02/skos/core#ConceptScheme".
Definition SKOS_CONCEPT := "http://www.w3.org/2004/02/skos/core#Concept".
Definition OWL_NAMED_INDIVIDUAL := "http://www.w3.org/2002/07/owl#NamedIndividual".

(** The queries of [_detect_entity_type], [get_entity_info] and
    [get_property_info], one constructor per query template. *)
Inductive EntityQuery : Type :=
| QTypes (graph_uri entity_uri : string)
| QInfo (ontology entity : string)
| QBreadcrumbParent (ontology current : string)
| QSubclasses (ontology entity : string)
| QAllTypes (ontology entity : string)
| QPropertyLabel (ontology property : string)
| QPropertyDomains (ontology property : string)
| QPropertyRanges (ontology property : string).

Definition EntityStore : Type := EntityQuery -> list Row.

Record EntityRef : Type := mkEntityRef {
  eref_uri : string;
  eref_label : string;
  eref_prefix_iri : option string
}.

Record EntityInfo : Type := mkEntityInfo {
  info_uri : string;
  info_label : string;
  info_prefix_iri : option string;
  info_comment : option string;
  info_entity_type : string;
  info_all_types : list EntityRef;
  info_is_defined_by : option string;
  info_superclasses : list EntityRef;
  info_subclasses : list EntityRef
}.

(** The set [types] of [_detect_entity_type]: the bound, non-empty values
    of [?type]. *)
Definition entity_types (store : EntityStore) (graph_uri entity_uri : string)
  : list string :=
  flat_map (fun r => match Py.get r "type" with
                     | Some t => if t =? "" then [] else [t]
                     | None => []
                     end)
           (store (QTypes graph_uri entity_uri)).

(** [_detect_entity_type(store, graph_uri, entity_uri)] *)
Definition _detect_entity_type (store : EntityStore) (graph_uri entity_uri : string)
  : string :=
  let types := entity_types store graph_uri entity_uri in
  if Py.mem SKOS_CONCEPT_SCHEME types then "ConceptScheme"
  else if Py.mem SKOS_CONCEPT types then "Concept"
  else if Py.mem OWL_CLASS types || Py.mem RDFS_CLASS types then "Class"
  else if Py.mem OWL_OBJECT_PROPERTY types then "ObjectProperty"
  else if Py.mem OWL_DATATYPE_PROPERTY types then "DatatypeProperty"
  else if Py.mem OWL_ANNOTATION_PROPERTY types then "AnnotationProperty"
  else if Py.mem OWL_NAMED_INDIVIDUAL types then "NamedIndividual"
  else "Unknown".

(** The state of the breadcrumb loop of [get_entity_info]. *)
Record CrumbState : Type := mkCrumbState {
  crumbs : list EntityRef;
  crumb_visited : list string;
  crumb_current : string
}.

(** [for _ in range(n)] of the breadcrumb, with [break] as the early
    return. *)
Fixpoint crumb_loop (store : EntityStore) (ontology : string) (n : nat)
         (s : CrumbState) : CrumbState :=
  match n with
  | O => s
  | S n' =>
    match store (QBreadcrumbParent ontology (crumb_current s)) with
    | [] => s
    | r :: _ =>
      match Py.get r "parent" with
      | None => s
      | Some parent_uri =>
        if (parent_uri =? "") || Py.mem parent_uri (crumb_visited s) then s
        else
          crumb_loop store ontology n'
            (mkCrumbState
               (crumbs s ++
                [mkEntityRef parent_uri
                   (Py.or_else (Py.get r "parentLabel")
                               (_extract_local_name parent_uri))
                   (Py.get r "parentPrefixIRI")])
               (parent_uri :: crumb_visited s) parent_uri)
      end
    end
  end.

(** The [EntityRef]s built from the rows of the subclass query and of the
    query for all types: the variable [var], its label and its prefix IRI. *)
Definition entity_refs (var label_var prefix_var : string) (rows : list Row)
  : list EntityRef :=
  flat_map (fun r => match Py.get r var with
                     | Some u =>
                         if u =? "" then []
                         else [mkEntityRef u
                                 (Py.or_else (Py.get r label_var)
                                             (_extract_local_name u))
                                 (Py.get r prefix_var)]
                     | None => []
                     end) rows.

(** [get_entity_info(ontology, entity)] *)
Definition get_entity_info (store : EntityStore) (ontology entity : string)
  : EntityInfo :=
  let entity_type := _detect_entity_type store ontology entity in
  let info : Row :=
    match store (QInfo ontology entity) with
    | r :: _ => r
    | [] => []
    end in
  let superclasses :=
    if entity_type =? "Class"
    then crumbs (crumb_loop store ontology 20 (mkCrumbState [] [entity] entity))
    else [] in
  let subclasses :=
    if entity_type =? "Class"
    then entity_refs "sub" "subLabel" "subPrefixIRI"
                     (store (QSubclasses ontology entity))
    else [] in
  let all_types :=
    entity_refs "type" "typeLabel" "typePrefixIRI"
                (store (QAllTypes ontology entity)) in
  let all_types := Py.sorted eref_label all_types in
  mkEntityInfo entity
               (Py.or_else (Py.get info "label") (_extract_local_name entity))
               (Py.get info "prefixIRI")
               (Py.get info "comment")
               entity_type
               all_types
               (Py.get info "isDefinedBy")
               superclasses
               (Py.sorted eref_label subclasses).

(** The [{"uri": ..., "label": ...}] dicts [get_property_info] builds from
    the rows of its domain and range queries. *)
Definition property_refs (var label_var : string) (rows : list Row) : list Ref :=
  flat_map (fun r => match Py.get r var with
                     | Some u =>
                         if u =? "" then []
                         else [mkRef u (Py.or_else (Py.get r label_var)
                                                   (_extract_local_name u))]
                     | None => []
                     end) rows.

(** [get_property_info(ontology, property)] *)
Definition get_property_info (store : EntityStore) (ontology property : string)
  : PropertyInfo :=
  let entity_type := _detect_entity_type store ontology property in
  let prop_type :=
    if Py.mem entity_type
              ["ObjectProperty"; "DatatypeProperty"; "AnnotationProperty"]
    then entity_type else "ObjectProperty" in
  let label :=
    match store (QPropertyLabel ontology property) with
    | r :: _ => Py.get r "label"
    | [] => None
    end in
  let domains :=
    property_refs "domain" "domainLabel" (store (QPropertyDomains ontology property)) in
  let ranges :=
    property_refs "range" "rangeLabel" (store (QPropertyRanges ontology property)) in
  mkPropertyInfo property
                 (Some (Py.or_else label (_extract_local_name property)))
                 prop_type domains ranges.

(** The first parent the breadcrumb query returns for [current]. *)
Definition crumb_parent (store : EntityStore) (ontology current : string)
  : option string :=
  match store (QBreadcrumbParent ontology current) with
  | r :: _ => Py.get r "parent"
  | [] => None
  end.

(** [refs] is a walk upwards from [current]: each class is the first
    parent returned for the one before. *)
Fixpoint crumb_path (store : EntityStore) (ontology : string) (current : string)
         (refs : list EntityRef) : Prop :=
  match refs with
  | [] => True
  | r :: refs' =>
      crumb_parent store ontology current = Some (eref_uri r) /\
      crumb_path store ontology (eref_uri r) refs'
  end.

(** The walk cannot go on from [current]: no parent, or one that is empty
    or was visited. *)
Definition crumb_stops (store : EntityStore) (ontology : string)
           (visited : list string) (current : string) : Prop :=
  match crumb_parent store ontology current with
  | None => True
  | Some p => p = "" \/ In p visited
  end.

(** ** Code-list sidebar *)

(** The queries of [list_codelists], one constructor per query template;
    the last one carries the URIs its [VALUES] clause lists. *)
Inductive CodelistQuery : Type :=
| QSchemes (ontology_uri : string)
| QCollections (ontology_uri : string)
| QPrefixIRIs (ontology_uri : string) (uris : list string).

Definition CodelistStore : Type := CodelistQuery -> list Row.

Record CodeListSummary : Type := mkCodeListSummary {
  summary_uri : string;
  summary_label : string;
  summary_prefix_iri : option string;
  summary_pattern : Pattern;
  summary_member_count : Z
}.

(** [int(r.get("count", 0))] *)
Definition row_count (r : Row) : result Z :=
  match Py.get r "count" with
  | None => Ok 0%Z
  | Some s =>
      match PyInt.int s with
      | Some n => Ok n
      | None => ValueError
      end
  end.

(** The loop over the rows of the scheme query; [codelists] is the list
    built so far.  A count that [int] rejects ends the function. *)
Fixpoint scheme_loop (rows : list Row) (codelists : list CodeListSummary)
  : result (list CodeListSummary) :=
  match rows with
  | [] => Ok codelists
  | r :: rows' =>
    match Py.get r "scheme" with
    | Some uri =>
      if negb (uri =? "") && negb (Py.startswith uri "_:") then
        n <- row_count r ;;
        scheme_loop rows'
          (codelists ++
           [mkCodeListSummary uri
              (Py.or_else (Py.get r "label") (_extract_local_name uri))
              None skos_scheme n])
      else scheme_loop rows' codelists
    | None => scheme_loop rows' codelists
    end
  end.

(** The loop over the rows of the collection query, with the set
    [seen_uris]. *)
Fixpoint collection_loop (rows : list Row) (codelists : list CodeListSummary)
         (seen_uris : list string) : result (list CodeListSummary) :=
  match rows with
  | [] => Ok codelists
  | r :: rows' =>
    match Py.get r "collection" with
    | Some uri =>
      if negb (uri =? "") && negb (Py.startswith uri "_:")
         && negb (Py.mem uri seen_uris) then
        n <- row_count r ;;
        collection_loop rows'
          (codelists ++
           [mkCodeListSummary uri
              (Py.or_else (Py.get r "label") (_extract_local_name uri))
              None skos_collection n])
          (uri :: seen_uris)
      else collection_loop rows' codelists seen_uris
    | None => collection_loop rows' codelists seen_uris
    end
  end.

(** The dict comprehension [prefix_map]: a later row for a URI replaces an
    earlier one. *)
Definition prefix_map (prefix_results : list Row) : Py.dict (option string) :=
  fold_left (fun m r => match Py.get r "uri" with
                        | Some u => if u =? "" then m
                                    else Py.set m u (Py.get r "prefixIRI")
                        | None => m
                        end)
            prefix_results [].

Definition set_prefix_iri (m : Py.dict (option string)) (cl : CodeListSummary)
  : CodeListSummary :=
  mkCodeListSummary (summary_uri cl) (summary_label cl)
                    (match Py.get m (summary_uri cl) with
                     | Some v => v
                     | None => None
                     end)
                    (summary_pattern cl) (summary_member_count cl).

(** [list_codelists(ontology_uri)] *)
Definition list_codelists (store : CodelistStore) (ontology_uri : string)
  : result (list CodeListSummary) :=
  codelists <- scheme_loop (store (QSchemes ontology_uri)) [] ;;
  let seen_uris := map summary_uri codelists in
  codelists <- collection_loop (store (QCollections ontology_uri))
                               codelists seen_uris ;;
  let codelists :=
    match codelists with
    | [] => codelists
    | _ :: _ =>
        let uris_to_check := map summary_uri codelists in
        let prefix_results := store (QPrefixIRIs ontology_uri uris_to_check) in
        map (set_prefix_iri (prefix_map prefix_results)) codelists
    end in
  Ok (Py.sorted (fun cl => Py.lower (summary_label cl)) codelists).

(** A URI [list_codelists] lists: bound, not empty, not a blank node. *)
Definition listable (u : string) : Prop :=
  u <> "" /\ Py.startswith u "_:" = false.

(** ** Class list *)

(** [s.split(c)] for a one-character separator [c]. *)
Fixpoint split_on (c : ascii) (s : string) : list string :=
  match s with
  | EmptyString => [""]
  | String a s' =>
      if Ascii.eqb a c then "" :: split_on c s'
      else match split_on c s' with
           | p :: ps => String a p :: ps
           | [] => [String a EmptyString]
           end
  end.

(** [s.split(c)[-1]] *)
Definition last_part (c : ascii) (s : string) : string := last (split_on c s) "".

(** The query of [list_classes], with the limit it interpolates. *)
Inductive ClassQuery : Type :=
| QClasses (ontology_uri : string) (limit : Z).

Definition ClassStore : Type := ClassQuery -> list Row.

(** The dicts [{"uri": ..., "label": ..., "comment": ...}]. *)
Record ClassEntry : Type := mkClassEntry {
  class_entry_uri : string;
  class_entry_label : string;
  class_entry_comment : option string
}.

(** [list_classes(ontology_uri, limit)] *)
Definition list_classes (store : ClassStore) (ontology_uri : string) (limit : Z)
  : list ClassEntry :=
  flat_map (fun row =>
              let class_uri := match Py.get row "class" with
                               | Some c => c
                               | None => ""
                               end in
              if negb (class_uri =? "") && negb (Py.startswith class_uri "_:")
              then [mkClassEntry class_uri
                      (Py.or_else (Py.get row "label")
                                  (last_part "#" (last_part "/" class_uri)))
                      (Py.get row "comment")]
              else [])
           (store (QClasses ontology_uri limit)).

(** ** The promotion pass under the interpreter's recursion limit *)

(** [has_internal_descendant] calls itself without a bound of its own; the
    interpreter raises [RecursionError] when the calls nest too deep, and
    [get_class_hierarchy] then raises.  [limit] is the depth of nesting
    that is left for the search: it is the fuel of
    [has_internal_descendant], and [None] is the error.  (The calls of
    [is_external] from a frame of the search need room on the stack too;
    the embedding does not count them, so it returns wherever the code
    does, with the same result.) *)
Fixpoint promote_within (internal_namespaces : list string) (limit : nat)
         (st : BuildState) (entries : list (string * HierarchyNode))
  : option (Py.dict HierarchyNode) :=
  match entries with
  | [] => Some []
  | (uri, node) :: entries' =>
      if is_external node then
        match has_internal_descendant internal_namespaces limit st uri [] with
        | None => None
        | Some (found, _) =>
            match promote_within internal_namespaces limit st entries' with
            | None => None
            | Some out =>
                Some ((uri, if found then set_external node false else node)
                        :: out)
            end
        end
      else
        match promote_within internal_namespaces limit st entries' with
        | None => None
        | Some out => Some ((uri, node) :: out)
        end
  end.

(** [get_class_hierarchy(ontology_uri)] with the recursion limit: what it
    returns, or [None] when it raises [RecursionError]. *)
Definition get_class_hierarchy_within (limit : nat) (store : Store)
           (ontology : string) : option (list HierarchyNode) :=
  let config := _get_ontology_config store ontology in
  let internal_namespaces := hierarchy_internal_namespaces store ontology in
  let st := hierarchy_state store ontology in
  match promote_within internal_namespaces limit st (nodes st) with
  | None => None
  | Some promoted =>
      let result_nodes := Py.values promoted in
      let result_nodes :=
        if show_deprecated config then result_nodes
        else filter (fun n => negb (is_deprecated n)) result_nodes in
      Some (Py.sorted (fun n => Py.lower (node_label n)) result_nodes)
  end.

(** ** Text the update templates read as written *)

(** [plain_iri s]: [s] is a scheme, a colon, and then unreserved characters
    and slashes with at most one [#]; such a text between angle brackets is
    an absolute IRI.  [plain_literal s]: [s] has no quote, backslash or line
    break; such a text between quotes is the literal with that text. *)
Definition is_alpha (a : ascii) : bool :=
  let n := nat_of_ascii a in
  ((65 <=? n)%nat && (n <=? 90)%nat) || ((97 <=? n)%nat && (n <=? 122)%nat).

Definition is_digit (a : ascii) : bool :=
  let n := nat_of_ascii a in (48 <=? n)%nat && (n <=? 57)%nat.

Definition unreserved (a : ascii) : bool :=
  is_alpha a || is_digit a || Ascii.eqb a "-" || Ascii.eqb a "."
  || Ascii.eqb a "_" || Ascii.eqb a "~".

Definition scheme_char (a : ascii) : bool :=
  is_alpha a || is_digit a || Ascii.eqb a "+" || Ascii.eqb a "-"
  || Ascii.eqb a ".".

Fixpoint after_scheme (s : string) : option string :=
  match s with
  | EmptyString => None
  | String a s' =>
      if Ascii.eqb a ":" then Some s'
      else if scheme_char a then after_scheme s' else None
  end.

Fixpoint plain_path (hash_seen : bool) (s : string) : bool :=
  match s with
  | EmptyString => true
  | String a s' =>
      if Ascii.eqb a "#" then negb hash_seen && plain_path true s'
      else (unreserved a || Ascii.eqb a "/") && plain_path hash_seen s'
  end.

Definition plain_iri (s : string) : bool :=
  match s with
  | EmptyString => false
  | String a s' =>
      is_alpha a &&
      match after_scheme s' with
      | Some rest => plain_path false rest
      | None => false
      end
  end.

Fixpoint plain_literal (s : string) : bool :=
  match s with
  | EmptyString => true
  | String a s' =>
      let n := nat_of_ascii a in
      negb ((n =? 34)%nat || (n =? 92)%nat || (n =? 10)%nat || (n =? 13)%nat)
      && plain_literal s'
  end.

(** ** Sample ontologies *)

Module Sample.
Import Sparql.

Definition ex (name : string) : Term :=
  NamedNode (String.append "http://example.org/soil#" name).
Definition ext (name : string) : Term :=
  NamedNode (String.append "http://vocab.example.net/core/" name).
Definition sensor : Term := NamedNode "http://sensors.example.com/ns#Sensor".
Definition owl_class : Term := NamedNode OWL_CLASS.
Definition owl_thing : Term := NamedNode "http://www.w3.org/2002/07/owl#Thing".
Definition rdf_nil : Term :=
  NamedNode "http://www.w3.org/1999/02/22-rdf-syntax-ns#nil".

(** Three internal classes, one of them its own subclass, one below an
    external class and one below the universal top class; three external
    classes, one with an internal subclass, the others without. *)
Definition soil : Graph :=
  [ mkTriple (ex "Feature") RDF_TYPE owl_class;
    mkTriple (ex "Feature") RDFS_SUBCLASS_OF (ex "Feature");
    mkTriple (ex "Profile") RDF_TYPE owl_class;
    mkTriple (ex "Profile") RDFS_SUBCLASS_OF (ext "Sample");
    mkTriple (ex "Layer") RDF_TYPE owl_class;
    mkTriple (ex "Layer") RDFS_SUBCLASS_OF owl_thing;
    mkTriple (ex "Layer") RDFS_SUBCLASS_OF (BlankNode "restriction");
    mkTriple (ext "Sample") RDF_TYPE owl_class;
    mkTriple (ext "Platform") RDF_TYPE owl_class;
    mkTriple sensor RDF_TYPE owl_class;
    mkTriple sensor RDFS_SUBCLASS_OF (ext "Platform") ].

Definition soil_store : Store := store_of (single "urn:soil" soil).

Definition feature_uri : string := "http://example.org/soil#Feature".
Definition profile_uri : string := "http://example.org/soil#Profile".
Definition sample_uri : string := "http://vocab.example.net/core/Sample".
Definition platform_uri : string := "http://vocab.example.net/core/Platform".
Definition sensor_uri : string := "http://sensors.example.com/ns#Sensor".

(** Three of the nodes returned for [soil]. *)
Definition feature_node : HierarchyNode :=
  mkHierarchyNode feature_uri "Feature" None "Class" [feature_uri] false false.
Definition sample_node : HierarchyNode :=
  mkHierarchyNode sample_uri "Sample" None "Class" [] false false.
Definition platform_node : HierarchyNode :=
  mkHierarchyNode platform_uri "Platform" None "Class" [] true false.

(** A property whose only range is an anonymous class enumerating two
    values. *)
Definition texture : Graph :=
  [ mkTriple (ex "hasTexture") RDFS_DOMAIN (ex "Layer");
    mkTriple (ex "hasTexture") RDFS_RANGE (BlankNode "range");
    mkTriple (BlankNode "range") OWL_ONE_OF (BlankNode "l1");
    mkTriple (BlankNode "l1") RDF_FIRST (ex "Clay");
    mkTriple (BlankNode "l1") RDF_REST (BlankNode "l2");
    mkTriple (BlankNode "l2") RDF_FIRST (ex "Sand");
    mkTriple (BlankNode "l2") RDF_REST rdf_nil ].

Definition texture_store : Store := store_of (single "urn:soil" texture).

Definition layer_uri : string := "http://example.org/soil#Layer".

(** The property returned for it. *)
Definition texture_info : PropertyInfo :=
  mkPropertyInfo "http://example.org/soil#hasTexture" (Some "hasTexture")
                 "ObjectProperty" [mkRef layer_uri "Layer"]
                 [mkRef "http://example.org/soil#Clay" "Clay"].

(** Two properties of one class, labelled [depth] and [Zone]. *)
Definition labelled : Graph :=
  [ mkTriple (ex "p1") RDFS_DOMAIN (ex "Layer");
    mkTriple (ex "p1") RDFS_LABEL (Literal "depth" "en");
    mkTriple (ex "p2") RDFS_DOMAIN (ex "Layer");
    mkTriple (ex "p2") RDFS_LABEL (Literal "Zone" "en") ].

Definition labelled_store : Store := store_of (single "urn:soil" labelled).

(** A concept scheme as the gateway answers for it: two members counted,
    the rows of the member query in the order the query asks for (by
    notation, then label); the second concept has two labels. *)
Definition scheme_store : Store :=
  fun q =>
    match q with
    | QSkosMembersCount _ _ => [[("count", "2")]]
    | QOneOfCount _ _ => [[("count", "3")]]
    | QEquivOneOfCount _ _ => [[("count", "0")]]
    | QCollectionCount _ _ => [[("count", "0")]]
    | QSchemeMembers _ _ =>
        [ [("member", "http://example.org/soil#silt");
           ("label", "Silt"); ("notation", "1")];
          [("member", "http://example.org/soil#clay");
           ("label", "argile"); ("notation", "2")];
          [("member", "http://example.org/soil#clay");
           ("label", "clay"); ("notation", "2")] ]
    | _ => []
    end.

(** The members returned for it. *)
Definition scheme_members : list CodeListMember :=
  [ mkCodeListMember "http://example.org/soil#clay" "argile" (Some "2") None;
    mkCodeListMember "http://example.org/soil#clay" "clay" (Some "2") None;
    mkCodeListMember "http://example.org/soil#silt" "Silt" (Some "1") None ].

Definition scheme_info : CodeListInfo :=
  mkCodeListInfo "http://example.org/soil#TextureCode" "TextureCode"
                 skos_scheme 3 scheme_members.

Definition scheme_counts (p : Pattern) : Z :=
  match p with
  | skos_scheme => 2
  | owl_oneof => 3
  | _ => 0
  end.

(** Two classes of one namespace, one below the other. *)
Definition pair : Graph :=
  [ mkTriple (ex "Horizon") RDF_TYPE owl_class;
    mkTriple (ex "Topsoil") RDF_TYPE owl_class;
    mkTriple (ex "Topsoil") RDFS_SUBCLASS_OF (ex "Horizon") ].

Definition pair_store : Store := store_of (single "urn:pair" pair).

(** The graph [soil] beside the stored configuration of another ontology. *)
Definition configured : string -> Graph :=
  fun n =>
    if n =? AIT_META_GRAPH then
      [ mkTriple (NamedNode "urn:other") (String.append AIT_NS "selectedNamespace")
                 (NamedNode "http://example.org/other#");
        mkTriple (NamedNode "urn:other") (String.append AIT_NS "displayNameMode")
                 (Literal "prefixIRI" "") ]
    else single "urn:soil" soil n.

(** [configured] after the vocabulary namespace is selected for [soil]. *)
Definition reconfigured : string -> Graph :=
  _save_ontology_config configured "urn:soil"
                        ["http://vocab.example.net/core/"] "label" true.


(** Answers about three entities: the class [Layer], whose parent [Feature]
    has [Layer] as its parent in turn; [depth], declared both a class and a
    datatype property; a concept that is also declared a class. *)
Definition depth_uri : string := "http://example.org/soil#depth".
Definition clay_uri : string := "http://example.org/soil#Clay".

Definition entity_store : EntityStore :=
  fun q =>
    match q with
    | QTypes _ e =>
        if e =? layer_uri then [[("type", OWL_CLASS)]]
        else if e =? depth_uri
        then [[("type", OWL_DATATYPE_PROPERTY)]; [("type", OWL_CLASS)]]
        else if e =? clay_uri
        then [[("type", OWL_CLASS)]; [("type", SKOS_CONCEPT)]]
        else []
    | QBreadcrumbParent _ c =>
        if c =? layer_uri
        then [[("parent", feature_uri); ("parentLabel", "Feature")]]
        else if c =? feature_uri then [[("parent", layer_uri)]]
        else []
    | QSubclasses _ e =>
        if e =? layer_uri then [[("sub", feature_uri)]] else []
    | _ => []
    end.

(** The sidebar queries on a graph with one concept scheme, which also has
    [skos:member] links, and one collection. *)
Definition textures_uri : string := "http://example.org/soil#Textures".
Definition colours_uri : string := "http://example.org/soil#Colours".

Definition textures_row : Row :=
  [("scheme", textures_uri); ("label", "Textures"); ("count", "2")].

Definition codelist_store : CodelistStore :=
  fun q =>
    match q with
    | QSchemes _ => [textures_row]
    | QCollections _ =>
        [ [("collection", textures_uri); ("count", "2")];
          [("collection", colours_uri); ("count", "3")];
          [("collection", "_:b0"); ("count", "1")] ]
    | QPrefixIRIs _ _ => [[("uri", colours_uri); ("prefixIRI", "soil:Colours")]]
    end.

Definition textures_summary : CodeListSummary :=
  mkCodeListSummary textures_uri "Textures" None skos_scheme 2.

End Sample.

(** * Properties *)

(** ** Python primitives *)

Section PyFacts.

Lemma mem_In (x : string) (xs : list string) :
  Py.mem x xs = true <-> In x xs.
Proof.
  unfold Py.mem. rewrite existsb_exists. split.
  - intros [y [Hy He]]. apply String.eqb_eq in He. now subst.
  - intros H. exists x. split; [assumption | apply String.eqb_refl].
Qed.

Lemma mem_not_In (x : string) (xs : list string) :
  Py.mem x xs = false <-> ~ In x xs.
Proof.
  rewrite <- mem_In. destruct (Py.mem x xs); split; congruence.
Qed.

Context {V : Type}.
Implicit Types (d : Py.dict V) (k : string) (v : V).

Lemma get_In d k v : Py.get d k = Some v -> In (k, v) d.
Proof.
  induction d as [|[k' v'] d IH]; simpl; [discriminate|].
  destruct (String.eqb_spec k' k) as [->|Hne].
  - intros [= ->]. now left.
  - intros H. right. auto.
Qed.

Lemma In_get d k v : In (k, v) d -> exists v', Py.get d k = Some v'.
Proof.
  induction d as [|[k' v'] d IH]; simpl; [tauto|].
  intros [[= -> ->]|H].
  - rewrite String.eqb_refl. eauto.
  - destruct (k' =? k); eauto.
Qed.

Lemma get_set_same d k v : Py.get (Py.set d k v) k = Some v.
Proof.
  induction d as [|[k' v'] d IH]; simpl.
  - now rewrite String.eqb_refl.
  - destruct (String.eqb_spec k' k) as [->|Hne]; simpl.
    + now rewrite String.eqb_refl.
    + apply String.eqb_neq in Hne. now rewrite Hne.
Qed.

Lemma get_set_other d k k' v : k <> k' -> Py.get (Py.set d k v) k' = Py.get d k'.
Proof.
  intros Hne. induction d as [|[k0 v0] d IH]; simpl.
  - apply String.eqb_neq in Hne. now rewrite Hne.
  - destruct (String.eqb_spec k0 k) as [->|Hne0]; simpl.
    + apply String.eqb_neq in Hne. now rewrite Hne.
    + now rewrite IH.
Qed.

(** What [d[k] = v] leaves in the dict: the new entry or old ones. *)
Lemma In_set d k v k' v' :
  In (k', v') (Py.set d k v) -> (k' = k /\ v' = v) \/ In (k', v') d.
Proof.
  induction d as [|[k0 v0] d IH]; simpl.
  - intros [[= <- <-]|[]]. now left.
  - destruct (String.eqb_spec k0 k) as [->|Hne]; simpl.
    + intros [[= <- <-]|H]; [now left | right; now right].
    + intros [H|H]; [right; now left|].
      destruct (IH H) as [?|?]; [now left | right; now right].
Qed.

Lemma length_set_present d k v v0 :
  Py.get d k = Some v0 -> List.length (Py.set d k v) = List.length d.
Proof.
  induction d as [|[k' v'] d IH]; simpl; [discriminate|].
  destruct (k' =? k); simpl; [reflexivity|].
  intros H. now rewrite IH.
Qed.

Lemma keys_set_present d k v v0 :
  Py.get d k = Some v0 -> Py.keys (Py.set d k v) = Py.keys d.
Proof.
  unfold Py.keys.
  induction d as [|[k' v'] d IH]; simpl; [discriminate|].
  destruct (k' =? k) eqn:E; simpl; [reflexivity|].
  intros H. now rewrite IH.
Qed.

Lemma keys_set_absent d k v :
  Py.get d k = None -> Py.keys (Py.set d k v) = Py.keys d ++ [k].
Proof.
  unfold Py.keys.
  induction d as [|[k' v'] d IH]; simpl; [reflexivity|].
  destruct (k' =? k) eqn:E; simpl; [discriminate|].
  intros H. now rewrite IH.
Qed.

Lemma get_keys d k : Py.get d k <> None <-> In k (Py.keys d).
Proof.
  unfold Py.keys.
  induction d as [|[k' v'] d IH]; simpl; [tauto|].
  destruct (String.eqb_spec k' k) as [->|Hne].
  - split; [now left | discriminate].
  - rewrite IH. split; [now right | intros [?|?]; [contradiction | assumption]].
Qed.

Lemma In_values d v : In v (Py.values d) <-> exists k, In (k, v) d.
Proof.
  unfold Py.values. rewrite in_map_iff. split.
  - intros [[k v'] [<- H]]. now exists k.
  - intros [k H]. now exists (k, v).
Qed.

End PyFacts.

(** [sorted] returns a sorted permutation of its argument, and keeps the
    order of the elements that have the same key. *)
Section SortedFacts.
Context {A : Type} (key : A -> string).

Lemma leb_false_le (s t : string) : String.leb s t = false -> String.leb t s = true.
Proof.
  intros H. destruct (String.leb_total s t) as [E|E]; congruence.
Qed.

Lemma leb_refl (s : string) : String.leb s s = true.
Proof. destruct (String.leb_total s s); assumption. Qed.

Lemma insert_perm (x : A) (l : list A) : Permutation (Py.insert key x l) (x :: l).
Proof.
  induction l as [|y l IH]; simpl; [reflexivity|].
  destruct (String.leb (key x) (key y)); [reflexivity|].
  rewrite IH. apply perm_swap.
Qed.

Lemma sorted_perm (l : list A) : Permutation (Py.sorted key l) l.
Proof.
  induction l as [|x l IH]; simpl; [reflexivity|].
  rewrite insert_perm. now constructor.
Qed.

Lemma sorted_In (l : list A) (x : A) : In x (Py.sorted key l) <-> In x l.
Proof.
  split; apply Permutation_in; [| symmetry]; apply sorted_perm.
Qed.

Lemma insert_Sorted (x : A) (l : list A) :
  Sorted (Py.key_le key) l -> Sorted (Py.key_le key) (Py.insert key x l).
Proof.
  unfold Py.key_le.
  induction 1 as [|y l Hs IH Hhd]; simpl.
  - repeat constructor.
  - destruct (String.leb (key x) (key y)) eqn:E.
    + constructor; [now constructor | now constructor].
    + constructor; [assumption|].
      destruct l as [|z l]; simpl.
      * constructor. now apply leb_false_le.
      * destruct (String.leb (key x) (key z)) eqn:E'.
        -- constructor. now apply leb_false_le.
        -- constructor. now inversion Hhd.
Qed.

Lemma sorted_Sorted (l : list A) : Sorted (Py.key_le key) (Py.sorted key l).
Proof.
  induction l as [|x l IH]; simpl; [constructor | now apply insert_Sorted].
Qed.

Lemma insert_stable (k : string) (x : A) (l : list A) :
  filter (fun a => key a =? k) (Py.insert key x l) =
  filter (fun a => key a =? k) (x :: l).
Proof.
  induction l as [|y l IH]; simpl; [reflexivity|].
  destruct (String.leb (key x) (key y)) eqn:E; [reflexivity|].
  simpl. simpl in IH. rewrite IH.
  destruct (String.eqb_spec (key x) k) as [Hx|Hx]; [|reflexivity].
  destruct (String.eqb_spec (key y) k) as [Hy|Hy]; [|reflexivity].
  rewrite Hx, Hy, leb_refl in E. discriminate.
Qed.

Lemma sorted_stable (k : string) (l : list A) :
  filter (fun a => key a =? k) (Py.sorted key l) =
  filter (fun a => key a =? k) l.
Proof.
  induction l as [|x l IH]; simpl; [reflexivity|].
  rewrite insert_stable. simpl. now rewrite IH.
Qed.

End SortedFacts.

(** ** Hierarchy builder: the main loop *)

Section BuildFacts.
Variable I : list string.

Lemma keep_parent_named (p : string) : keep_parent p = named_class p.
Proof.
  unfold keep_parent, named_class.
  destruct (p =? ""), (Py.mem p EXCLUDED_CLASSES), (Py.startswith p "_:");
    reflexivity.
Qed.

Lemma keep_class_row_named (row : Row) (c : string) :
  keep_class_row row = true -> Py.get row "class" = Some c ->
  named_class c = true.
Proof. unfold keep_class_row. intros H Hc. now rewrite Hc in H. Qed.

Lemma named_class_nonempty (c : string) : named_class c = true -> c <> "".
Proof.
  unfold named_class. intros H ->. discriminate.
Qed.

(** Shape of the nodes after one row. *)
Lemma build_row_nodes (st : BuildState) (row : Row) (k : string) (n : HierarchyNode) :
  In (k, n) (nodes (build_row I st row)) ->
  In (k, n) (nodes st) \/
  (exists c, Py.get row "class" = Some c /\ c <> "" /\ k = c /\
     ((Py.get (nodes st) c = None /\
       n = mkHierarchyNode c
             (Py.or_else (Py.get row "label") (_extract_local_name c))
             (Py.get row "prefixIRI") "Class" []
             (uri_is_external I c) (row_is_deprecated row)) \/
      (exists n0 p, (In (c, n0) (nodes st) \/
                     n0 = mkHierarchyNode c
                            (Py.or_else (Py.get row "label") (_extract_local_name c))
                            (Py.get row "prefixIRI") "Class" []
                            (uri_is_external I c) (row_is_deprecated row)) /\
                    Py.get row "parent" = Some p /\ keep_parent p = true /\
                    n = add_parent n0 p))).
Proof.
  unfold build_row.
  destruct (Py.get row "class") as [c|] eqn:Hc; [|now left].
  destruct (String.eqb_spec c "") as [->|Hne]; [now left|].
  set (fresh := mkHierarchyNode c _ _ _ _ _ _).
  assert (Hn1 : forall k n,
             In (k, n) (if Py.contains (nodes st) c then nodes st
                        else Py.set (nodes st) c fresh) ->
             In (k, n) (nodes st) \/
             (k = c /\ Py.get (nodes st) c = None /\ n = fresh)).
  { intros k0 n0. unfold Py.contains.
    destruct (Py.get (nodes st) c) eqn:Hg; [now left|].
    intros H. apply In_set in H. destruct H as [[-> ->]|H]; [|now left].
    right. auto. }
  destruct (Py.get row "parent") as [p|] eqn:Hp; simpl.
  2:{ intros H. apply Hn1 in H. destruct H as [H|(-> & Hg & ->)]; [now left|].
      right. exists c. repeat split; auto. }
  destruct (keep_parent p) eqn:Hk; simpl.
  2:{ intros H. apply Hn1 in H. destruct H as [H|(-> & Hg & ->)]; [now left|].
      right. exists c. repeat split; auto. }
  match goal with |- In _ (match ?g with _ => _ end) -> _ =>
    destruct g as [n1|] eqn:Hg1 end.
  2:{ intros H. apply Hn1 in H. destruct H as [H|(-> & Hg & ->)]; [now left|].
      right. exists c. repeat split; auto. }
  destruct (Py.mem p (parent_uris n1)).
  { intros H. apply Hn1 in H. destruct H as [H|(-> & Hg & ->)]; [now left|].
    right. exists c. repeat split; auto. }
  intros H. apply In_set in H. destruct H as [[-> ->]|H].
  - right. exists c. repeat split; auto. right. exists n1, p.
    repeat split; auto.
    apply get_In in Hg1. apply Hn1 in Hg1.
    destruct Hg1 as [H|(_ & _ & ->)]; [now left | now right].
  - apply Hn1 in H. destruct H as [H|(-> & Hg & ->)]; [now left|].
    right. exists c. repeat split; auto.
Qed.

(** An invariance principle for the nodes: a property that holds of a
    fresh node and is kept when a kept parent is added holds of every
    node. *)
Section Invariance.
Variable P : string -> HierarchyNode -> Prop.
Hypothesis P_fresh : forall c lbl pfx dep,
    named_class c = true ->
    P c (mkHierarchyNode c lbl pfx "Class" [] (uri_is_external I c) dep).
Hypothesis P_add : forall k n p,
    P k n -> keep_parent p = true -> P k (add_parent n p).

Lemma build_row_invariant (st : BuildState) (row : Row) :
  keep_class_row row = true ->
  (forall k n, In (k, n) (nodes st) -> P k n) ->
  forall k n, In (k, n) (nodes (build_row I st row)) -> P k n.
Proof.
  intros Hrow Hst k n H. apply build_row_nodes in H.
  destruct H as [H|(c & Hc & Hne & -> & [(_ & ->)|(n0 & p & Hn0 & Hp & Hk & ->)])].
  - now apply Hst.
  - apply P_fresh. eapply keep_class_row_named; eauto.
  - apply P_add; [|assumption].
    destruct Hn0 as [Hn0| ->]; [now apply Hst|].
    apply P_fresh. eapply keep_class_row_named; eauto.
Qed.

Lemma fold_build_invariant (rows : list Row) :
  Forall (fun r => keep_class_row r = true) rows ->
  forall st, (forall k n, In (k, n) (nodes st) -> P k n) ->
  forall k n, In (k, n) (nodes (fold_left (build_row I) rows st)) -> P k n.
Proof.
  induction 1 as [|row rows Hrow _ IH]; simpl; [auto|].
  intros st Hst. apply IH. now apply build_row_invariant.
Qed.

Lemma build_invariant (rows : list Row) (k : string) (n : HierarchyNode) :
  In (k, n) (nodes (build I (filter keep_class_row rows))) -> P k n.
Proof.
  unfold build. apply fold_build_invariant.
  - apply Forall_forall. intros r Hr. apply filter_In in Hr. tauto.
  - simpl. tauto.
Qed.
End Invariance.

(** Every node is stored under its own URI, which names a class; its
    parents passed the guard; its flag is the namespace test. *)
Lemma build_node_ok (rows : list Row) (k : string) (n : HierarchyNode) :
  In (k, n) (nodes (build I (filter keep_class_row rows))) ->
  node_ok I k n.
Proof.
  apply build_invariant; unfold node_ok; simpl.
  - intros. repeat split; auto.
  - intros k0 n0 p (H1 & H2 & H3 & H4) Hk. repeat split; auto.
    apply Forall_app. split; [assumption|]. now constructor.
Qed.

End BuildFacts.

(** The two updates of one row, on the dicts alone. *)
Section Updates.

Lemma ensure_get (d : Py.dict HierarchyNode) (c : string) (fresh : HierarchyNode) :
  let nodes1 := if Py.contains d c then d else Py.set d c fresh in
  (exists n, Py.get nodes1 c = Some n) /\
  (forall k n, Py.get d k = Some n -> Py.get nodes1 k = Some n).
Proof.
  unfold Py.contains. destruct (Py.get d c) as [n|] eqn:Hc; simpl.
  - split; eauto.
  - split; [rewrite get_set_same; eauto|].
    intros k n Hk. rewrite get_set_other; [assumption|].
    intros ->. congruence.
Qed.

Lemma link_parent_get (d : Py.dict HierarchyNode) (c p : string) :
  (exists n, Py.get d c = Some n) ->
  let nodes2 :=
    match Py.get d c with
    | Some n => if Py.mem p (parent_uris n) then d
                else Py.set d c (add_parent n p)
    | None => d
    end in
  (exists n, Py.get nodes2 c = Some n /\ In p (parent_uris n)) /\
  (forall k n, Py.get d k = Some n ->
     exists n', Py.get nodes2 k = Some n' /\
                incl (parent_uris n) (parent_uris n')).
Proof.
  intros [n Hn]. rewrite Hn. simpl.
  destruct (Py.mem p (parent_uris n)) eqn:Hm.
  - split.
    + exists n. split; [assumption | now apply mem_In].
    + intros k n0 Hk. exists n0. split; [assumption | apply incl_refl].
  - split.
    + exists (add_parent n p). rewrite get_set_same. split; [reflexivity|].
      simpl. apply in_or_app. right. now left.
    + intros k n0 Hk. destruct (String.eqb_spec c k) as [->|Hne].
      * rewrite get_set_same. exists (add_parent n p). split; [reflexivity|].
        assert (n0 = n) by congruence. subst. simpl. now apply incl_appl, incl_refl.
      * rewrite get_set_other by assumption.
        exists n0. split; [assumption | apply incl_refl].
Qed.

Lemma link_child (cm : Py.dict (list string)) (p c : string) :
  let children1 := if Py.contains cm p then cm else Py.set cm p [] in
  let children2 :=
    match Py.get children1 p with
    | Some cs => if Py.mem c cs then children1
                 else Py.set children1 p (cs ++ [c])
    | None => children1
    end in
  In c (children_of children2 p) /\
  (forall q x, In x (children_of cm q) -> In x (children_of children2 q)) /\
  (forall q x, In x (children_of children2 q) ->
               In x (children_of cm q) \/ (q = p /\ x = c)).
Proof.
  assert (H1 : forall q,
             children_of (if Py.contains cm p then cm else Py.set cm p []) q =
             children_of cm q).
  { intros q. unfold Py.contains, children_of.
    destruct (Py.get cm p) eqn:Hp; [reflexivity|].
    destruct (String.eqb_spec p q) as [->|Hne].
    - now rewrite get_set_same, Hp.
    - now rewrite get_set_other. }
  assert (H2 : exists cs, Py.get (if Py.contains cm p then cm else Py.set cm p []) p
                          = Some cs).
  { unfold Py.contains. destruct (Py.get cm p) eqn:Hp;
      [eauto | rewrite get_set_same; eauto]. }
  simpl. destruct H2 as [cs Hcs]. rewrite Hcs.
  set (children1 := if Py.contains cm p then cm else Py.set cm p []) in *.
  assert (Hof : children_of children1 p = cs) by (unfold children_of; now rewrite Hcs).
  destruct (Py.mem c cs) eqn:Hm.
  - apply mem_In in Hm. repeat split.
    + now rewrite Hof.
    + intros q x Hx. now rewrite H1.
    + intros q x Hx. left. now rewrite <- H1.
  - repeat split.
    + unfold children_of. rewrite get_set_same. apply in_or_app. right. now left.
    + intros q x Hx. unfold children_of.
      destruct (String.eqb_spec p q) as [->|Hne].
      * rewrite get_set_same. apply in_or_app. left.
        rewrite <- Hof, H1. assumption.
      * rewrite get_set_other by assumption.
        rewrite <- H1 in Hx. assumption.
    + intros q x. unfold children_of at 1.
      destruct (String.eqb_spec p q) as [->|Hne].
      * rewrite get_set_same. intros Hx. apply in_app_or in Hx.
        destruct Hx as [Hx|[<-|[]]]; [left | now right].
        rewrite <- H1, Hof. assumption.
      * rewrite get_set_other by assumption. intros Hx. left.
        rewrite <- H1. assumption.
Qed.

End Updates.

Section EdgeFacts.
Variable I : list string.

(** A node once created stays, and only gains parents. *)
Lemma build_row_node_kept (st : BuildState) (row : Row) (k : string) (n : HierarchyNode) :
  Py.get (nodes st) k = Some n ->
  exists n', Py.get (nodes (build_row I st row)) k = Some n' /\
             incl (parent_uris n) (parent_uris n').
Proof.
  intros Hk. unfold build_row.
  destruct (Py.get row "class") as [c|] eqn:Hc;
    [|exists n; split; [assumption | apply incl_refl]].
  destruct (c =? ""); [exists n; split; [assumption | apply incl_refl]|].
  set (fresh := mkHierarchyNode c _ _ _ _ _ _).
  destruct (ensure_get (nodes st) c fresh) as [Hex Hkeep].
  set (nodes1 := if Py.contains (nodes st) c then nodes st
                 else Py.set (nodes st) c fresh) in *.
  apply Hkeep in Hk.
  destruct (Py.get row "parent") as [p|]; simpl;
    [|exists n; split; [assumption | apply incl_refl]].
  destruct (keep_parent p); simpl;
    [|exists n; split; [assumption | apply incl_refl]].
  destruct (link_parent_get nodes1 c p Hex) as [_ Hmono].
  now apply Hmono.
Qed.

(** A child once recorded stays. *)
Lemma build_row_child_kept (st : BuildState) (row : Row) (p c : string) :
  In c (children_of (children_map st) p) ->
  In c (children_of (children_map (build_row I st row)) p).
Proof.
  intros Hin. unfold build_row.
  destruct (Py.get row "class") as [c'|]; [|assumption].
  destruct (c' =? ""); [assumption|].
  destruct (Py.get row "parent") as [p'|]; simpl; [|assumption].
  destruct (keep_parent p'); simpl; [|assumption].
  now apply (link_child (children_map st) p' c').
Qed.

(** The row of an edge records the parent on the node and the child in
    the children map. *)
Lemma build_row_edge (st : BuildState) (row : Row) (c p : string) :
  Py.get row "class" = Some c -> c <> "" ->
  Py.get row "parent" = Some p -> keep_parent p = true ->
  (exists n, Py.get (nodes (build_row I st row)) c = Some n /\
             In p (parent_uris n)) /\
  In c (children_of (children_map (build_row I st row)) p).
Proof.
  intros Hc Hne Hp Hk. unfold build_row. rewrite Hc.
  apply String.eqb_neq in Hne. rewrite Hne, Hp, Hk. simpl.
  set (fresh := mkHierarchyNode c _ _ _ _ _ _).
  destruct (ensure_get (nodes st) c fresh) as [Hex _].
  split.
  - now apply (link_parent_get _ c p Hex).
  - pose proof (link_child (children_map st) p c) as H. cbv zeta in H.
    exact (proj1 H).
Qed.

(** Every recorded child is a node. *)
Lemma build_row_children_nodes (st : BuildState) (row : Row) :
  (forall p c, In c (children_of (children_map st) p) ->
               Py.get (nodes st) c <> None) ->
  forall p c, In c (children_of (children_map (build_row I st row)) p) ->
              Py.get (nodes (build_row I st row)) c <> None.
Proof.
  intros Hst p c Hin.
  assert (Hold : In c (children_of (children_map st) p) ->
                 Py.get (nodes (build_row I st row)) c <> None).
  { intros H. specialize (Hst _ _ H).
    destruct (Py.get (nodes st) c) as [n|] eqn:Hn; [|congruence].
    destruct (build_row_node_kept st row c n Hn) as (n' & Hn' & _).
    congruence. }
  revert Hin. unfold build_row at 1.
  destruct (Py.get row "class") as [c'|] eqn:Hc; [|assumption].
  destruct (String.eqb_spec c' "") as [->|Hne]; [assumption|].
  destruct (Py.get row "parent") as [p'|] eqn:Hp; simpl; [|assumption].
  destruct (keep_parent p') eqn:Hk; simpl; [|assumption].
  intros Hin. apply (link_child (children_map st) p' c') in Hin.
  destruct Hin as [Hin|[-> ->]]; [now apply Hold|].
  destruct (build_row_edge st row c' p' Hc Hne Hp Hk) as [(n & Hn & _) _].
  congruence.
Qed.

Lemma fold_build_node_kept (rows : list Row) :
  forall st k n p,
    Py.get (nodes st) k = Some n -> In p (parent_uris n) ->
    exists n', Py.get (nodes (fold_left (build_row I) rows st)) k = Some n' /\
               In p (parent_uris n').
Proof.
  induction rows as [|row rows IH]; simpl; intros st k n p Hk Hp; [eauto|].
  destruct (build_row_node_kept st row k n Hk) as (n' & Hn' & Hincl).
  apply (IH _ _ n'); auto.
Qed.

Lemma fold_build_child_kept (rows : list Row) :
  forall st p c,
    In c (children_of (children_map st) p) ->
    In c (children_of (children_map (fold_left (build_row I) rows st)) p).
Proof.
  induction rows as [|row rows IH]; simpl; intros st p c H; [assumption|].
  apply IH. now apply build_row_child_kept.
Qed.

Lemma fold_build_edge (rows : list Row) (row : Row) (c p : string) :
  In row rows ->
  Py.get row "class" = Some c -> c <> "" ->
  Py.get row "parent" = Some p -> keep_parent p = true ->
  forall st,
    (exists n, Py.get (nodes (fold_left (build_row I) rows st)) c = Some n /\
               In p (parent_uris n)) /\
    In c (children_of (children_map (fold_left (build_row I) rows st)) p).
Proof.
  intros Hin Hc Hne Hp Hk.
  induction rows as [|r rows IH]; [contradiction|].
  intros st. simpl. destruct Hin as [->|Hin]; [|now apply IH].
  destruct (build_row_edge st row c p Hc Hne Hp Hk) as [(n & Hn & Hpn) Hch].
  split.
  - eapply fold_build_node_kept; eauto.
  - now apply fold_build_child_kept.
Qed.

Lemma fold_build_children_nodes (rows : list Row) :
  forall st,
    (forall p c, In c (children_of (children_map st) p) ->
                 Py.get (nodes st) c <> None) ->
    forall p c,
      In c (children_of (children_map (fold_left (build_row I) rows st)) p) ->
      Py.get (nodes (fold_left (build_row I) rows st)) c <> None.
Proof.
  induction rows as [|row rows IH]; simpl; intros st Hst; [assumption|].
  apply IH. now apply build_row_children_nodes.
Qed.

Lemma build_children_nodes (rows : list Row) (p c : string) :
  In c (children_of (children_map (build I rows)) p) ->
  Py.get (nodes (build I rows)) c <> None.
Proof.
  unfold build. apply fold_build_children_nodes.
  intros p' c'. simpl. tauto.
Qed.

(** An edge of the kept rows is in the state the loop ends with. *)
Lemma build_edge (rows : list Row) (row : Row) (c p : string) :
  In row rows -> keep_class_row row = true ->
  Py.get row "class" = Some c ->
  Py.get row "parent" = Some p -> named_class p = true ->
  (exists n, Py.get (nodes (build I (filter keep_class_row rows))) c = Some n /\
             In p (parent_uris n)) /\
  In c (children_of (children_map (build I (filter keep_class_row rows))) p).
Proof.
  intros Hin Hrow Hc Hp Hk. unfold build.
  apply (fold_build_edge _ row); auto.
  - apply filter_In. now split.
  - apply named_class_nonempty. eapply keep_class_row_named; eauto.
  - now rewrite keep_parent_named.
Qed.

End EdgeFacts.

(** ** Hierarchy builder: ancestor promotion *)

Section PromotionFacts.
Variable I : list string.
Variable st : BuildState.

Lemma count_unmarked_mono (ks v v' : list string) :
  incl v v' ->
  List.length (filter (fun k => negb (Py.mem k v')) ks) <=
  List.length (filter (fun k => negb (Py.mem k v)) ks).
Proof.
  intros Hincl. induction ks as [|k ks IH]; simpl; [lia|].
  destruct (Py.mem k v') eqn:Hv'; destruct (Py.mem k v) eqn:Hv; simpl; try lia.
  apply mem_In in Hv. apply Hincl in Hv. apply mem_In in Hv. congruence.
Qed.

Lemma unvisited_mono (v v' : list string) :
  incl v v' -> unvisited st v' <= unvisited st v.
Proof. apply count_unmarked_mono. Qed.

Lemma unvisited_mark (u : string) (v : list string) :
  Py.get (nodes st) u <> None -> Py.mem u v = false ->
  unvisited st (u :: v) < unvisited st v.
Proof.
  intros Hu Hv. apply get_keys in Hu. unfold unvisited.
  induction (Py.keys (nodes st)) as [|k ks IH]; [contradiction|].
  pose proof (count_unmarked_mono ks v (u :: v) (incl_tl u (incl_refl v))) as Hle.
  destruct Hu as [->|Hu].
  - simpl. rewrite String.eqb_refl, Hv. simpl. simpl in Hle. lia.
  - specialize (IH Hu). simpl in *.
    destruct (k =? u); simpl; destruct (Py.mem k v); simpl; lia.
Qed.

(** The loop over the children returns when the recursive calls do. *)
Lemma for_children_total (fuel : nat)
      (rec : string -> list string -> option (bool * list string)) :
  (forall c v, Py.get (nodes st) c <> None -> unvisited st v < fuel ->
               exists b v', rec c v = Some (b, v') /\ incl v v') ->
  forall cs v, unvisited st v < fuel ->
               exists b v', for_children I st rec cs v = Some (b, v') /\ incl v v'.
Proof.
  intros Hrec. induction cs as [|c cs IH]; simpl; intros v Hv.
  - exists false, v. split; [reflexivity | apply incl_refl].
  - destruct (Py.get (nodes st) c) as [n|] eqn:Hn; [|now apply IH].
    destruct (negb (uri_is_external I c)).
    + exists true, v. split; [reflexivity | apply incl_refl].
    + destruct (Hrec c v) as (b & v1 & Hr & Hincl); [congruence | assumption |].
      rewrite Hr. destruct b.
      * exists true, v1. now split.
      * destruct (IH v1) as (b' & v2 & Hl & Hincl2).
        { pose proof (unvisited_mono _ _ Hincl). lia. }
        exists b', v2. split; [assumption|].
        eapply incl_tran; eassumption.
Qed.

(** [has_internal_descendant] returns whenever the fuel exceeds the number
    of nodes that are not yet visited. *)
Lemma has_internal_descendant_returns (fuel : nat) :
  forall u v, Py.get (nodes st) u <> None -> unvisited st v < fuel ->
              exists b v', has_internal_descendant I fuel st u v = Some (b, v') /\
                           incl v v'.
Proof.
  induction fuel as [|fuel IH]; intros u v Hu Hv; [lia|].
  simpl. destruct (Py.mem u v) eqn:Hm.
  - exists false, v. split; [reflexivity | apply incl_refl].
  - pose proof (unvisited_mark u v Hu Hm) as Hlt.
    destruct (for_children_total fuel (has_internal_descendant I fuel st) IH
                (children_of (children_map st) u) (u :: v))
      as (b & v' & Hl & Hincl); [lia|].
    exists b, v'. split; [assumption|].
    intros x Hx. apply Hincl. now right.
Qed.

(** With the fuel of the promotion pass the search from a node returns. *)
Lemma has_internal_descendant_total (u : string) :
  Py.get (nodes st) u <> None ->
  exists b v, has_internal_descendant I (promotion_fuel st) st u [] = Some (b, v).
Proof.
  intros Hu.
  destruct (has_internal_descendant_returns (promotion_fuel st) u [] Hu)
    as (b & v & H & _).
  - unfold promotion_fuel, unvisited.
    pose proof (filter_length_le (fun k => negb (Py.mem k [])) (Py.keys (nodes st))) as Hle.
    unfold Py.keys in *. rewrite length_map in Hle. lia.
  - eauto.
Qed.

Lemma closed_at_mono (v v' : list string) (x : string) :
  incl v v' -> closed_at I st v x -> closed_at I st v' x.
Proof.
  intros Hincl Hc c Hin Hn. destruct (Hc c Hin Hn). split; auto.
Qed.

(** When the loop over the children finds nothing, every child that is a
    node is external and visited, and what was visited on the way is
    closed. *)
Lemma for_children_false
      (rec : string -> list string -> option (bool * list string)) :
  (forall c v v', rec c v = Some (false, v') ->
     incl v v' /\ In c v' /\
     forall x, In x v' -> In x v \/ closed_at I st v' x) ->
  forall cs v v',
    for_children I st rec cs v = Some (false, v') ->
    incl v v' /\
    (forall c, In c cs -> Py.get (nodes st) c <> None ->
               uri_is_external I c = true /\ In c v') /\
    (forall x, In x v' -> In x v \/ closed_at I st v' x).
Proof.
  intros Hrec. induction cs as [|c cs IH]; simpl; intros v v' H.
  - injection H as <-. split; [apply incl_refl|]. split; [contradiction | auto].
  - destruct (Py.get (nodes st) c) as [n|] eqn:Hn.
    + destruct (uri_is_external I c) eqn:He; simpl in H; [|discriminate].
      destruct (rec c v) as [[[|] v1]|] eqn:Hr; try discriminate.
      destruct (Hrec _ _ _ Hr) as (Hi1 & Hc1 & Hcl1).
      destruct (IH _ _ H) as (Hi2 & Hcs & Hcl2).
      split; [eapply incl_tran; eassumption|]. split.
      * intros c' [<-|Hin] Hn'; [split; auto | now apply Hcs].
      * intros x Hx. destruct (Hcl2 x Hx) as [Hx1|Hx1]; [|now right].
        destruct (Hcl1 x Hx1) as [Hx0|Hx0]; [now left | right].
        eapply closed_at_mono; eassumption.
    + destruct (IH _ _ H) as (Hi2 & Hcs & Hcl2).
      split; [assumption|]. split; [|assumption].
      intros c' [<-|Hin] Hn'; [congruence | now apply Hcs].
Qed.

(** When the search from [u] finds nothing, [u] is visited and what was
    visited on the way is closed. *)
Lemma has_internal_descendant_false (fuel : nat) :
  forall u v v',
    has_internal_descendant I fuel st u v = Some (false, v') ->
    incl v v' /\ In u v' /\
    forall x, In x v' -> In x v \/ closed_at I st v' x.
Proof.
  induction fuel as [|fuel IH]; intros u v v' H; [discriminate|].
  simpl in H. destruct (Py.mem u v) eqn:Hm.
  - injection H as <-. apply mem_In in Hm.
    split; [apply incl_refl|]. split; auto.
  - apply (for_children_false _ IH) in H. destruct H as (Hincl & Hcs & Hcl).
    split; [intros x Hx; apply Hincl; now right|].
    split; [apply Hincl; now left|].
    intros x Hx. destruct (Hcl x Hx) as [[<-|Hx0]|Hx0]; [|now left|now right].
    right. intros c Hin Hn. now apply Hcs.
Qed.

(** The search is complete: when it finds nothing from [u], every
    descendant of [u] is external. *)
Lemma no_internal_descendant (fuel : nat) (u : string) (v : list string) :
  (forall p c, In c (children_of (children_map st) p) ->
               Py.get (nodes st) c <> None) ->
  has_internal_descendant I fuel st u [] = Some (false, v) ->
  forall d, descendant (children_map st) u d -> uri_is_external I d = true.
Proof.
  intros Hnodes H. apply has_internal_descendant_false in H.
  destruct H as (_ & Hu & Hcl).
  assert (Hclosed : forall x, In x v -> closed_at I st v x).
  { intros x Hx. destruct (Hcl x Hx) as [[]|]; assumption. }
  intros d Hd. revert Hu. induction Hd as [u c Hc|u c d Hc Hd IH]; intros Hu.
  - apply (Hclosed u Hu c Hc). eauto.
  - apply IH. apply (Hclosed u Hu c Hc). eauto.
Qed.

(** What the promotion pass does to an entry. *)
Lemma promote_node_cases (k : string) (n : HierarchyNode) :
  promote_node I st (k, n) = (k, n) \/
  (is_external n = true /\
   promote_node I st (k, n) = (k, set_external n false)).
Proof.
  unfold promote_node. destruct (is_external n) eqn:He; [|now left].
  destruct (has_internal_descendant I (promotion_fuel st) st k [])
    as [[[|] v]|]; auto.
Qed.

(** A node still external after the pass was external before, and the
    search from it found nothing. *)
Lemma promote_external (k : string) (n' : HierarchyNode) :
  In (k, n') (promote I st) -> is_external n' = true ->
  exists n v, In (k, n) (nodes st) /\ n' = n /\
              has_internal_descendant I (promotion_fuel st) st k [] = Some (false, v).
Proof.
  unfold promote. rewrite in_map_iff. intros [[k0 n] [Heq Hin]] He.
  assert (Hk : Py.get (nodes st) k0 <> None).
  { destruct (In_get _ _ _ Hin) as [? ->]. discriminate. }
  destruct (has_internal_descendant_total k0 Hk) as (b & v & Hs).
  unfold promote_node in Heq. destruct (is_external n) eqn:Hn.
  - rewrite Hs in Heq. destruct b.
    + injection Heq as <- <-. simpl in He. discriminate.
    + injection Heq as <- <-. exists n, v. auto.
  - injection Heq as <- <-. congruence.
Qed.

(** The pass changes nothing but the flag. *)
Lemma promote_fields (k : string) (n' : HierarchyNode) :
  In (k, n') (promote I st) ->
  exists n, In (k, n) (nodes st) /\
            node_uri n' = node_uri n /\ parent_uris n' = parent_uris n /\
            (is_external n' = true -> is_external n = true).
Proof.
  unfold promote. rewrite in_map_iff. intros [[k0 n] [Heq Hin]].
  destruct (promote_node_cases k0 n) as [H|[He H]]; rewrite H in Heq;
    injection Heq as <- <-; exists n; simpl; auto.
Qed.

End PromotionFacts.

(** The nodes returned are nodes of the promotion pass. *)
Lemma hierarchy_output (store : Store) (ontology : string) (n : HierarchyNode) :
  In n (get_class_hierarchy store ontology) ->
  exists k, In (k, n) (promote (hierarchy_internal_namespaces store ontology)
                               (hierarchy_state store ontology)).
Proof.
  unfold get_class_hierarchy. rewrite sorted_In. intros H.
  apply In_values.
  destruct (show_deprecated (_get_ontology_config store ontology));
    [assumption | apply filter_In in H; tauto].
Qed.

(** ** Keys of the node dict *)

Lemma NoDup_keys_set {V : Type} (d : Py.dict V) (k : string) (v : V) :
  NoDup (Py.keys d) -> NoDup (Py.keys (Py.set d k v)).
Proof.
  intros Hnd. destruct (Py.get d k) as [v0|] eqn:Hg.
  - now rewrite (keys_set_present d k v v0 Hg).
  - rewrite (keys_set_absent d k v Hg).
    apply NoDup_app; [assumption | repeat constructor; simpl; tauto |].
    intros x Hx [<-|[]]. apply get_keys in Hx. congruence.
Qed.

Lemma NoDup_keys_get {V : Type} (d : Py.dict V) (k : string) (v : V) :
  NoDup (Py.keys d) -> In (k, v) d -> Py.get d k = Some v.
Proof.
  unfold Py.keys. induction d as [|[k' v'] d IH]; simpl; [tauto|].
  intros Hnd [[= -> ->]|Hin].
  - now rewrite String.eqb_refl.
  - inversion Hnd as [|? ? Hnotin Hnd']; subst.
    destruct (String.eqb_spec k' k) as [->|Hne]; [|auto].
    exfalso. apply Hnotin. apply in_map_iff. now exists (k, v).
Qed.

Lemma build_row_keys (I : list string) (st : BuildState) (row : Row) :
  NoDup (Py.keys (nodes st)) -> NoDup (Py.keys (nodes (build_row I st row))).
Proof.
  intros Hnd. unfold build_row.
  destruct (Py.get row "class") as [c|]; [|assumption].
  destruct (c =? ""); [assumption|].
  set (fresh := mkHierarchyNode c _ _ _ _ _ _).
  assert (H1 : NoDup (Py.keys (if Py.contains (nodes st) c then nodes st
                               else Py.set (nodes st) c fresh))).
  { destruct (Py.contains (nodes st) c); [assumption | now apply NoDup_keys_set]. }
  destruct (Py.get row "parent") as [p|]; simpl; [|assumption].
  destruct (keep_parent p); simpl; [|assumption].
  match goal with |- NoDup (Py.keys (match ?g with _ => _ end)) =>
    destruct g as [n1|] end; [|assumption].
  destruct (Py.mem p (parent_uris n1)); [assumption | now apply NoDup_keys_set].
Qed.

Lemma build_keys (I : list string) (rows : list Row) :
  NoDup (Py.keys (nodes (build I rows))).
Proof.
  unfold build.
  assert (H : NoDup (Py.keys (nodes (mkBuildState [] [] [])))) by constructor.
  revert H. generalize (mkBuildState [] [] []).
  induction rows as [|row rows IH]; simpl; intros st H; [assumption|].
  apply IH. now apply build_row_keys.
Qed.

(** ** The bulk query on a graph *)

Section SparqlFacts.
Import Sparql.

Lemma term_eqb_eq (a b : Term) : term_eqb a b = true <-> a = b.
Proof.
  destruct a, b; simpl; try (split; [discriminate | congruence]).
  - rewrite String.eqb_eq. split; congruence.
  - rewrite String.eqb_eq. split; congruence.
  - rewrite andb_true_iff, !String.eqb_eq. split; [intros []|intros [=]]; subst; auto.
Qed.

Lemma term_eqb_refl (a : Term) : term_eqb a a = true.
Proof. now apply term_eqb_eq. Qed.

Lemma objects_In (g : Graph) (s : Term) (p : string) (o : Term) :
  In o (objects g s p) <-> In (mkTriple s p o) g.
Proof.
  unfold objects. rewrite in_map_iff. split.
  - intros [[s' p' o'] [<- H]]. apply filter_In in H. simpl in H.
    destruct H as [H Hb]. apply andb_true_iff in Hb. destruct Hb as [Hs Hp].
    apply term_eqb_eq in Hs. apply String.eqb_eq in Hp. now subst.
  - intros H. exists (mkTriple s p o). split; [reflexivity|].
    apply filter_In. split; [assumption|]. simpl.
    now rewrite term_eqb_refl, String.eqb_refl.
Qed.

Lemma subjects_In (g : Graph) (p : string) (o : Term) (s : Term) :
  In s (subjects g p o) <-> In (mkTriple s p o) g.
Proof.
  unfold subjects. rewrite in_map_iff. split.
  - intros [[s' p' o'] [<- H]]. apply filter_In in H. simpl in H.
    destruct H as [H Hb]. apply andb_true_iff in Hb. destruct Hb as [Hp Ho].
    apply term_eqb_eq in Ho. apply String.eqb_eq in Hp. now subst.
  - intros H. exists (mkTriple s p o). split; [reflexivity|].
    apply filter_In. split; [assumption|]. simpl.
    now rewrite term_eqb_refl, String.eqb_refl.
Qed.

Lemma declared_classes_In (g : Graph) (c : Term) :
  In c (declared_classes g) <-> class_declared g c.
Proof.
  unfold declared_classes, class_declared.
  now rewrite in_app_iff, !subjects_In.
Qed.

Lemma optional_Some {A : Type} (l : list A) (x : A) :
  In x l -> In (Some x) (optional l).
Proof.
  destruct l as [|y l]; [contradiction|]. intros H.
  unfold optional. now apply in_map.
Qed.

Lemma optional_inhabited {A : Type} (l : list A) : exists o, In o (optional l).
Proof.
  destruct l as [|y l]; simpl; eauto.
Qed.

Lemma binding_eqb_eq (a b : string * option Term) :
  binding_eqb a b = true -> a = b.
Proof.
  destruct a as [x [s|]], b as [y [t|]]; unfold binding_eqb; simpl;
    rewrite andb_true_iff; intros [Hx Ht]; try discriminate;
    apply String.eqb_eq in Hx; subst; [|reflexivity].
  apply term_eqb_eq in Ht. now subst.
Qed.

Lemma solution_eqb_eq (a b : Solution) : solution_eqb a b = true -> a = b.
Proof.
  revert b. induction a as [|x a IH]; intros [|y b]; simpl; try discriminate;
    [reflexivity|].
  rewrite andb_true_iff. intros [Hx Ha].
  apply binding_eqb_eq in Hx. apply IH in Ha. now subst.
Qed.

(** [DISTINCT] loses no solution. *)
Lemma distinct_In (sols : list Solution) (s : Solution) :
  In s sols -> In s (distinct sols).
Proof.
  induction sols as [|s0 sols IH]; simpl; [tauto|].
  intros [->|H]; [now left|].
  destruct (solution_eqb s0 s) eqn:E.
  - left. now apply solution_eqb_eq.
  - right. apply filter_In. split; [now apply IH | now rewrite E].
Qed.

(** A declared class with a named parent has a row that binds both. *)
Lemma hierarchy_rows_edge (g : Graph) (child parent : string) :
  class_declared g (NamedNode child) -> subclass_edge g child parent ->
  exists row, In row (hierarchy_rows g) /\
              Py.get row "class" = Some child /\
              Py.get row "parent" = Some parent.
Proof.
  intros Hc He.
  destruct (optional_inhabited (objects g (NamedNode child) RDFS_LABEL)) as [lbl Hl].
  destruct (optional_inhabited (objects g (NamedNode child) PREFIX_IRI)) as [pfx Hp].
  destruct (optional_inhabited (objects g (NamedNode child) OWL_DEPRECATED)) as [dep Hd].
  exists (to_row [("class", Some (NamedNode child)); ("label", lbl);
                  ("prefixIRI", pfx); ("parent", Some (NamedNode parent));
                  ("deprecated", dep)]).
  split.
  - unfold hierarchy_rows. apply in_map. apply distinct_In.
    unfold hierarchy_solutions.
    apply in_flat_map. exists (NamedNode child).
    split; [now apply declared_classes_In|].
    apply in_flat_map. exists lbl. split; [assumption|].
    apply in_flat_map. exists pfx. split; [assumption|].
    apply in_flat_map. exists dep. split; [assumption|].
    apply in_map_iff. exists (Some (NamedNode parent)). split; [reflexivity|].
    apply optional_Some. apply filter_In. split; [|reflexivity].
    now apply objects_In.
  - destruct lbl, pfx, dep; split; reflexivity.
Qed.

(** A graph without class declaration has no row. *)
Lemma hierarchy_rows_none (g : Graph) :
  (forall c, ~ class_declared g c) -> hierarchy_rows g = [].
Proof.
  intros Hnone. unfold hierarchy_rows, hierarchy_solutions.
  destruct (declared_classes g) as [|c cs] eqn:E; [reflexivity|].
  exfalso. apply (Hnone c). apply declared_classes_In. rewrite E. now left.
Qed.

End SparqlFacts.

(** ** Hierarchy builder: the properties of the specification *)

(** Membership in a list that computes. *)
Ltac in_list := vm_compute; repeat (first [left; reflexivity | right]).

(** The node returned for a URI is the node the main loop stored under it,
    up to the flag. *)
Lemma hierarchy_node_stored (store : Store) (ontology : string) (n : HierarchyNode) :
  In n (get_class_hierarchy store ontology) ->
  exists n0,
    Py.get (nodes (hierarchy_state store ontology)) (node_uri n) = Some n0 /\
    node_ok (hierarchy_internal_namespaces store ontology) (node_uri n) n0 /\
    parent_uris n = parent_uris n0 /\
    (is_external n = true -> is_external n0 = true).
Proof.
  intros Hn. apply hierarchy_output in Hn. destruct Hn as [k Hk].
  apply promote_fields in Hk. destruct Hk as (n0 & Hin & Huri & Hpar & Hext).
  pose proof (build_node_ok _ _ _ _ Hin) as Hok.
  assert (Hkn : node_uri n = k) by (rewrite Huri; apply Hok).
  subst k. exists n0.
  split; [apply NoDup_keys_get; [apply build_keys | assumption]|].
  split; [exact Hok|]. split; assumption.
Qed.

(** C1, a defect of the code: a class [a] with the edge [a subClassOf a]
    in the source triples is returned with its own URI among its
    [parent_uris].  The guard on a parent in [get_class_hierarchy] does not
    compare the parent with the class, as the one of [get_ontology_graph]
    does ([parent != class_uri]). *)
Theorem self_loop_kept (store : Store) (ontology : string) (g : Sparql.Graph)
        (a : string) (n : HierarchyNode) :
  store (QHierarchy ontology) = Sparql.hierarchy_rows g ->
  class_declared g (Sparql.NamedNode a) ->
  subclass_edge g a a ->
  named_class a = true ->
  In n (get_class_hierarchy store ontology) ->
  node_uri n = a ->
  In a (parent_uris n).
Proof.
  intros Hstore Hdecl Hedge Hnamed Hn Huri.
  destruct (hierarchy_rows_edge g a a Hdecl Hedge) as (row & Hrow & Hc & Hp).
  destruct (hierarchy_node_stored _ _ _ Hn) as (n0 & Hget & _ & Hpar & _).
  rewrite Hpar. rewrite Huri in Hget.
  rewrite <- Hstore in Hrow.
  destruct (build_edge (hierarchy_internal_namespaces store ontology)
              (store (QHierarchy ontology)) row a a Hrow) as [(n1 & Hn1 & Hin) _];
    auto.
  { unfold keep_class_row. now rewrite Hc. }
  unfold hierarchy_state, hierarchy_class_data in Hget.
  congruence.
Qed.

Lemma self_loop_kept_witness :
  In Sample.feature_uri (parent_uris Sample.feature_node).
Proof.
  apply (self_loop_kept Sample.soil_store "urn:soil" Sample.soil
           Sample.feature_uri Sample.feature_node).
  - reflexivity.
  - left. in_list.
  - unfold subclass_edge. in_list.
  - reflexivity.
  - in_list.
  - reflexivity.
Defined.

(** C1, the failing input: [Feature subClassOf Feature] is in the source
    triples, and the node returned for [Feature] lists [Feature] among its
    parents, which the specification excludes. *)
Lemma self_loop_dropped_counterexample :
  subclass_edge Sample.soil Sample.feature_uri Sample.feature_uri /\
  In Sample.feature_node (get_class_hierarchy Sample.soil_store "urn:soil") /\
  node_uri Sample.feature_node = Sample.feature_uri /\
  In Sample.feature_uri (parent_uris Sample.feature_node).
Proof.
  split; [unfold subclass_edge; in_list|].
  split; [in_list|]. split; [reflexivity | now left].
Qed.

(** C7: no node returned has an excluded root or a blank node among its
    [parent_uris], whatever the rows of the source say. *)
Theorem parents_never_excluded (store : Store) (ontology : string) :
  Forall (fun n =>
            Forall (fun p => ~ In p EXCLUDED_CLASSES /\
                             Py.startswith p "_:" = false)
                   (parent_uris n))
         (get_class_hierarchy store ontology).
Proof.
  apply Forall_forall. intros n Hn.
  destruct (hierarchy_node_stored _ _ _ Hn) as (n0 & _ & Hok & Hpar & _).
  rewrite Hpar. destruct Hok as (_ & _ & Hparents & _).
  eapply Forall_impl; [|exact Hparents].
  intros p Hp. unfold keep_parent in Hp.
  apply andb_true_iff in Hp. destruct Hp as [Hp Hblank].
  apply andb_true_iff in Hp. destruct Hp as [_ Hexcl].
  split.
  - apply mem_not_In. now apply negb_true_iff.
  - now apply negb_true_iff.
Qed.

(** C9: when the graph holds no class declaration (an absent graph holds no
    triple at all), the hierarchy is the empty list. *)
Theorem no_class_empty_hierarchy (store : Store) (ontology : string)
        (g : Sparql.Graph) :
  store (QHierarchy ontology) = Sparql.hierarchy_rows g ->
  (forall c, ~ class_declared g c) ->
  get_class_hierarchy store ontology = [].
Proof.
  intros Hstore Hnone.
  unfold get_class_hierarchy, hierarchy_state, hierarchy_class_data.
  rewrite Hstore, (hierarchy_rows_none g Hnone). simpl.
  match goal with |- context [if ?b then _ else _] => destruct b end;
    reflexivity.
Qed.

Lemma no_class_empty_hierarchy_witness :
  get_class_hierarchy Sample.soil_store "urn:absent" = [] /\
  get_class_hierarchy Sample.texture_store "urn:soil" = [].
Proof.
  split.
  - apply (no_class_empty_hierarchy Sample.soil_store "urn:absent" []).
    + reflexivity.
    + intros c [[]|[]].
  - apply (no_class_empty_hierarchy Sample.texture_store "urn:soil" Sample.texture).
    + reflexivity.
    + intros c [H|H]; vm_compute in H;
        repeat (destruct H as [H|H]; [discriminate H|]); exact H.
Defined.

(** C5: a node returned as external has no internal descendant; and the
    parent of a direct edge from an internal class is never returned as
    external. *)
Theorem external_only_without_internal_descendant (store : Store) (ontology : string) :
  (forall n d,
      In n (get_class_hierarchy store ontology) ->
      is_external n = true ->
      descendant (children_map (hierarchy_state store ontology)) (node_uri n) d ->
      uri_is_external (hierarchy_internal_namespaces store ontology) d = true) /\
  (forall g child parent n,
      store (QHierarchy ontology) = Sparql.hierarchy_rows g ->
      class_declared g (Sparql.NamedNode child) ->
      subclass_edge g child parent ->
      named_class child = true ->
      uri_is_external (hierarchy_internal_namespaces store ontology) child = false ->
      In n (get_class_hierarchy store ontology) ->
      node_uri n = parent ->
      is_external n = false).
Proof.
  assert (Hgen : forall n d,
      In n (get_class_hierarchy store ontology) ->
      is_external n = true ->
      descendant (children_map (hierarchy_state store ontology)) (node_uri n) d ->
      uri_is_external (hierarchy_internal_namespaces store ontology) d = true).
  { intros n d Hn Hext Hd.
    apply hierarchy_output in Hn. destruct Hn as [k Hk].
    destruct (promote_external _ _ _ _ Hk Hext) as (n0 & v & Hin & -> & Hsearch).
    pose proof (build_node_ok _ _ _ _ Hin) as (Huri & _).
    rewrite Huri in Hd.
    eapply no_internal_descendant; [|exact Hsearch|exact Hd].
    intros p c. apply build_children_nodes. }
  split; [exact Hgen|].
  intros g child parent n Hstore Hdecl Hedge Hnamed Hint Hn Huri.
  destruct (is_external n) eqn:Hext; [|reflexivity].
  destruct (hierarchy_rows_edge g child parent Hdecl Hedge) as (row & Hrow & Hc & Hp).
  destruct (hierarchy_node_stored _ _ _ Hn) as (n0 & _ & Hok & _).
  destruct Hok as (_ & Hparent & _). rewrite Huri in Hparent.
  rewrite <- Hstore in Hrow.
  destruct (build_edge (hierarchy_internal_namespaces store ontology)
              (store (QHierarchy ontology)) row child parent Hrow) as [_ Hchild];
    auto.
  { unfold keep_class_row. now rewrite Hc. }
  assert (Htrue : uri_is_external (hierarchy_internal_namespaces store ontology)
                                  child = true).
  { apply (Hgen n child Hn Hext). rewrite Huri.
    apply descendant_child. exact Hchild. }
  congruence.
Qed.

Lemma external_only_without_internal_descendant_witness :
  uri_is_external (hierarchy_internal_namespaces Sample.soil_store "urn:soil")
                  Sample.sensor_uri = true /\
  is_external Sample.sample_node = false.
Proof.
  split.
  - apply (proj1 (external_only_without_internal_descendant
                    Sample.soil_store "urn:soil") Sample.platform_node).
    + in_list.
    + reflexivity.
    + apply descendant_child. in_list.
  - apply (proj2 (external_only_without_internal_descendant
                    Sample.soil_store "urn:soil")
                 Sample.soil Sample.profile_uri Sample.sample_uri).
    + reflexivity.
    + left. in_list.
    + unfold subclass_edge. in_list.
    + reflexivity.
    + vm_compute. reflexivity.
    + in_list.
    + reflexivity.
Defined.

(** C10: a node whose namespace is internal is returned with
    [is_external = false]; the promotion pass never turns the flag of an
    entry from false to true. *)
Theorem internal_never_external (store : Store) (ontology : string) :
  (forall n,
      In n (get_class_hierarchy store ontology) ->
      uri_is_external (hierarchy_internal_namespaces store ontology)
                      (node_uri n) = false ->
      is_external n = false) /\
  (forall internal_namespaces st kv,
      is_external (snd (promote_node internal_namespaces st kv)) = true ->
      is_external (snd kv) = true).
Proof.
  split.
  - intros n Hn Hint.
    destruct (hierarchy_node_stored _ _ _ Hn) as (n0 & _ & Hok & _ & Hext).
    destruct Hok as (_ & _ & _ & Hflag).
    destruct (is_external n); [|reflexivity].
    specialize (Hext eq_refl). congruence.
  - intros I st [k n] H.
    destruct (promote_node_cases I st k n) as [E|[He E]]; rewrite E in H;
      simpl in *; [assumption | discriminate].
Qed.

Lemma internal_never_external_witness :
  is_external Sample.feature_node = false /\
  is_external (snd (Sample.platform_uri, Sample.platform_node)) = true.
Proof.
  split.
  - apply (proj1 (internal_never_external Sample.soil_store "urn:soil")).
    + in_list.
    + vm_compute. reflexivity.
  - apply (proj2 (internal_never_external Sample.soil_store "urn:soil")
                 (hierarchy_internal_namespaces Sample.soil_store "urn:soil")
                 (hierarchy_state Sample.soil_store "urn:soil")).
    vm_compute. reflexivity.
Defined.

(** ** Code-list resolver *)

Lemma count_positive_reports (store : Store) (g e : string) (p : Pattern) (n : Z) :
  reports_count store g e p n ->
  count_positive (store (count_query p g e)) = Ok (0 <? n)%Z.
Proof.
  intros (r & rest & s & Hrows & Hget & Hint).
  unfold count_positive. now rewrite Hrows, Hget, Hint.
Qed.

Lemma positive_nonzero (n : Z) : (0 <= n)%Z -> (0 <? n)%Z = negb (n =? 0)%Z.
Proof.
  intros H. destruct (Z.ltb_spec 0 n), (Z.eqb_spec n 0); simpl; lia.
Qed.

(** C6: with the existence counts the gateway reports, detection returns
    the first pattern of the fixed order whose count is not zero, and none
    when all four are zero; a scheme that is also an enumeration is a
    [skos_scheme]. *)
Theorem detection_precedence (store : Store) (g e : string) (counts : Pattern -> Z) :
  (forall p, reports_count store g e p (counts p)) ->
  (forall p, (0 <= counts p)%Z) ->
  _detect_codelist_pattern store g e = Ok (first_match counts) /\
  (counts skos_scheme <> 0%Z -> counts owl_oneof <> 0%Z ->
   _detect_codelist_pattern store g e = Ok (Some skos_scheme)).
Proof.
  intros Hrep Hpos.
  assert (Hdetect : _detect_codelist_pattern store g e = Ok (first_match counts)).
  { unfold _detect_codelist_pattern, first_match, detection_order.
    pose proof (count_positive_reports _ _ _ _ _ (Hrep skos_scheme)) as H1.
    pose proof (count_positive_reports _ _ _ _ _ (Hrep owl_oneof)) as H2.
    pose proof (count_positive_reports _ _ _ _ _ (Hrep owl_equivalent_oneof)) as H3.
    pose proof (count_positive_reports _ _ _ _ _ (Hrep skos_collection)) as H4.
    simpl in H1, H2, H3, H4. rewrite H1. simpl.
    rewrite (positive_nonzero _ (Hpos skos_scheme)).
    destruct (counts skos_scheme =? 0)%Z; simpl; [|reflexivity].
    rewrite H2. simpl. rewrite (positive_nonzero _ (Hpos owl_oneof)).
    destruct (counts owl_oneof =? 0)%Z; simpl; [|reflexivity].
    rewrite H3. simpl. rewrite (positive_nonzero _ (Hpos owl_equivalent_oneof)).
    destruct (counts owl_equivalent_oneof =? 0)%Z; simpl; [|reflexivity].
    rewrite H4. simpl. rewrite (positive_nonzero _ (Hpos skos_collection)).
    destruct (counts skos_collection =? 0)%Z; reflexivity. }
  split; [exact Hdetect|].
  intros Hskos _. rewrite Hdetect. unfold first_match, detection_order. simpl.
  apply Z.eqb_neq in Hskos. now rewrite Hskos.
Qed.

Lemma detection_precedence_witness :
  _detect_codelist_pattern Sample.scheme_store "urn:soil"
                           "http://example.org/soil#TextureCode"
  = Ok (Some skos_scheme).
Proof.
  refine (proj2 (detection_precedence Sample.scheme_store "urn:soil"
                   "http://example.org/soil#TextureCode" Sample.scheme_counts
                   _ _) _ _).
  - intros p. unfold reports_count.
    destruct p; do 3 eexists; (split; [reflexivity|]); split; reflexivity.
  - intros p. destruct p; vm_compute; discriminate.
  - vm_compute. discriminate.
  - vm_compute. discriminate.
Defined.

(** The URIs of the members the loops build are the member URIs the rows
    bind, in the order of the rows. *)
Lemma skos_members_uris (rows : list Row) :
  map member_uri (skos_members rows) = row_member_uris rows.
Proof.
  unfold skos_members, row_member_uris.
  induction rows as [|r rows IH]; [reflexivity|].
  cbn [flat_map]. rewrite map_app, IH.
  destruct (Py.get r "member") as [u|]; [|reflexivity].
  destruct (u =? ""); reflexivity.
Qed.

Lemma oneof_members_uris (rows : list Row) :
  map member_uri (oneof_members rows) = row_member_uris rows.
Proof.
  unfold oneof_members, row_member_uris.
  induction rows as [|r rows IH]; [reflexivity|].
  cbn [flat_map]. rewrite map_app, IH.
  destruct (Py.get r "member") as [u|]; [|reflexivity].
  destruct (u =? ""); reflexivity.
Qed.

Lemma pattern_members_uris (store : Store) (ontology entity : string) (p : Pattern) :
  map member_uri (pattern_members store ontology entity p)
  = row_member_uris (store (member_query ontology entity p)).
Proof.
  destruct p; simpl; first [apply skos_members_uris | apply oneof_members_uris].
Qed.

Lemma subsequence_map_filter {A B : Type} (f : A -> B) (p : A -> bool)
      (l : list A) :
  subsequence (map f (filter p l)) (map f l).
Proof.
  induction l as [|x l IH]; simpl; [constructor|].
  destruct (p x); simpl; now constructor.
Qed.

(** C2, as the code has it: the members returned are ordered by lowercased
    label alone, whatever their notations; their URIs are the member URIs
    the rows of the member query bind; and members with the same lowercased
    label come in the order of the rows. *)
Theorem members_sorted_by_label (str_lower : string -> string) (store : Store)
        (ontology entity : string) (info : CodeListInfo) :
  get_codelist_info str_lower store ontology entity = Ok (Some info) ->
  Sorted (label_lower_le str_lower) (members info) /\
  (forall u, In u (map member_uri (members info)) <->
             In u (row_member_uris
                     (store (member_query ontology entity (pattern info))))) /\
  (forall k,
      subsequence
        (map member_uri
             (filter (fun m => member_key str_lower m =? k) (members info)))
        (row_member_uris (store (member_query ontology entity (pattern info))))).
Proof.
  unfold get_codelist_info.
  destruct (_detect_codelist_pattern store ontology entity) as [[p|]|]; simpl;
    try discriminate.
  intros [= <-]. cbn [members pattern].
  rewrite <- pattern_members_uris. split; [|split].
  - exact (sorted_Sorted (member_key str_lower) _).
  - intros u. rewrite !in_map_iff. split; intros (m & Hm & Hin); exists m;
      (split; [assumption|]); now apply (sorted_In (member_key str_lower)).
  - intros k. rewrite sorted_stable. apply subsequence_map_filter.
Qed.

Lemma members_sorted_by_label_witness :
  Sorted (label_lower_le Py.lower) Sample.scheme_members.
Proof.
  exact (proj1 (members_sorted_by_label Py.lower Sample.scheme_store "urn:soil"
                  "http://example.org/soil#TextureCode" Sample.scheme_info
                  eq_refl)).
Defined.

(** C2, as the specification has it, fails: for the sample scheme, whose
    labels are ASCII, the members come back with notations 2, 2, 1, and the
    concept with two labels comes back twice. *)
Lemma members_by_notation_counterexample :
  get_codelist_info Py.lower Sample.scheme_store "urn:soil"
                    "http://example.org/soil#TextureCode"
  = Ok (Some Sample.scheme_info) /\
  ~ Sorted notation_then_label (members Sample.scheme_info) /\
  ~ NoDup (map member_uri (members Sample.scheme_info)).
Proof.
  split; [reflexivity|]. split.
  - intros H. simpl in H.
    inversion H as [|a l Htail _]; subst.
    inversion Htail as [|b l' _ Hhd]; subst.
    inversion Hhd as [|c l'' Hle]; subst.
    vm_compute in Hle. discriminate.
  - intros H. simpl in H. inversion H as [|x l Hnotin _]; subst.
    apply Hnotin. now left.
Qed.

(** ** Property resolver: order of the lists *)

Lemma inherited_sorted (store : Store) (ontology : string) (chain : list Ref) :
  forall st,
    Forall (fun grp => Sorted prop_label_le (properties grp)) (fst st) ->
    Forall (fun grp => Sorted prop_label_le (properties grp))
           (fst (fold_left (inherit_from store ontology) chain st)).
Proof.
  induction chain as [|ancestor chain IH]; simpl; intros st Hst; [assumption|].
  apply IH. destruct st as [groups seen]. unfold inherit_from.
  destruct (filter _ (_get_properties_for_class store ontology (ref_uri ancestor)))
    as [|kv new_props]; [assumption|].
  cbn [fst] in *. apply Forall_app. split; [assumption|].
  constructor; [|constructor]. cbn [properties].
  exact (sorted_Sorted prop_key (Py.values (kv :: new_props))).
Qed.

(** C3, as the code has it: the three lists are sorted by label in
    code-point order (upper case before lower case), the empty label
    first. *)
Theorem class_properties_sorted_by_label (store : Store) (ontology class_uri : string) :
  class_properties_sorted prop_label_le
                          (get_class_properties store ontology class_uri).
Proof.
  unfold class_properties_sorted, get_class_properties. simpl.
  split; [exact (sorted_Sorted prop_key _)|].
  split; [|exact (sorted_Sorted prop_key _)].
  apply inherited_sorted. constructor.
Qed.

(** C3, as the specification has it, fails: the properties labelled
    [depth] and [Zone] come back as [Zone], [depth]. *)
Lemma class_properties_case_insensitive_counterexample :
  map prop_label
      (domain_of (get_class_properties Sample.labelled_store "urn:soil"
                                       Sample.layer_uri))
  = [Some "Zone"; Some "depth"] /\
  ~ class_properties_sorted prop_label_ci_le
      (get_class_properties Sample.labelled_store "urn:soil" Sample.layer_uri).
Proof.
  split; [reflexivity|].
  intros (H & _ & _). vm_compute in H.
  inversion H as [|a l _ Hhd]; subst.
  inversion Hhd as [|b l' Hle]; subst.
  vm_compute in Hle. discriminate.
Qed.

(** ** Property resolver: the superclass chain *)

Lemma last_cons {A : Type} (a d : A) (l : list A) : last (a :: l) d = last l a.
Proof.
  revert a d. induction l as [|b l IH]; intros a d; [reflexivity|].
  change (last (a :: b :: l) d) with (last (b :: l) d).
  now rewrite (IH b d), (IH b a).
Qed.

Lemma chain_loop_S (store : Store) (ontology : string) (n : nat) (s : ChainState) :
  chain_loop store ontology (S n) s =
  match store (QParent ontology (current s)) with
  | [] => mkChainState (superclasses s) (visited s) (current s) (S (queries s))
  | r :: _ =>
    match Py.get r "parent" with
    | None => mkChainState (superclasses s) (visited s) (current s) (S (queries s))
    | Some p =>
      if (p =? "") || Py.mem p (visited s)
      then mkChainState (superclasses s) (visited s) (current s) (S (queries s))
      else if Py.mem p EXCLUDED_CLASSES
      then mkChainState (superclasses s) (visited s) (current s) (S (queries s))
      else chain_loop store ontology n
             (mkChainState
                (superclasses s ++
                 [mkRef p (Py.or_else (Py.get r "parentLabel")
                                      (_extract_local_name p))])
                (p :: visited s) p (S (queries s)))
    end
  end.
Proof. reflexivity. Qed.

(** The loop of [_get_superclass_chain], from any state: what it appends is
    linked from the current class, avoids what was visited and the excluded
    roots, and the loop ends at its bound or at a class where the walk
    stops. *)
Lemma chain_loop_spec (store : Store) (ontology : string) (n : nat) :
  forall s, exists new,
    superclasses (chain_loop store ontology n s) = superclasses s ++ new /\
    visited (chain_loop store ontology n s) = rev (map ref_uri new) ++ visited s /\
    current (chain_loop store ontology n s) = last (map ref_uri new) (current s) /\
    linked store ontology (current s) new /\
    Forall (fun r => ~ In (ref_uri r) EXCLUDED_CLASSES) new /\
    (NoDup (visited s) -> NoDup (visited (chain_loop store ontology n s))) /\
    ((List.length new = n /\
      queries (chain_loop store ontology n s) = queries s + n) \/
     (List.length new < n /\
      queries (chain_loop store ontology n s) = queries s + S (List.length new) /\
      stops_at store ontology (visited (chain_loop store ontology n s))
               (current (chain_loop store ontology n s)))).
Proof.
  induction n as [|n IH]; intros s.
  - exists []. simpl. rewrite app_nil_r.
    do 6 (split; [solve [auto]|]).
    left. split; [reflexivity | lia].
  - assert (Hstop : forall s',
        s' = mkChainState (superclasses s) (visited s) (current s) (S (queries s)) ->
        stops_at store ontology (visited s) (current s) ->
        exists new,
          superclasses s' = superclasses s ++ new /\
          visited s' = rev (map ref_uri new) ++ visited s /\
          current s' = last (map ref_uri new) (current s) /\
          linked store ontology (current s) new /\
          Forall (fun r => ~ In (ref_uri r) EXCLUDED_CLASSES) new /\
          (NoDup (visited s) -> NoDup (visited s')) /\
          ((List.length new = S n /\ queries s' = queries s + S n) \/
           (List.length new < S n /\
            queries s' = queries s + S (List.length new) /\
            stops_at store ontology (visited s') (current s')))).
    { intros s' -> Hs. exists []. simpl. rewrite app_nil_r.
      do 6 (split; [solve [auto]|]).
      right. split; [lia|]. split; [lia | assumption]. }
    remember (chain_loop store ontology (S n) s) as s' eqn:Heq.
    rewrite chain_loop_S in Heq.
    destruct (store (QParent ontology (current s))) as [|r rows] eqn:Hq.
    { apply Hstop; [assumption|]. unfold stops_at, first_parent.
      now rewrite Hq. }
    destruct (Py.get r "parent") as [p|] eqn:Hp.
    2:{ apply Hstop; [assumption|]. unfold stops_at, first_parent.
        now rewrite Hq, Hp. }
    destruct (String.eqb_spec p "") as [->|Hne]; cbn [orb] in Heq.
    { apply Hstop; [assumption|]. unfold stops_at, first_parent.
      rewrite Hq, Hp. now left. }
    destruct (Py.mem p (visited s)) eqn:Hv.
    { apply Hstop; [assumption|]. unfold stops_at, first_parent.
      rewrite Hq, Hp. right; left. now apply mem_In. }
    destruct (Py.mem p EXCLUDED_CLASSES) eqn:He.
    { apply Hstop; [assumption|]. unfold stops_at, first_parent.
      rewrite Hq, Hp. right; right. now apply mem_In. }
    subst s'.
    clear Hstop.
    match goal with |- context [chain_loop store ontology n ?s2] =>
      destruct (IH s2) as (new & Hsup & Hvis & Hcur & Hlink & Hexcl & Hnd & Hend);
      set (s' := chain_loop store ontology n s2) in * end.
    simpl in Hsup, Hvis, Hcur, Hlink, Hnd, Hend.
    set (ref := mkRef p (Py.or_else (Py.get r "parentLabel") (_extract_local_name p))) in *.
    exists (ref :: new). simpl.
    split; [rewrite Hsup, <- app_assoc; reflexivity|].
    split; [rewrite Hvis, <- app_assoc; reflexivity|].
    split.
    { rewrite Hcur. destruct (map ref_uri new) as [|x l]; [reflexivity|].
      symmetry. apply (last_cons p (current s) (x :: l)). }
    split.
    { split; [|assumption]. unfold first_parent. now rewrite Hq. }
    split.
    { constructor; [|assumption].
      exact (proj1 (mem_not_In p EXCLUDED_CLASSES) He). }
    split.
    { intros H. apply Hnd.
      constructor; [exact (proj1 (mem_not_In p (visited s)) Hv) | assumption]. }
    destruct Hend as [[Hlen Hqs]|(Hlen & Hqs & Hs)].
    + left. split; [lia | lia].
    + right. split; [lia|]. split; [lia | assumption].
Qed.

(** C8: the superclass chain sends at most 50 parent queries and has at
    most 50 classes, also on a cyclic graph; each class is the
    first-returned parent of the one before; none is visited twice or is an
    excluded root; and the walk ends either at the bound of 50 or at a
    class with no parent, with a parent already visited, or with an
    excluded root as parent. *)
Theorem superclass_chain_bounded (store : Store) (ontology class_uri : string) :
  queries (superclass_chain_run store ontology class_uri) <= 50 /\
  List.length (_get_superclass_chain store ontology class_uri) <= 50 /\
  linked store ontology class_uri (_get_superclass_chain store ontology class_uri) /\
  NoDup (class_uri :: map ref_uri (_get_superclass_chain store ontology class_uri)) /\
  Forall (fun r => ~ In (ref_uri r) EXCLUDED_CLASSES)
         (_get_superclass_chain store ontology class_uri) /\
  ((List.length (_get_superclass_chain store ontology class_uri) = 50 /\
    queries (superclass_chain_run store ontology class_uri) = 50) \/
   (queries (superclass_chain_run store ontology class_uri) =
      S (List.length (_get_superclass_chain store ontology class_uri)) /\
    stops_at store ontology
      (class_uri :: map ref_uri (_get_superclass_chain store ontology class_uri))
      (last (map ref_uri (_get_superclass_chain store ontology class_uri))
            class_uri))).
Proof.
  unfold _get_superclass_chain, superclass_chain_run.
  destruct (chain_loop_spec store ontology 50 (mkChainState [] [class_uri] class_uri 0))
    as (new & Hsup & Hvis & Hcur & Hlink & Hexcl & Hnd & Hend).
  set (s := chain_loop store ontology 50 _) in *.
  simpl in Hsup, Hvis, Hcur, Hlink, Hnd, Hend. rewrite Hsup.
  assert (Hnodup : NoDup (class_uri :: map ref_uri new)).
  { rewrite <- (rev_involutive (class_uri :: map ref_uri new)).
    apply NoDup_rev. simpl. rewrite <- Hvis. apply Hnd.
    constructor; [simpl; tauto | constructor]. }
  assert (Hseen : forall p, In p (visited s) -> In p (class_uri :: map ref_uri new)).
  { intros p. rewrite Hvis, in_app_iff, <- in_rev. simpl. tauto. }
  destruct Hend as [[Hlen Hqs]|(Hlen & Hqs & Hs)].
  - repeat split; auto; try lia.
  - repeat split; auto; try lia. right. split; [lia|].
    rewrite <- Hcur. unfold stops_at in *.
    destruct (first_parent store ontology (current s)) as [p|]; [|exact I].
    destruct Hs as [H|[H|H]]; auto.
Qed.

(** ** Property resolver: blank-node ranges *)

Section BlankRangeFacts.
Import Sparql.

Lemma distinct_incl (sols : list Solution) (s : Solution) :
  In s (distinct sols) -> In s sols.
Proof.
  induction sols as [|s0 sols IH]; simpl; [tauto|].
  intros [->|H]; [now left|]. right. apply IH.
  apply filter_In in H. tauto.
Qed.

Lemma optional_In_Some {A : Type} (l : list A) (x : A) :
  In (Some x) (optional l) -> In x l.
Proof.
  destruct l as [|y l]; simpl.
  - intros [H|[]]. discriminate.
  - intros [[= ->]|H]; [now left|]. right.
    apply in_map_iff in H. destruct H as (z & [= ->] & Hz). assumption.
Qed.

Lemma blank_rendered (o : Term) :
  isBlank o = true -> Py.startswith (render o) "_:" = true.
Proof.
  destruct o; simpl; try discriminate. intros _.
  unfold Py.startswith. simpl. destruct id; reflexivity.
Qed.

(** A row of the domain query that binds [range] comes from a range triple
    of the property it binds. *)
Lemma domain_rows_range (g : Graph) (c : string) (row : Row) (k x : string) :
  In row (domain_rows g c) ->
  Py.get row "prop" = Some k ->
  Py.get row "range" = Some x ->
  exists s o, render s = k /\ In (mkTriple s RDFS_RANGE o) g /\ render o = x.
Proof.
  unfold domain_rows. rewrite in_map_iff. intros (sol & <- & Hsol) Hk Hx.
  apply distinct_incl in Hsol. unfold domain_solutions in Hsol.
  apply in_flat_map in Hsol. destruct Hsol as (prop & _ & Hsol).
  apply in_flat_map in Hsol. destruct Hsol as (pl & _ & Hsol).
  apply in_flat_map in Hsol. destruct Hsol as (pt & _ & Hsol).
  apply in_flat_map in Hsol. destruct Hsol as (range & Hrange & Hsol).
  apply in_map_iff in Hsol. destruct Hsol as (rl & <- & Hrl).
  simpl in Hk. injection Hk as <-.
  destruct range as [o|].
  - exists prop, o. split; [reflexivity|]. split.
    + apply optional_In_Some in Hrange. now apply objects_In.
    + destruct pl, pt; simpl in Hx; congruence.
  - destruct Hrl as [<-|[]]. destruct pl, pt; simpl in Hx; discriminate.
Qed.

Lemma domain_row_ranges (rows : list Row) (c : string)
      (props : Py.dict PropertyInfo) (r : Row) :
  In r rows ->
  (forall k info, In (k, info) props -> ranges_from_rows rows k info) ->
  forall k info, In (k, info) (domain_row c props r) ->
                 ranges_from_rows rows k info.
Proof.
  intros Hr Hprops k info. unfold domain_row.
  destruct (Py.get r "prop") as [p|] eqn:Hp; [|apply Hprops].
  destruct (p =? ""); [apply Hprops|].
  set (fresh := mkPropertyInfo p _ _ _ _).
  assert (Hfresh : ranges_from_rows rows p fresh).
  { split; [reflexivity|]. simpl. contradiction. }
  assert (H1 : forall k info,
             In (k, info) (if Py.contains props p then props
                           else Py.set props p fresh) ->
             ranges_from_rows rows k info).
  { intros k0 info0. destruct (Py.contains props p); [apply Hprops|].
    intros H. apply In_set in H. destruct H as [[-> ->]|H]; auto. }
  destruct (Py.get r "range") as [x|] eqn:Hx; [|apply H1].
  destruct (negb (x =? "") && negb (Py.startswith x "_:")) eqn:Hguard;
    [|apply H1].
  match goal with |- In _ (match ?g with _ => _ end) -> _ =>
    destruct g as [info1|] eqn:Hg end; [|apply H1].
  destruct (Py.mem x (map ref_uri (ranges info1))); [apply H1|].
  intros H. apply In_set in H. destruct H as [[-> ->]|H]; [|now apply H1].
  apply get_In in Hg. apply H1 in Hg. destruct Hg as [Huri Hranges].
  split; [exact Huri|]. simpl. intros rf Hrf.
  apply in_app_or in Hrf. destruct Hrf as [Hrf|[<-|[]]]; [now apply Hranges|].
  exists r. simpl. repeat split; auto.
  apply andb_true_iff in Hguard. destruct Hguard as [_ Hb].
  now apply negb_true_iff.
Qed.

Lemma domain_fold_ranges (rows : list Row) (c : string) (rs : list Row) :
  incl rs rows ->
  forall props,
    (forall k info, In (k, info) props -> ranges_from_rows rows k info) ->
    forall k info, In (k, info) (fold_left (domain_row c) rs props) ->
                   ranges_from_rows rows k info.
Proof.
  induction rs as [|r rs IH]; simpl; intros Hincl props Hprops; [assumption|].
  apply IH.
  - intros x Hx. apply Hincl. now right.
  - apply domain_row_ranges; [apply Hincl; now left | assumption].
Qed.

(** The head of an enumeration on a range of [p] has a row in the query of
    [_resolve_blank_node_range]. *)
Lemma blank_range_row (g : Graph) (p : string) (range lst m : Term) :
  In (mkTriple (NamedNode p) RDFS_RANGE range) g ->
  In (mkTriple range OWL_ONE_OF lst) g ->
  In m (objects g lst RDF_FIRST) ->
  isBlank m = false ->
  exists row, In row (blank_range_rows g p) /\
              Py.get row "member" = Some (render m).
Proof.
  intros Hrange Hlist Hm Hblank.
  destruct (optional_inhabited (objects g m RDFS_LABEL)) as [lbl Hl].
  exists (to_row [("member", Some m); ("memberLabel", lbl)]).
  split; [|reflexivity].
  unfold blank_range_rows. apply in_map. unfold blank_range_solutions.
  apply in_flat_map. exists range. split; [now apply objects_In|].
  apply in_flat_map. exists lst. split; [now apply objects_In|].
  apply in_flat_map. exists m. split.
  - apply filter_In. split; [assumption | now rewrite Hblank].
  - apply in_map_iff. now exists lbl.
Qed.

Lemma resolve_blank_node_range_In (store : Store) (ontology p : string)
      (row : Row) (x : string) :
  In row (store (QBlankRange ontology p)) ->
  Py.get row "member" = Some x -> x <> "" ->
  In x (map ref_uri (_resolve_blank_node_range store ontology p)).
Proof.
  intros Hrow Hx Hne. apply in_map_iff.
  exists (mkRef x (Py.or_else (Py.get row "memberLabel") (_extract_local_name x))).
  split; [reflexivity|]. unfold _resolve_blank_node_range.
  apply in_flat_map. exists row. split; [assumption|].
  rewrite Hx. apply String.eqb_neq in Hne. rewrite Hne. now left.
Qed.

(** C4, what the code does resolve: for a property of [domain_of] that
    declares no concrete range, the concrete head (the [rdf:first] of the
    list node that [owl:oneOf] points to) of each enumeration on a
    blank-node range is returned as a range of the property. *)
Theorem oneof_head_resolved (store : Store) (ontology : string) (g : Graph)
        (class_uri : string) :
  answers store ontology g ->
  oneof_ranges_resolved head_member store ontology g class_uri.
Proof.
  intros (Hdomain & _ & Hblank & _) info range lst m Hinfo Hnone Hrange Hlist Hm Hconc.
  unfold get_class_properties in Hinfo. simpl in Hinfo.
  apply sorted_In in Hinfo. apply In_values in Hinfo. destruct Hinfo as [k Hinfo].
  unfold _get_properties_for_class in Hinfo.
  apply in_map_iff in Hinfo. destruct Hinfo as ([k0 info0] & Hres & Hin0).
  pose proof (domain_fold_ranges (store (QDomain ontology class_uri)) class_uri
                (store (QDomain ontology class_uri)) (incl_refl _) []
                (fun k info (H : In (k, info) []) => match H with end)
                k0 info0 Hin0) as [Huri0 Hranges0].
  unfold concrete in Hconc. apply andb_true_iff in Hconc.
  destruct Hconc as [Hnb Hne].
  apply negb_true_iff in Hnb. apply negb_true_iff, String.eqb_neq in Hne.
  assert (Hp : prop_uri info = k0).
  { unfold resolve_blank_ranges in Hres.
    destruct (ranges info0); [destruct (_resolve_blank_node_range store ontology k0)|];
      injection Hres as <- <-; assumption. }
  rewrite Hp in *.
  assert (Hempty : ranges info0 = []).
  { destruct (ranges info0) as [|rf rest] eqn:E; [reflexivity|]. exfalso.
    destruct (Hranges0 rf (or_introl eq_refl)) as (row & Hrow & Hk & Hx & Hnb').
    rewrite Hdomain in Hrow.
    destruct (domain_rows_range g class_uri row k0 (ref_uri rf) Hrow Hk Hx)
      as (s & o & Hs & Ht & Ho).
    pose proof (blank_rendered o (Hnone s o Hs Ht)) as Hb.
    rewrite Ho in Hb. congruence. }
  destruct (blank_range_row g k0 range lst m Hrange Hlist Hm Hnb) as (row & Hrow & Hmem).
  rewrite <- Hblank in Hrow.
  pose proof (resolve_blank_node_range_In store ontology k0 row (render m)
                Hrow Hmem Hne) as Hres_in.
  unfold resolve_blank_ranges in Hres. rewrite Hempty in Hres.
  destruct (_resolve_blank_node_range store ontology k0) as [|rf rest] eqn:E;
    [contradiction|].
  injection Hres as <- <-. simpl. rewrite Hempty. exact Hres_in.
Qed.

Lemma texture_answers :
  answers Sample.texture_store "urn:soil" Sample.texture.
Proof. repeat split. Qed.

Lemma texture_no_concrete_range :
  no_concrete_range Sample.texture (prop_uri Sample.texture_info).
Proof.
  intros s o _ Hin. vm_compute in Hin.
  repeat (destruct Hin as [Hin|Hin]; [inversion Hin; subst; reflexivity|]).
  contradiction.
Qed.

Lemma oneof_head_resolved_witness :
  In "http://example.org/soil#Clay" (map ref_uri (ranges Sample.texture_info)).
Proof.
  refine (oneof_head_resolved Sample.texture_store "urn:soil" Sample.texture
            Sample.layer_uri texture_answers Sample.texture_info
            (BlankNode "range") (BlankNode "l1") (Sample.ex "Clay")
            _ texture_no_concrete_range _ _ _ _).
  - in_list.
  - in_list.
  - in_list.
  - in_list.
  - reflexivity.
Defined.

(** C4, a defect of the code, on the failing input: [Sand] is the second
    member of the enumeration on the range of [hasTexture], which declares
    no concrete range, and [Clay] alone is returned as its range.  The
    query of [_resolve_blank_node_range] matches [rdf:first] of the list
    node only and never follows [rdf:rest], while the function is to return
    the values in the list. *)
Lemma oneof_every_member_counterexample :
  answers Sample.texture_store "urn:soil" Sample.texture /\
  In (Sample.ex "Sand") (every_member Sample.texture (BlankNode "l1")) /\
  map ref_uri
      (flat_map ranges
         (domain_of (get_class_properties Sample.texture_store "urn:soil"
                                          Sample.layer_uri)))
  = ["http://example.org/soil#Clay"] /\
  ~ oneof_ranges_resolved every_member Sample.texture_store "urn:soil"
      Sample.texture Sample.layer_uri.
Proof.
  split; [exact texture_answers|].
  split; [in_list|]. split; [reflexivity|].
  intros H.
  specialize (H Sample.texture_info (BlankNode "range") (BlankNode "l1")
                (Sample.ex "Sand")).
  assert (Hin : In (render (Sample.ex "Sand"))
                   (map ref_uri (ranges Sample.texture_info))).
  { apply H.
    - in_list.
    - exact texture_no_concrete_range.
    - in_list.
    - in_list.
    - in_list.
    - reflexivity. }
  vm_compute in Hin. destruct Hin as [Hin|[]]. discriminate Hin.
Qed.

End BlankRangeFacts.

(** * Further properties of the hierarchy builder *)

(** The entries after one row, with the row they come from: an entry is
    old, or fresh for the class of the row, or an entry for that class with
    the parent of the row appended, which it did not list before. *)
Lemma build_row_entries (I : list string) (st : BuildState) (row : Row)
      (k : string) (n : HierarchyNode) :
  In (k, n) (nodes (build_row I st row)) ->
  In (k, n) (nodes st) \/
  (Py.get row "class" = Some k /\ k <> "" /\
   ((Py.get (nodes st) k = None /\
     n = mkHierarchyNode k
           (Py.or_else (Py.get row "label") (_extract_local_name k))
           (Py.get row "prefixIRI") "Class" []
           (uri_is_external I k) (row_is_deprecated row)) \/
    (exists n0 p,
        (In (k, n0) (nodes st) \/
         (Py.get (nodes st) k = None /\
          n0 = mkHierarchyNode k
                 (Py.or_else (Py.get row "label") (_extract_local_name k))
                 (Py.get row "prefixIRI") "Class" []
                 (uri_is_external I k) (row_is_deprecated row))) /\
        Py.get row "parent" = Some p /\ keep_parent p = true /\
        Py.mem p (parent_uris n0) = false /\
        n = add_parent n0 p))).
Proof.
  unfold build_row.
  destruct (Py.get row "class") as [c|] eqn:Hc; [|now left].
  destruct (String.eqb_spec c "") as [->|Hne]; [now left|].
  set (mk := fun u => mkHierarchyNode u
                 (Py.or_else (Py.get row "label") (_extract_local_name u))
                 (Py.get row "prefixIRI") "Class" []
                 (uri_is_external I u) (row_is_deprecated row)).
  change (mkHierarchyNode c _ _ _ _ _ _) with (mk c).
  change (mkHierarchyNode k _ _ _ _ _ _) with (mk k).
  assert (Hn1 : forall k n,
             In (k, n) (if Py.contains (nodes st) c then nodes st
                        else Py.set (nodes st) c (mk c)) ->
             In (k, n) (nodes st) \/
             (k = c /\ Py.get (nodes st) c = None /\ n = mk c)).
  { intros k0 n0. unfold Py.contains.
    destruct (Py.get (nodes st) c) eqn:Hg; [now left|].
    intros H. apply In_set in H. destruct H as [[-> ->]|H]; [|now left].
    right. auto. }
  assert (Hold : forall k n,
             In (k, n) (if Py.contains (nodes st) c then nodes st
                        else Py.set (nodes st) c (mk c)) ->
             In (k, n) (nodes st) \/
             (Some c = Some k /\ k <> "" /\
              ((Py.get (nodes st) k = None /\ n = mk k) \/
               (exists n0 p,
                   (In (k, n0) (nodes st) \/
                    (Py.get (nodes st) k = None /\ n0 = mk k)) /\
                   Py.get row "parent" = Some p /\ keep_parent p = true /\
                   Py.mem p (parent_uris n0) = false /\
                   n = add_parent n0 p)))).
  { intros k0 n0 H. apply Hn1 in H.
    destruct H as [H|(-> & Hg & ->)]; [now left|].
    right. repeat split; auto. }
  destruct (Py.get row "parent") as [p|] eqn:Hp; simpl; [|apply Hold].
  destruct (keep_parent p) eqn:Hk; simpl; [|apply Hold].
  match goal with |- In _ (match ?g with _ => _ end) -> _ =>
    destruct g as [n1|] eqn:Hg1 end; [|apply Hold].
  destruct (Py.mem p (parent_uris n1)) eqn:Hm; [apply Hold|].
  intros H. apply In_set in H. destruct H as [[-> ->]|H]; [|now apply Hold].
  right. repeat split; auto. right. exists n1, p.
  repeat split; auto.
  apply get_In in Hg1. apply Hn1 in Hg1.
  destruct Hg1 as [H|(_ & Hnone & ->)]; [now left | right; auto].
Qed.

(** Invariance over the rows: a property that the fresh node of a row has,
    and that is kept when the parent of a row is appended to a node that
    did not list it, holds of every node. *)
Section RowInvariance.
Variable I : list string.
Variable rows : list Row.
Variable P : string -> HierarchyNode -> Prop.
Hypothesis P_fresh : forall row k,
    In row rows -> Py.get row "class" = Some k -> k <> "" ->
    P k (mkHierarchyNode k
           (Py.or_else (Py.get row "label") (_extract_local_name k))
           (Py.get row "prefixIRI") "Class" []
           (uri_is_external I k) (row_is_deprecated row)).
Hypothesis P_add : forall row k n p,
    In row rows -> Py.get row "class" = Some k ->
    Py.get row "parent" = Some p -> keep_parent p = true ->
    Py.mem p (parent_uris n) = false ->
    P k n -> P k (add_parent n p).

Lemma fold_build_rows (rs : list Row) :
  incl rs rows ->
  forall st, (forall k n, In (k, n) (nodes st) -> P k n) ->
  forall k n, In (k, n) (nodes (fold_left (build_row I) rs st)) -> P k n.
Proof.
  induction rs as [|row rs IH]; simpl; intros Hincl st Hst; [assumption|].
  apply IH; [intros x Hx; apply Hincl; now right|].
  assert (Hrow : In row rows) by (apply Hincl; now left).
  intros k n H. apply build_row_entries in H.
  destruct H as [H|(Hc & Hne & [(_ & ->)|(n0 & p & Hn0 & Hp & Hk & Hm & ->)])].
  - now apply Hst.
  - now apply (P_fresh row).
  - apply (P_add row); auto.
    destruct Hn0 as [Hn0|(_ & ->)]; [now apply Hst | now apply (P_fresh row)].
Qed.

Lemma build_rows (k : string) (n : HierarchyNode) :
  In (k, n) (nodes (build I rows)) -> P k n.
Proof.
  unfold build. apply fold_build_rows; [apply incl_refl|]. simpl. tauto.
Qed.
End RowInvariance.

(** The nodes returned, with the entries of the main loop they come
    from. *)
Lemma hierarchy_output_entry (store : Store) (ontology : string) (n : HierarchyNode) :
  In n (get_class_hierarchy store ontology) ->
  exists n0,
    In (node_uri n, n0) (nodes (hierarchy_state store ontology)) /\
    node_uri n0 = node_uri n /\
    node_label n0 = node_label n /\
    parent_uris n0 = parent_uris n /\
    is_deprecated n0 = is_deprecated n /\
    (show_deprecated (_get_ontology_config store ontology) = false ->
     is_deprecated n = false).
Proof.
  intros Hn.
  assert (Hdep : show_deprecated (_get_ontology_config store ontology) = false ->
                 is_deprecated n = false).
  { intros Hshow. unfold get_class_hierarchy in Hn. rewrite sorted_In in Hn.
    rewrite Hshow in Hn. apply filter_In in Hn. destruct Hn as [_ Hn].
    now apply negb_true_iff. }
  apply hierarchy_output in Hn. destruct Hn as [k Hk].
  unfold promote in Hk. apply in_map_iff in Hk.
  destruct Hk as ([k0 n0] & Heq & Hin).
  pose proof (build_node_ok _ _ _ _ Hin) as (Huri & _).
  destruct (promote_node_cases (hierarchy_internal_namespaces store ontology)
              (hierarchy_state store ontology) k0 n0) as [E|[_ E]];
    rewrite E in Heq; injection Heq as <- <-; exists n0; simpl;
    rewrite Huri; repeat split; auto.
Qed.

(** X1: one node per class.  The URIs of the nodes returned are pairwise
    distinct, however many rows the query returns for a class. *)
Theorem hierarchy_uris_distinct (store : Store) (ontology : string) :
  NoDup (map node_uri (get_class_hierarchy store ontology)).
Proof.
  unfold get_class_hierarchy.
  set (I := hierarchy_internal_namespaces store ontology).
  set (st := hierarchy_state store ontology).
  assert (Hall : NoDup (map node_uri (Py.values (promote I st)))).
  { assert (Heq : map node_uri (Py.values (promote I st)) = Py.keys (nodes st)).
    { unfold Py.values, Py.keys, promote. rewrite !map_map.
      apply map_ext_in. intros [k n] Hin.
      pose proof (build_node_ok _ _ _ _ Hin) as (Huri & _).
      destruct (promote_node_cases I st k n) as [E|[_ E]]; rewrite E; simpl;
        assumption. }
    rewrite Heq. apply build_keys. }
  eapply Permutation_NoDup.
  - apply Permutation_map. symmetry. apply sorted_perm.
  - destruct (show_deprecated (_get_ontology_config store ontology));
      [exact Hall|].
    revert Hall. generalize (Py.values (promote I st)).
    induction l as [|x l IH]; simpl; intros Hnd; [constructor|].
    inversion Hnd as [|? ? Hnotin Hnd']; subst.
    destruct (negb (is_deprecated x)); simpl; [|now apply IH].
    constructor; [|now apply IH].
    intros Hin. apply Hnotin. apply in_map_iff in Hin.
    destruct Hin as (y & Hy & Hin). apply filter_In in Hin.
    apply in_map_iff. exists y. tauto.
Qed.

(** X2: no parent is listed twice on a node. *)
Theorem hierarchy_parents_distinct (store : Store) (ontology : string) :
  Forall (fun n => NoDup (parent_uris n)) (get_class_hierarchy store ontology).
Proof.
  apply Forall_forall. intros n Hn.
  destruct (hierarchy_output_entry _ _ _ Hn) as (n0 & Hin & _ & _ & Hpar & _).
  rewrite <- Hpar. revert Hin. unfold hierarchy_state.
  apply (build_rows (hierarchy_internal_namespaces store ontology)
           (hierarchy_class_data store ontology)
           (fun _ n => NoDup (parent_uris n))).
  - intros. simpl. constructor.
  - intros row k n1 p _ _ _ _ Hm Hnd. simpl.
    apply NoDup_app; [assumption | repeat constructor; simpl; tauto |].
    intros x Hx [<-|[]]. apply mem_not_In in Hm. contradiction.
Qed.

(** X3: every node returned is for a named class: its URI is not empty, is
    not a blank node and is not an excluded root. *)
Theorem hierarchy_nodes_named (store : Store) (ontology : string) :
  Forall (fun n => node_uri n <> "" /\
                   Py.startswith (node_uri n) "_:" = false /\
                   ~ In (node_uri n) EXCLUDED_CLASSES)
         (get_class_hierarchy store ontology).
Proof.
  apply Forall_forall. intros n Hn.
  destruct (hierarchy_node_stored _ _ _ Hn) as (n0 & _ & Hok & _).
  destruct Hok as (_ & Hnamed & _). unfold named_class in Hnamed.
  apply andb_true_iff in Hnamed. destruct Hnamed as [Hnamed Hexcl].
  apply andb_true_iff in Hnamed. destruct Hnamed as [Hne Hblank].
  split; [|split].
  - apply negb_true_iff in Hne. now apply String.eqb_neq.
  - now apply negb_true_iff.
  - apply mem_not_In. now apply negb_true_iff.
Qed.

(** X4: every parent listed on a node was returned as a parent of that class
    by the bulk query. *)
Theorem hierarchy_parents_from_rows (store : Store) (ontology : string)
        (n : HierarchyNode) (p : string) :
  In n (get_class_hierarchy store ontology) ->
  In p (parent_uris n) ->
  exists row, In row (store (QHierarchy ontology)) /\
              Py.get row "class" = Some (node_uri n) /\
              Py.get row "parent" = Some p.
Proof.
  intros Hn Hp.
  destruct (hierarchy_output_entry _ _ _ Hn) as (n0 & Hin & _ & _ & Hpar & _).
  rewrite <- Hpar in Hp. revert p Hp. revert Hin. unfold hierarchy_state.
  apply (build_rows (hierarchy_internal_namespaces store ontology)
           (hierarchy_class_data store ontology)
           (fun k n => forall p, In p (parent_uris n) ->
              exists row, In row (store (QHierarchy ontology)) /\
                          Py.get row "class" = Some k /\
                          Py.get row "parent" = Some p)).
  - intros row k _ _ _ p []. 
  - intros row k n1 p Hrow Hc Hparent _ _ IH q Hq. simpl in Hq.
    apply in_app_or in Hq. destruct Hq as [Hq|[<-|[]]]; [now apply IH|].
    exists row. split; [|now split].
    unfold hierarchy_class_data in Hrow. apply filter_In in Hrow. tauto.
Qed.

Lemma hierarchy_parents_from_rows_witness :
  exists row, In row (Sample.soil_store (QHierarchy "urn:soil")) /\
              Py.get row "class" = Some Sample.feature_uri /\
              Py.get row "parent" = Some Sample.feature_uri.
Proof.
  apply (hierarchy_parents_from_rows Sample.soil_store "urn:soil"
           Sample.feature_node Sample.feature_uri).
  - in_list.
  - now left.
Defined.

(** ** Ancestor promotion finds what it reports *)

Section PromotionSound.
Variable I : list string.
Variable st : BuildState.

Lemma for_children_true
      (rec : string -> list string -> option (bool * list string)) :
  (forall c v v', rec c v = Some (true, v') ->
     exists d, descendant (children_map st) c d /\ uri_is_external I d = false) ->
  forall cs v v',
    for_children I st rec cs v = Some (true, v') ->
    exists c, In c cs /\
      (uri_is_external I c = false \/
       exists d, descendant (children_map st) c d /\ uri_is_external I d = false).
Proof.
  intros Hrec. induction cs as [|c cs IH]; simpl; intros v v' H; [discriminate|].
  destruct (Py.get (nodes st) c) as [n|].
  - destruct (uri_is_external I c) eqn:He; simpl in H.
    + destruct (rec c v) as [[[|] v1]|] eqn:Hr; try discriminate.
      * exists c. split; [now left|]. right. eapply Hrec; eassumption.
      * destruct (IH _ _ H) as (c' & Hin & Hc'). exists c'. split; [now right|assumption].
    + exists c. split; [now left | now left].
  - destruct (IH _ _ H) as (c' & Hin & Hc'). exists c'. split; [now right|assumption].
Qed.

(** The search is sound: when it answers yes from [u], some descendant of
    [u] has an internal namespace. *)
Lemma has_internal_descendant_true (fuel : nat) :
  forall u v v',
    has_internal_descendant I fuel st u v = Some (true, v') ->
    exists d, descendant (children_map st) u d /\ uri_is_external I d = false.
Proof.
  induction fuel as [|fuel IH]; intros u v v' H; [discriminate|].
  simpl in H. destruct (Py.mem u v); [discriminate|].
  apply (for_children_true _ IH) in H.
  destruct H as (c & Hin & [Hc|(d & Hd & Hint)]).
  - exists c. split; [now apply descendant_child | assumption].
  - exists d. split; [eapply descendant_step; eassumption | assumption].
Qed.

(** An entry whose flag the pass cleared had the flag set, and the search
    from it answered yes. *)
Lemma promote_cleared (k : string) (n' : HierarchyNode) :
  In (k, n') (promote I st) -> is_external n' = false ->
  exists n, In (k, n) (nodes st) /\
            (is_external n = false \/
             exists v, has_internal_descendant I (promotion_fuel st) st k []
                       = Some (true, v)).
Proof.
  unfold promote. rewrite in_map_iff. intros [[k0 n] [Heq Hin]] He.
  unfold promote_node in Heq. destruct (is_external n) eqn:Hn.
  - destruct (has_internal_descendant I (promotion_fuel st) st k0 [])
      as [[[|] v]|] eqn:Hs; injection Heq as <- <-.
    + exists n. split; [assumption|]. right. now exists v.
    + congruence.
    + congruence.
  - injection Heq as <- <-. exists n. split; [assumption | now left].
Qed.

End PromotionSound.

(** X5: promotion is justified.  A node of an external namespace that is
    returned with [is_external = false] has a descendant in an internal
    namespace. *)
Theorem promoted_has_internal_descendant (store : Store) (ontology : string)
        (n : HierarchyNode) :
  In n (get_class_hierarchy store ontology) ->
  uri_is_external (hierarchy_internal_namespaces store ontology) (node_uri n) = true ->
  is_external n = false ->
  exists d,
    descendant (children_map (hierarchy_state store ontology)) (node_uri n) d /\
    uri_is_external (hierarchy_internal_namespaces store ontology) d = false.
Proof.
  intros Hn Hns Hflag.
  apply hierarchy_output in Hn. destruct Hn as [k Hk].
  pose proof (promote_fields _ _ _ _ Hk) as (n1 & Hin1 & Huri1 & _).
  pose proof (build_node_ok _ _ _ _ Hin1) as (Hk1 & _).
  assert (Hkn : node_uri n = k) by congruence. subst k.
  destruct (promote_cleared _ _ _ _ Hk Hflag) as (n0 & Hin & [Hfalse|[v Hsearch]]).
  - pose proof (build_node_ok _ _ _ _ Hin) as (_ & _ & _ & Hext). congruence.
  - rewrite Hkn. eapply has_internal_descendant_true. exact Hsearch.
Qed.

Lemma promoted_has_internal_descendant_witness :
  exists d,
    descendant (children_map (hierarchy_state Sample.soil_store "urn:soil"))
               Sample.sample_uri d /\
    uri_is_external (hierarchy_internal_namespaces Sample.soil_store "urn:soil") d
    = false.
Proof.
  apply (promoted_has_internal_descendant Sample.soil_store "urn:soil"
           Sample.sample_node).
  - in_list.
  - vm_compute. reflexivity.
  - reflexivity.
Defined.

(** ** Every class gets its node *)

Lemma build_row_node_created (I : list string) (st : BuildState) (row : Row)
      (c : string) :
  Py.get row "class" = Some c -> c <> "" ->
  exists n, In (c, n) (nodes (build_row I st row)).
Proof.
  intros Hc Hne.
  assert (Hex : exists n, Py.get (nodes (build_row I st row)) c = Some n).
  { unfold build_row. rewrite Hc. apply String.eqb_neq in Hne. rewrite Hne.
    set (fresh := mkHierarchyNode c _ _ _ _ _ _).
    destruct (ensure_get (nodes st) c fresh) as [Hex _].
    destruct (Py.get row "parent") as [p|]; simpl; [|exact Hex].
    destruct (keep_parent p); simpl; [|exact Hex].
    destruct (link_parent_get _ c p Hex) as [(n & Hn & _) _]. eauto. }
  destruct Hex as [n Hn]. exists n. now apply get_In.
Qed.

Lemma fold_build_node_created (I : list string) (rows : list Row) (row : Row)
      (c : string) :
  In row rows -> Py.get row "class" = Some c -> c <> "" ->
  forall st, exists n, Py.get (nodes (fold_left (build_row I) rows st)) c = Some n.
Proof.
  intros Hin Hc Hne. induction rows as [|r rows IH]; [contradiction|].
  intros st. simpl. destruct Hin as [->|Hin]; [|now apply IH].
  destruct (build_row_node_created I st row c Hc Hne) as [n Hn].
  destruct (In_get _ _ _ Hn) as [n' Hn'].
  revert n' Hn'. generalize (build_row I st row). clear.
  induction rows as [|r rows IH]; simpl; intros st n' Hn'; [eauto|].
  destruct (build_row_node_kept I st r c n' Hn') as (n2 & Hn2 & _).
  eapply IH. exact Hn2.
Qed.

(** A class that a row of the bulk query names, and that the first pass
    keeps, has a node in the list built, provided deprecated classes are
    shown or no row of the class says it is deprecated. *)
Lemma class_in_hierarchy (store : Store) (ontology : string) (row : Row)
      (c : string) :
  In row (store (QHierarchy ontology)) ->
  Py.get row "class" = Some c ->
  named_class c = true ->
  (show_deprecated (_get_ontology_config store ontology) = true \/
   forall r, In r (store (QHierarchy ontology)) ->
             Py.get r "class" = Some c -> row_is_deprecated r = false) ->
  exists n, In n (get_class_hierarchy store ontology) /\ node_uri n = c.
Proof.
  intros Hrow Hc Hnamed Hshown.
  set (I := hierarchy_internal_namespaces store ontology).
  assert (Hdata : In row (hierarchy_class_data store ontology)).
  { apply filter_In. split; [assumption|]. unfold keep_class_row. now rewrite Hc. }
  destruct (fold_build_node_created I _ row c Hdata Hc
              (named_class_nonempty c Hnamed) (mkBuildState [] [] []))
    as [n0 Hn0].
  fold (build I (hierarchy_class_data store ontology)) in Hn0.
  fold (hierarchy_state store ontology) in Hn0.
  apply get_In in Hn0.
  pose proof (build_node_ok _ _ _ _ Hn0) as (Huri & _).
  assert (Hdep : show_deprecated (_get_ontology_config store ontology) = false ->
                 is_deprecated n0 = false).
  { intros Hshow. destruct Hshown as [Hs|Hnone]; [congruence|].
    unfold hierarchy_state in Hn0.
    refine (build_rows I (hierarchy_class_data store ontology)
              (fun k n => k = c -> is_deprecated n = false) _ _ c n0 Hn0 eq_refl).
    - intros r k Hr Hk _ ->. simpl. apply Hnone; [|assumption].
      apply filter_In in Hr. tauto.
    - intros r k n1 p _ _ _ _ _ IH Hk. simpl. now apply IH. }
  exists (snd (promote_node I (hierarchy_state store ontology) (c, n0))).
  split.
  - unfold get_class_hierarchy. apply sorted_In.
    fold I.
    assert (Hin : In (snd (promote_node I (hierarchy_state store ontology) (c, n0)))
                     (Py.values (promote I (hierarchy_state store ontology)))).
    { unfold Py.values, promote. rewrite map_map. apply in_map_iff.
      exists (c, n0). split; [reflexivity | assumption]. }
    destruct (show_deprecated (_get_ontology_config store ontology)) eqn:Hshow;
      [assumption|].
    apply filter_In. split; [assumption|].
    destruct (promote_node_cases I (hierarchy_state store ontology) c n0)
      as [E|[_ E]]; rewrite E; simpl; now rewrite Hdep.
  - destruct (promote_node_cases I (hierarchy_state store ontology) c n0)
      as [E|[_ E]]; rewrite E; simpl; assumption.
Qed.

(** ** The promotion pass under the recursion limit *)

(** A search that returns with some depth returns the same with more. *)
Lemma for_children_deeper (I : list string) (st : BuildState)
      (rec rec' : string -> list string -> option (bool * list string)) :
  (forall c v r, rec c v = Some r -> rec' c v = Some r) ->
  forall cs v r,
    for_children I st rec cs v = Some r -> for_children I st rec' cs v = Some r.
Proof.
  intros Hrec. induction cs as [|c cs IH]; simpl; intros v r H; [assumption|].
  destruct (Py.get (nodes st) c) as [n|]; [|now apply IH].
  destruct (negb (uri_is_external I c)); [assumption|].
  destruct (rec c v) as [[[|] v1]|] eqn:Hr; [| |discriminate].
  - now rewrite (Hrec _ _ _ Hr).
  - rewrite (Hrec _ _ _ Hr). now apply IH.
Qed.

Lemma has_internal_descendant_deeper (I : list string) (st : BuildState)
      (fuel : nat) :
  forall fuel' u v r,
    fuel <= fuel' ->
    has_internal_descendant I fuel st u v = Some r ->
    has_internal_descendant I fuel' st u v = Some r.
Proof.
  induction fuel as [|fuel IH]; intros fuel' u v r Hle H; [discriminate|].
  destruct fuel' as [|fuel']; [lia|]. simpl in *.
  destruct (Py.mem u v); [assumption|].
  eapply for_children_deeper; [|exact H].
  intros c v0 r0 Hr. apply IH; [lia | assumption].
Qed.

(** Whatever the limit, a search that returns answers as the search with
    the fuel of the promotion pass does. *)
Lemma has_internal_descendant_within (I : list string) (st : BuildState)
      (limit : nat) (u : string) (found : bool) (v : list string) :
  Py.get (nodes st) u <> None ->
  has_internal_descendant I limit st u [] = Some (found, v) ->
  has_internal_descendant I (promotion_fuel st) st u [] = Some (found, v).
Proof.
  intros Hu H.
  destruct (Nat.le_ge_cases limit (promotion_fuel st)) as [Hle|Hge].
  - now apply (has_internal_descendant_deeper I st limit).
  - destruct (has_internal_descendant_total I st u Hu) as (b & v' & Ht).
    pose proof (has_internal_descendant_deeper I st _ limit u [] _ Hge Ht) as H'.
    congruence.
Qed.

(** When the pass returns, it returns what [promote] computes. *)
Lemma promote_within_agrees (I : list string) (limit : nat) (st : BuildState) :
  forall entries out,
    incl entries (nodes st) ->
    promote_within I limit st entries = Some out ->
    out = map (promote_node I st) entries.
Proof.
  induction entries as [|[uri node] entries IH]; intros out Hincl H.
  - simpl in H. now injection H as <-.
  - assert (Hin : In (uri, node) (nodes st)) by (apply Hincl; now left).
    assert (Hu : Py.get (nodes st) uri <> None).
    { destruct (In_get _ _ _ Hin) as [n' ->]. discriminate. }
    assert (Hrest : incl entries (nodes st)).
    { intros x Hx. apply Hincl. now right. }
    simpl in H. cbn [map]. unfold promote_node at 1.
    destruct (is_external node).
    + destruct (has_internal_descendant I limit st uri []) as [[found v]|] eqn:Hs;
        [|discriminate].
      rewrite (has_internal_descendant_within I st limit uri found v Hu Hs).
      destruct (promote_within I limit st entries) as [out'|]; [|discriminate].
      injection H as <-. rewrite (IH out' Hrest eq_refl).
      destruct found; reflexivity.
    + destruct (promote_within I limit st entries) as [out'|]; [|discriminate].
      injection H as <-. now rewrite (IH out' Hrest eq_refl).
Qed.

(** When [get_class_hierarchy] returns within the recursion limit, it
    returns the list the embedding without limit gives. *)
Lemma hierarchy_within_agrees (limit : nat) (store : Store) (ontology : string)
      (l : list HierarchyNode) :
  get_class_hierarchy_within limit store ontology = Some l ->
  l = get_class_hierarchy store ontology.
Proof.
  unfold get_class_hierarchy_within, get_class_hierarchy. cbv zeta.
  destruct (promote_within (hierarchy_internal_namespaces store ontology) limit
              (hierarchy_state store ontology)
              (nodes (hierarchy_state store ontology))) as [out|] eqn:E;
    [|discriminate].
  intros [= <-].
  now rewrite (promote_within_agrees _ _ _ _ _ (incl_refl _) E).
Qed.

(** A search that has to go one class deeper than the limit allows ends the
    function: for the sample graph, with room for a single call. *)
Lemma hierarchy_within_exhausted :
  get_class_hierarchy_within 1 Sample.soil_store "urn:soil" = None /\
  get_class_hierarchy_within 2 Sample.soil_store "urn:soil"
  = Some (get_class_hierarchy Sample.soil_store "urn:soil").
Proof. split; reflexivity. Qed.

(** X6: no class is lost.  Whenever [get_class_hierarchy] returns (the
    promotion search stays within the recursion limit), a class that a row
    of the bulk query names, and that the first pass keeps, has a node in
    the result, provided deprecated classes are shown or no row of the
    class says it is deprecated. *)
Theorem hierarchy_class_returned (limit : nat) (store : Store) (ontology : string)
        (l : list HierarchyNode) (row : Row) (c : string) :
  get_class_hierarchy_within limit store ontology = Some l ->
  In row (store (QHierarchy ontology)) ->
  Py.get row "class" = Some c ->
  named_class c = true ->
  (show_deprecated (_get_ontology_config store ontology) = true \/
   forall r, In r (store (QHierarchy ontology)) ->
             Py.get r "class" = Some c -> row_is_deprecated r = false) ->
  exists n, In n l /\ node_uri n = c.
Proof.
  intros Hreturns Hrow Hc Hnamed Hshown.
  rewrite (hierarchy_within_agrees limit store ontology l Hreturns).
  now apply (class_in_hierarchy store ontology row c).
Qed.

Lemma hierarchy_class_returned_witness :
  exists n, In n (get_class_hierarchy Sample.soil_store "urn:soil") /\
            node_uri n = Sample.profile_uri.
Proof.
  apply (hierarchy_class_returned 2 Sample.soil_store "urn:soil"
           (get_class_hierarchy Sample.soil_store "urn:soil")
           [("class", Sample.profile_uri); ("parent", Sample.sample_uri)]).
  - reflexivity.
  - in_list.
  - reflexivity.
  - reflexivity.
  - right. intros r Hr _. vm_compute in Hr.
    repeat (destruct Hr as [<-|Hr]; [reflexivity|]). contradiction.
Defined.

(** * Further properties of the property resolver *)

Lemma domain_row_keys (c : string) (props : Py.dict PropertyInfo) (r : Row) :
  NoDup (Py.keys props) -> NoDup (Py.keys (domain_row c props r)).
Proof.
  intros Hnd. unfold domain_row.
  destruct (Py.get r "prop") as [p|]; [|assumption].
  destruct (p =? ""); [assumption|].
  set (fresh := mkPropertyInfo p _ _ _ _).
  assert (H1 : NoDup (Py.keys (if Py.contains props p then props
                               else Py.set props p fresh))).
  { destruct (Py.contains props p); [assumption | now apply NoDup_keys_set]. }
  destruct (Py.get r "range") as [x|]; [|assumption].
  destruct (negb (x =? "") && negb (Py.startswith x "_:")); [|assumption].
  match goal with |- NoDup (Py.keys (match ?g with _ => _ end)) =>
    destruct g as [info1|] end; [|assumption].
  destruct (Py.mem x (map ref_uri (ranges info1)));
    [assumption | now apply NoDup_keys_set].
Qed.

Lemma resolve_blank_ranges_fields (store : Store) (ontology : string)
      (kv : string * PropertyInfo) :
  fst (resolve_blank_ranges store ontology kv) = fst kv /\
  prop_uri (snd (resolve_blank_ranges store ontology kv)) = prop_uri (snd kv) /\
  domains (snd (resolve_blank_ranges store ontology kv)) = domains (snd kv).
Proof.
  destruct kv as [p info]. unfold resolve_blank_ranges.
  destruct (ranges info); [destruct (_resolve_blank_node_range store ontology p)|];
    simpl; auto.
Qed.

Lemma fold_domain_keys (c : string) (rows : list Row) :
  forall props, NoDup (Py.keys props) ->
                NoDup (Py.keys (fold_left (domain_row c) rows props)).
Proof.
  induction rows as [|r rs IH]; simpl; intros d Hd; [assumption|].
  apply IH. now apply domain_row_keys.
Qed.

(** The properties of a class are stored under their own URIs, once
    each. *)
Lemma class_props_keys (store : Store) (ontology class_uri : string) :
  NoDup (Py.keys (_get_properties_for_class store ontology class_uri)) /\
  map prop_uri (Py.values (_get_properties_for_class store ontology class_uri))
  = Py.keys (_get_properties_for_class store ontology class_uri).
Proof.
  unfold _get_properties_for_class.
  set (props := fold_left (domain_row class_uri) _ []).
  assert (Hkeys : Py.keys (map (resolve_blank_ranges store ontology) props)
                  = Py.keys props).
  { unfold Py.keys. rewrite map_map. apply map_ext. intros kv.
    apply resolve_blank_ranges_fields. }
  split.
  - rewrite Hkeys. unfold props. apply fold_domain_keys. constructor.
  - rewrite Hkeys. unfold Py.values, Py.keys. rewrite !map_map.
    apply map_ext_in. intros [k info] Hin.
    destruct (resolve_blank_ranges_fields store ontology (k, info)) as (_ & E & _).
    rewrite E. simpl.
    apply (domain_fold_ranges (store (QDomain ontology class_uri)) class_uri
             (store (QDomain ontology class_uri)) (incl_refl _) []
             (fun k info (H : In (k, info) []) => match H with end) k info Hin).
Qed.

Lemma filter_keys_NoDup {V : Type} (f : string * V -> bool) (d : Py.dict V) :
  NoDup (Py.keys d) -> NoDup (Py.keys (filter f d)).
Proof.
  unfold Py.keys. induction d as [|kv d IH]; simpl; intros Hnd; [constructor|].
  inversion Hnd as [|? ? Hnotin Hnd']; subst.
  destruct (f kv); simpl; [|now apply IH].
  constructor; [|now apply IH].
  intros Hin. apply Hnotin. apply in_map_iff in Hin.
  destruct Hin as (y & Hy & Hin). apply filter_In in Hin.
  apply in_map_iff. exists y. tauto.
Qed.

(** What the loop over the ancestors keeps: the URIs seen are pairwise
    distinct, and they are the URIs seen at the start followed by those the
    groups list. *)
Lemma inherit_fold_seen (store : Store) (ontology : string) (chain : list Ref) :
  forall groups seen seen0,
    NoDup seen ->
    Permutation seen (seen0 ++ inherited_uris groups) ->
    NoDup (snd (fold_left (inherit_from store ontology) chain (groups, seen))) /\
    Permutation
      (snd (fold_left (inherit_from store ontology) chain (groups, seen)))
      (seen0 ++ inherited_uris
                  (fst (fold_left (inherit_from store ontology) chain (groups, seen)))).
Proof.
  induction chain as [|ancestor chain IH]; intros groups seen seen0 Hnd Hperm;
    [simpl; now split|].
  cbn [fold_left].
  destruct (inherit_from store ontology (groups, seen) ancestor) as [g1 s1] eqn:E.
  apply IH; unfold inherit_from in E;
    destruct (class_props_keys store ontology (ref_uri ancestor)) as [Hkeys Huris];
    set (props := _get_properties_for_class store ontology (ref_uri ancestor)) in *;
    set (f := fun kv : string * PropertyInfo => negb (Py.mem (fst kv) seen)) in *;
    destruct (filter f props) as [|kv new_props] eqn:Hnew;
    injection E as <- <-; try assumption.
  - change (fst kv :: Py.keys new_props) with (Py.keys (kv :: new_props)).
    rewrite <- Hnew.
    apply NoDup_app; [assumption | now apply filter_keys_NoDup |].
    intros x Hx Hin. unfold Py.keys in Hin. apply in_map_iff in Hin.
    destruct Hin as (y & <- & Hy). apply filter_In in Hy. destruct Hy as [_ Hy].
    unfold f in Hy. apply negb_true_iff, mem_not_In in Hy. contradiction.
  - change (fst kv :: Py.keys new_props) with (Py.keys (kv :: new_props)).
    change (Py.insert prop_key (snd kv) (Py.sorted prop_key (Py.values new_props)))
      with (Py.sorted prop_key (Py.values (kv :: new_props))).
    rewrite <- Hnew.
    assert (Hnewkeys : map prop_uri (Py.values (filter f props))
                       = Py.keys (filter f props)).
    { unfold Py.values, Py.keys in *. rewrite !map_map in *.
      apply map_ext_in. intros x Hx. apply filter_In in Hx. destruct Hx as [Hx _].
      assert (Hall : forall y, In y props -> prop_uri (snd y) = fst y).
      { clear - Huris. induction props as [|z props IH]; simpl; [tauto|].
        simpl in Huris. injection Huris as Hz Hrest.
        intros y [<-|Hy]; auto. }
      now apply Hall. }
    unfold inherited_uris. rewrite flat_map_app. simpl. rewrite app_nil_r.
    rewrite app_assoc. apply Permutation_app; [assumption|].
    rewrite <- Hnewkeys. apply Permutation_map. symmetry. apply sorted_perm.
Qed.

(** X7: a property is listed once.  No property URI occurs twice among
    [domain_of] and the inherited groups: a property a nearer class has
    already shown is left out of the groups of the farther ones. *)
Theorem class_properties_listed_once (store : Store) (ontology class_uri : string) :
  NoDup (map prop_uri (domain_of (get_class_properties store ontology class_uri))
         ++ inherited_uris (inherited (get_class_properties store ontology class_uri))).
Proof.
  unfold get_class_properties. simpl.
  destruct (class_props_keys store ontology class_uri) as [Hkeys Huris].
  set (props := _get_properties_for_class store ontology class_uri) in *.
  destruct (inherit_fold_seen store ontology
              (_get_superclass_chain store ontology class_uri)
              [] (Py.keys props) (Py.keys props) Hkeys) as [Hnd Hperm].
  { simpl. now rewrite app_nil_r. }
  eapply Permutation_NoDup; [|exact Hnd].
  rewrite Hperm. apply Permutation_app; [|reflexivity].
  rewrite <- Huris. apply Permutation_map. symmetry. apply sorted_perm.
Qed.

Lemma subsequence_refl_nil {A : Type} (l : list A) : subsequence [] l.
Proof. induction l; constructor; assumption. Qed.

Lemma inherit_fold_groups (store : Store) (ontology : string) (chain : list Ref) :
  forall groups seen,
  exists new,
    fst (fold_left (inherit_from store ontology) chain (groups, seen))
    = groups ++ new /\
    subsequence (map from_class new) chain /\
    Forall (fun grp => properties grp <> []) new.
Proof.
  induction chain as [|ancestor chain IH]; intros groups seen.
  - exists []. simpl. rewrite app_nil_r. repeat split; constructor.
  - cbn [fold_left].
    destruct (inherit_from store ontology (groups, seen) ancestor) as [g1 s1] eqn:E.
    destruct (IH g1 s1) as (new & Heq & Hsub & Hne). rewrite Heq.
    unfold inherit_from in E.
    destruct (filter _ (_get_properties_for_class store ontology (ref_uri ancestor)))
      as [|kv new_props] eqn:Hnew; injection E as <- <-.
    + exists new. repeat split; [now constructor | assumption].
    + eexists (_ :: new). rewrite <- app_assoc.
      split; [reflexivity|]. split; [simpl; now constructor|].
      constructor; [|assumption]. cbn [properties].
      intros Hempty.
      assert (Hin : In (snd kv) []); [|contradiction].
      rewrite <- Hempty.
      apply (proj2 (sorted_In prop_key (Py.values (kv :: new_props)) (snd kv))).
      now left.
Qed.

(** X8: the inherited groups follow the superclass chain.  Their classes are
    classes of the chain, in the order of the chain (nearest first), and no
    group is empty: an ancestor that adds no property has no group. *)
Theorem inherited_groups_follow_chain (store : Store) (ontology class_uri : string) :
  subsequence
    (map from_class (inherited (get_class_properties store ontology class_uri)))
    (_get_superclass_chain store ontology class_uri) /\
  Forall (fun grp => properties grp <> [])
         (inherited (get_class_properties store ontology class_uri)).
Proof.
  unfold get_class_properties. simpl.
  destruct (inherit_fold_groups store ontology
              (_get_superclass_chain store ontology class_uri) []
              (Py.keys (_get_properties_for_class store ontology class_uri)))
    as (new & Heq & Hsub & Hne).
  rewrite Heq. simpl. now split.
Qed.

(** ** Domains and ranges of the properties returned *)

Section RangeRowInvariance.
Variable class_uri : string.
Variable P : PropertyInfo -> Prop.
Hypothesis P_fresh : forall p lbl ty,
    P (mkPropertyInfo p lbl ty []
                      [mkRef class_uri (_extract_local_name class_uri)]).
Hypothesis P_add : forall info d lbl,
    d <> "" -> Py.startswith d "_:" = false ->
    Py.mem d (map ref_uri (domains info)) = false ->
    P info -> P (add_domain info (mkRef d lbl)).

Lemma range_row_invariant (props : Py.dict PropertyInfo) (r : Row) :
  (forall k info, In (k, info) props -> P info) ->
  forall k info, In (k, info) (range_row class_uri props r) -> P info.
Proof.
  intros Hprops k info. unfold range_row.
  destruct (Py.get r "prop") as [p|] eqn:Hp; [|apply Hprops].
  destruct (p =? ""); [apply Hprops|].
  set (fresh := mkPropertyInfo p _ _ _ _).
  assert (H1 : forall k info,
             In (k, info) (if Py.contains props p then props
                           else Py.set props p fresh) -> P info).
  { intros k0 info0. destruct (Py.contains props p); [apply Hprops|].
    intros H. apply In_set in H. destruct H as [[-> ->]|H]; [apply P_fresh|].
    eapply Hprops; eassumption. }
  destruct (Py.get r "domain") as [x|] eqn:Hx; [|apply H1].
  destruct (negb (x =? "") && negb (Py.startswith x "_:")) eqn:Hguard;
    [|apply H1].
  match goal with |- In _ (match ?g with _ => _ end) -> _ =>
    destruct g as [info1|] eqn:Hg end; [|apply H1].
  destruct (Py.mem x (map ref_uri (domains info1))) eqn:Hm; [apply H1|].
  intros H. apply In_set in H. destruct H as [[-> ->]|H]; [|eapply H1; eassumption].
  apply andb_true_iff in Hguard. destruct Hguard as [Hne Hb].
  apply negb_true_iff in Hne, Hb. apply String.eqb_neq in Hne.
  apply P_add; auto. apply get_In in Hg. eapply H1; eassumption.
Qed.

Lemma range_fold_invariant (rows : list Row) :
  forall props,
    (forall k info, In (k, info) props -> P info) ->
    forall k info, In (k, info) (fold_left (range_row class_uri) rows props) ->
                   P info.
Proof.
  induction rows as [|r rows IH]; simpl; intros props Hprops; [assumption|].
  apply IH. now apply range_row_invariant.
Qed.
End RangeRowInvariance.

(** The entries of the first loop of [_get_properties_for_class] all have
    the class as their one domain. *)
Lemma domain_row_domains (c : string) (props : Py.dict PropertyInfo) (r : Row) :
  (forall k info, In (k, info) props ->
                  domains info = [mkRef c (_extract_local_name c)]) ->
  forall k info, In (k, info) (domain_row c props r) ->
                 domains info = [mkRef c (_extract_local_name c)].
Proof.
  intros Hprops k info. unfold domain_row.
  destruct (Py.get r "prop") as [p|]; [|apply Hprops].
  destruct (p =? ""); [apply Hprops|].
  set (fresh := mkPropertyInfo p _ _ _ _).
  assert (H1 : forall k info,
             In (k, info) (if Py.contains props p then props
                           else Py.set props p fresh) ->
             domains info = [mkRef c (_extract_local_name c)]).
  { intros k0 info0. destruct (Py.contains props p); [apply Hprops|].
    intros H. apply In_set in H. destruct H as [[-> ->]|H]; [reflexivity|].
    eapply Hprops; eassumption. }
  destruct (Py.get r "range") as [x|]; [|apply H1].
  destruct (negb (x =? "") && negb (Py.startswith x "_:")); [|apply H1].
  match goal with |- In _ (match ?g with _ => _ end) -> _ =>
    destruct g as [info1|] eqn:Hg end; [|apply H1].
  destruct (Py.mem x (map ref_uri (ranges info1))); [apply H1|].
  intros H. apply In_set in H. destruct H as [[-> ->]|H]; [|eapply H1; eassumption].
  simpl. apply get_In in Hg. eapply H1; eassumption.
Qed.

(** X9: the class is the one domain of every property of [domain_of] and the
    one range of every property of [range_of]; the domains of a property of
    [range_of] have pairwise distinct URIs, none empty and none a blank
    node. *)
Theorem class_properties_ends (store : Store) (ontology class_uri : string) :
  Forall (fun info =>
            domains info = [mkRef class_uri (_extract_local_name class_uri)])
         (domain_of (get_class_properties store ontology class_uri)) /\
  Forall (fun info =>
            ranges info = [mkRef class_uri (_extract_local_name class_uri)] /\
            NoDup (map ref_uri (domains info)) /\
            Forall (fun d => ref_uri d <> "" /\
                             Py.startswith (ref_uri d) "_:" = false)
                   (domains info))
         (range_of (get_class_properties store ontology class_uri)).
Proof.
  unfold get_class_properties. simpl. split.
  - apply Forall_forall. intros info Hin. apply sorted_In in Hin.
    apply In_values in Hin. destruct Hin as [k Hin].
    unfold _get_properties_for_class in Hin. apply in_map_iff in Hin.
    destruct Hin as ([k0 info0] & Heq & Hin0).
    destruct (resolve_blank_ranges_fields store ontology (k0, info0))
      as (_ & _ & Hdom).
    rewrite Heq in Hdom. simpl in Hdom. rewrite Hdom.
    clear Heq Hdom. revert k0 info0 Hin0.
    assert (H : forall k info, In (k, info) ([] : Py.dict PropertyInfo) ->
                  domains info = [mkRef class_uri (_extract_local_name class_uri)])
      by (simpl; tauto).
    revert H. generalize ([] : Py.dict PropertyInfo).
    induction (store (QDomain ontology class_uri)) as [|r rs IH]; simpl;
      intros d Hd; [assumption|].
    apply IH. now apply domain_row_domains.
  - apply Forall_forall. intros info Hin. apply sorted_In in Hin.
    apply In_values in Hin. destruct Hin as [k Hin]. revert k info Hin.
    apply range_fold_invariant.
    + intros. simpl. repeat split; constructor.
    + intros info d lbl Hne Hb Hm (Hr & Hnd & Hall). simpl.
      split; [assumption|]. split.
      * rewrite map_app. apply NoDup_app; [assumption | repeat constructor; simpl; tauto|].
        intros x Hx [<-|[]]. apply mem_not_In in Hm. contradiction.
      * apply Forall_app. split; [assumption|]. constructor; [|constructor].
        simpl. now split.
    + simpl. tauto.
Qed.

(** * URI helpers *)

Lemma rfind_from_last_index (c : ascii) (s : string) :
  forall i last,
    Py.rfind_from c s i last =
    match last_index c s with
    | Some k => (i + Z.of_nat k)%Z
    | None => last
    end.
Proof.
  induction s as [|a s IH]; intros i last; simpl; [reflexivity|].
  rewrite IH. destruct (last_index c s) as [k|].
  - lia.
  - destruct (Ascii.eqb a c); [lia | reflexivity].
Qed.

Lemma rfind_last_index (s : string) (c : ascii) :
  Py.rfind s c = match last_index c s with
                 | Some k => Z.of_nat k
                 | None => (-1)%Z
                 end.
Proof.
  unfold Py.rfind. rewrite rfind_from_last_index.
  destruct (last_index c s); reflexivity.
Qed.

Lemma last_index_none (c : ascii) (s : string) :
  last_index c s = None -> ~ occurs c s.
Proof.
  unfold occurs. induction s as [|a s IH]; simpl; [tauto|].
  destruct (last_index c s); [discriminate|].
  destruct (Ascii.eqb_spec a c); [discriminate|].
  intros _ [H|H]; [contradiction | now apply IH].
Qed.

Lemma take_drop (n : nat) (s : string) : String.append (Py.take n s) (Py.drop n s) = s.
Proof.
  unfold Py.take. revert n. induction s as [|a s IH]; intros [|n]; simpl;
    try reflexivity.
  now rewrite IH.
Qed.

Lemma take_S (n : nat) (a : ascii) (s : string) :
  Py.take (S n) (String a s) = String a (Py.take n s).
Proof. reflexivity. Qed.

Lemma take_take (n : nat) (s : string) : Py.take n (Py.take n s) = Py.take n s.
Proof.
  revert n. induction s as [|a s IH]; intros [|n]; try reflexivity.
  rewrite !take_S. now rewrite IH.
Qed.

Lemma take_prefix (n : nat) (s : string) : String.prefix (Py.take n s) s = true.
Proof.
  revert n. induction s as [|a s IH]; intros [|n]; try reflexivity.
  rewrite take_S. simpl. destruct (Ascii.ascii_dec a a); [apply IH | contradiction].
Qed.

Lemma prefix_refl (s : string) : String.prefix s s = true.
Proof.
  induction s as [|a s IH]; simpl; [reflexivity|].
  destruct (Ascii.ascii_dec a a); [assumption | contradiction].
Qed.

Lemma occurs_take (c : ascii) (n : nat) (s : string) :
  occurs c (Py.take n s) -> occurs c s.
Proof.
  unfold occurs. revert n. induction s as [|a s IH]; intros [|n]; simpl; try tauto.
  intros [H|H]; [now left | right; eauto].
Qed.

Lemma occurs_drop (c : ascii) (n : nat) (s : string) :
  occurs c (Py.drop n s) -> occurs c s.
Proof.
  unfold occurs. revert s. induction n as [|n IH]; intros [|a s]; simpl; try tauto.
  intros H. right. now apply IH.
Qed.

Lemma drop_drop (n m : nat) (s : string) :
  Py.drop (n + m) s = Py.drop m (Py.drop n s).
Proof.
  revert s. induction n as [|n IH]; intros s; simpl; [reflexivity|].
  destruct s as [|a s]; [destruct m; reflexivity | apply IH].
Qed.

(** After the last occurrence of [c] there is no [c]. *)
Lemma last_index_drop (c : ascii) (s : string) (k : nat) :
  last_index c s = Some k -> ~ occurs c (Py.drop (S k) s).
Proof.
  revert k. induction s as [|a s IH]; intros k; simpl; [discriminate|].
  destruct (last_index c s) as [k'|] eqn:E.
  - intros [= <-]. now apply IH.
  - destruct (Ascii.eqb a c); [|discriminate]. intros [= <-]. simpl.
    now apply last_index_none.
Qed.

Lemma last_index_take (c : ascii) (s : string) (k : nat) :
  last_index c s = Some k -> last_index c (Py.take (S k) s) = Some k.
Proof.
  revert k. induction s as [|a s IH]; intros k; [discriminate|].
  simpl last_index at 1. destruct (last_index c s) as [k'|] eqn:E.
  - intros [= <-]. rewrite take_S. simpl. now rewrite (IH k' eq_refl).
  - destruct (Ascii.eqb a c) eqn:Ea; [|discriminate]. intros [= <-].
    rewrite take_S. destruct s; simpl; now rewrite Ea.
Qed.

Lemma last_index_take_none (c : ascii) (s : string) (n : nat) :
  last_index c s = None -> last_index c (Py.take n s) = None.
Proof.
  intros H. destruct (last_index c (Py.take n s)) as [k|] eqn:E; [|reflexivity].
  exfalso. apply (last_index_none c s H). apply (occurs_take c n).
  clear H. revert E. generalize (Py.take n s). clear. intros s. revert k.
  unfold occurs. induction s as [|a s IH]; intros k; simpl; [discriminate|].
  destruct (last_index c s) as [k'|].
  - intros _. right. now apply (IH k').
  - destruct (Ascii.eqb_spec a c); [now left | discriminate].
Qed.

(** X10: the local name holds no separator.  [_extract_local_name] never
    returns a string with a [/] or a [#] in it. *)
Theorem local_name_has_no_separator (uri : string) :
  ~ occurs "/" (_extract_local_name uri) /\ ~ occurs "#" (_extract_local_name uri).
Proof.
  unfold _extract_local_name. rewrite !rfind_last_index.
  destruct (last_index "#" uri) as [h|] eqn:Eh;
    destruct (last_index "/" uri) as [sl|] eqn:Es.
  - assert (Hidx : (Z.max (Z.of_nat h) (Z.of_nat sl) >=? 0)%Z = true)
      by (apply Z.geb_le; lia).
    rewrite Hidx.
    destruct (Nat.le_ge_cases h sl) as [Hle|Hle].
    + replace (Z.to_nat (Z.max (Z.of_nat h) (Z.of_nat sl) + 1)) with (S h + (sl - h))
        by lia.
      split.
      * replace (S h + (sl - h)) with (S sl) by lia. now apply last_index_drop.
      * rewrite drop_drop. intros H. apply occurs_drop in H.
        now apply (last_index_drop "#" uri h).
    + replace (Z.to_nat (Z.max (Z.of_nat h) (Z.of_nat sl) + 1)) with (S sl + (h - sl))
        by lia.
      split.
      * rewrite drop_drop. intros H. apply occurs_drop in H.
        now apply (last_index_drop "/" uri sl).
      * replace (S sl + (h - sl)) with (S h) by lia. now apply last_index_drop.
  - assert (Hidx : (Z.max (Z.of_nat h) (-1) >=? 0)%Z = true) by (apply Z.geb_le; lia).
    rewrite Hidx.
    replace (Z.to_nat (Z.max (Z.of_nat h) (-1) + 1)) with (S h) by lia.
    split; [|now apply last_index_drop].
    intros H. apply occurs_drop in H. now apply (last_index_none "/" uri).
  - assert (Hidx : (Z.max (-1) (Z.of_nat sl) >=? 0)%Z = true) by (apply Z.geb_le; lia).
    rewrite Hidx.
    replace (Z.to_nat (Z.max (-1) (Z.of_nat sl) + 1)) with (S sl) by lia.
    split; [now apply last_index_drop|].
    intros H. apply occurs_drop in H. now apply (last_index_none "#" uri).
  - simpl. split; now apply last_index_none.
Qed.

(** X11: the namespace of a URI is a prefix of the URI, and it is its own
    namespace: extracting twice gives what extracting once gives. *)
Theorem namespace_is_stable_prefix (uri : string) :
  Py.startswith uri (_extract_namespace uri) = true /\
  _extract_namespace (_extract_namespace uri) = _extract_namespace uri.
Proof.
  unfold Py.startswith.
  assert (Hgeb : forall k, (Z.of_nat k >=? 0)%Z = true)
    by (intros k; apply Z.geb_le; lia).
  assert (Hsucc : forall k, Z.to_nat (Z.of_nat k + 1) = S k) by (intros k; lia).
  destruct (last_index "#" uri) as [h|] eqn:Eh.
  - assert (E : _extract_namespace uri = Py.take (S h) uri).
    { unfold _extract_namespace. now rewrite rfind_last_index, Eh, Hgeb, Hsucc. }
    rewrite E. split; [apply take_prefix|].
    unfold _extract_namespace. rewrite rfind_last_index.
    rewrite (last_index_take _ _ _ Eh), Hgeb, Hsucc. apply take_take.
  - destruct (last_index "/" uri) as [sl|] eqn:Es.
    + assert (E : _extract_namespace uri = Py.take (S sl) uri).
      { unfold _extract_namespace. rewrite !rfind_last_index, Eh, Es.
        simpl (-1 >=? 0)%Z. cbv iota. now rewrite Hgeb, Hsucc. }
      rewrite E. split; [apply take_prefix|].
      unfold _extract_namespace. rewrite !rfind_last_index.
      rewrite (last_index_take_none _ _ _ Eh). simpl (-1 >=? 0)%Z. cbv iota.
      rewrite (last_index_take _ _ _ Es), Hgeb, Hsucc. apply take_take.
    + assert (E : _extract_namespace uri = uri).
      { unfold _extract_namespace. now rewrite !rfind_last_index, Eh, Es. }
      rewrite !E. split; [apply prefix_refl | reflexivity].
Qed.

(** X12: namespace and local name split the URI.  When the URI has a
    separator and no [/] comes after its last [#], the namespace followed by
    the local name is the URI again. *)
Theorem namespace_local_name_split (uri : string) :
  (Py.rfind uri "#" = (-1)%Z /\ (0 <= Py.rfind uri "/")%Z) \/
  (Py.rfind uri "/" < Py.rfind uri "#")%Z ->
  String.append (_extract_namespace uri) (_extract_local_name uri) = uri.
Proof.
  unfold _extract_namespace, _extract_local_name. rewrite !rfind_last_index.
  destruct (last_index "#" uri) as [h|]; destruct (last_index "/" uri) as [sl|];
    intros [[H1 H2]|H]; try lia.
  - replace (Z.of_nat h >=? 0)%Z with true by (symmetry; apply Z.geb_le; lia).
    replace (Z.max (Z.of_nat h) (Z.of_nat sl) >=? 0)%Z with true
      by (symmetry; apply Z.geb_le; lia).
    replace (Z.max (Z.of_nat h) (Z.of_nat sl)) with (Z.of_nat h) by lia.
    apply take_drop.
  - replace (Z.of_nat h >=? 0)%Z with true by (symmetry; apply Z.geb_le; lia).
    replace (Z.max (Z.of_nat h) (-1) >=? 0)%Z with true
      by (symmetry; apply Z.geb_le; lia).
    replace (Z.max (Z.of_nat h) (-1)) with (Z.of_nat h) by lia.
    apply take_drop.
  - simpl (-1 >=? 0)%Z. cbv iota.
    replace (Z.of_nat sl >=? 0)%Z with true by (symmetry; apply Z.geb_le; lia).
    replace (Z.max (-1) (Z.of_nat sl) >=? 0)%Z with true
      by (symmetry; apply Z.geb_le; lia).
    replace (Z.max (-1) (Z.of_nat sl)) with (Z.of_nat sl) by lia.
    apply take_drop.
Qed.

Lemma namespace_local_name_split_witness :
  String.append (_extract_namespace Sample.feature_uri)
                (_extract_local_name Sample.feature_uri)
  = Sample.feature_uri.
Proof.
  apply (namespace_local_name_split Sample.feature_uri).
  right. vm_compute. reflexivity.
Defined.

(** * Namespace classifier *)

Lemma dedup_In (x : string) (xs : list string) : In x (Py.dedup xs) <-> In x xs.
Proof.
  induction xs as [|y xs IH]; simpl; [tauto|].
  destruct (Py.mem y (Py.dedup xs)) eqn:Hm.
  - rewrite IH. split; [now right|].
    intros [<-|H]; [|assumption]. apply IH. now apply mem_In.
  - simpl. rewrite IH. tauto.
Qed.

Lemma filter_none {A : Type} (f : A -> bool) (l : list A) :
  (forall x, In x l -> f x = false) -> filter f l = [].
Proof.
  induction l as [|x l IH]; simpl; intros H; [reflexivity|].
  rewrite (H x (or_introl eq_refl)). apply IH. intros y Hy. apply H. now right.
Qed.

Lemma count_namespace (ns : string) (class_uris : list string) :
  List.length (filter (String.eqb ns) (map _extract_namespace class_uris)) =
  List.length (filter (fun u => _extract_namespace u =? ns) class_uris).
Proof.
  induction class_uris as [|u us IH]; simpl; [reflexivity|].
  rewrite (String.eqb_sym ns). destruct (_extract_namespace u =? ns); simpl;
    now rewrite IH.
Qed.

(** Fewer than three classes: no namespace reaches the minimum count. *)
Lemma no_major_below_three (class_uris : list string) :
  List.length class_uris < 3 ->
  filter (fun ns =>
            (Nat.max 3 (List.length class_uris / 20) <=?
             List.length (filter (String.eqb ns)
                                 (map _extract_namespace class_uris)))%nat)
         (Py.dedup (map _extract_namespace class_uris)) = [].
Proof.
  intros Hlen. apply filter_none. intros ns _. apply Nat.leb_gt.
  pose proof (filter_length_le (String.eqb ns) (map _extract_namespace class_uris))
    as Hle.
  rewrite length_map in Hle. lia.
Qed.

(** X13: with fewer than three classes nothing is detected as internal. *)
Theorem few_classes_no_internal_namespace (class_uris : list string) :
  List.length class_uris < 3 ->
  _detect_internal_namespaces class_uris = [].
Proof.
  intros Hlen. unfold _detect_internal_namespaces.
  destruct class_uris as [|u us] eqn:E; [reflexivity|]. rewrite <- E in *.
  cbv zeta. rewrite (no_major_below_three _ Hlen). simpl.
  apply filter_none. reflexivity.
Qed.

Lemma few_classes_no_internal_namespace_witness :
  _detect_internal_namespaces [Sample.feature_uri; Sample.profile_uri] = [].
Proof.
  apply few_classes_no_internal_namespace. simpl. lia.
Defined.

(** X14: the classifier invents no namespace.  Every namespace it returns is
    the namespace of one of the class URIs it was given. *)
Theorem internal_namespaces_from_classes (class_uris : list string) :
  Forall (fun ns => exists uri, In uri class_uris /\ _extract_namespace uri = ns)
         (_detect_internal_namespaces class_uris).
Proof.
  apply Forall_forall. intros ns. unfold _detect_internal_namespaces.
  destruct class_uris as [|u us] eqn:E; [contradiction|]. rewrite <- E. clear E.
  cbv zeta. intros Hin.
  assert (Hkey : In ns (Py.dedup (map _extract_namespace class_uris))).
  { apply in_app_or in Hin. destruct Hin as [Hin|Hin];
      apply filter_In in Hin; tauto. }
  apply dedup_In, in_map_iff in Hkey. destruct Hkey as (uri & Hns & Huri).
  now exists uri.
Qed.

(** X15: a namespace that holds at least three of the classes, and at least a
    twentieth of them, is internal. *)
Theorem major_namespace_internal (class_uris : list string) (ns : string) :
  3 <= List.length (filter (fun u => _extract_namespace u =? ns) class_uris) ->
  List.length class_uris / 20
  <= List.length (filter (fun u => _extract_namespace u =? ns) class_uris) ->
  In ns (_detect_internal_namespaces class_uris).
Proof.
  intros H3 H20. unfold _detect_internal_namespaces.
  destruct class_uris as [|u us] eqn:E; [simpl in H3; lia|]. rewrite <- E in *.
  clear E. cbv zeta. apply in_or_app. left. apply filter_In. split.
  - apply dedup_In.
    destruct (filter (fun u => _extract_namespace u =? ns) class_uris)
      as [|x l] eqn:Ef; [simpl in H3; lia|].
    assert (Hx : In x (filter (fun u => _extract_namespace u =? ns) class_uris))
      by (rewrite Ef; now left).
    apply filter_In in Hx. destruct Hx as [Hx Hns]. apply String.eqb_eq in Hns.
    apply in_map_iff. now exists x.
  - apply Nat.leb_le. rewrite count_namespace. lia.
Qed.

Lemma major_namespace_internal_witness :
  In "http://example.org/soil#"
     (_detect_internal_namespaces
        [Sample.feature_uri; Sample.profile_uri; Sample.layer_uri;
         Sample.sample_uri]).
Proof.
  apply major_namespace_internal; vm_compute; lia.
Defined.

(** * Small ontologies *)

Lemma uri_is_external_nil (uri : string) : uri_is_external [] uri = true.
Proof. reflexivity. Qed.

(** X16: an ontology with no stored selection and fewer than three distinct
    classes has no internal namespace, and promotion finds nothing: every
    node returned is flagged external. *)
Theorem small_ontology_all_external (store : Store) (ontology : string) :
  selected_namespaces (_get_ontology_config store ontology) = [] ->
  List.length (hierarchy_class_uris store ontology) < 3 ->
  Forall (fun n => is_external n = true) (get_class_hierarchy store ontology).
Proof.
  intros Hsel Hlen. apply Forall_forall. intros n Hn.
  assert (HI : hierarchy_internal_namespaces store ontology = []).
  { unfold hierarchy_internal_namespaces. rewrite Hsel. cbv zeta.
    fold (hierarchy_class_uris store ontology).
    unfold _detect_internal_namespaces.
    destruct (hierarchy_class_uris store ontology) as [|u us] eqn:E;
      [reflexivity|]. rewrite <- E in *.
    cbv zeta. rewrite (no_major_below_three _ Hlen). simpl.
    apply filter_none. reflexivity. }
  apply hierarchy_output in Hn. destruct Hn as [k Hk].
  destruct (is_external n) eqn:Hflag; [reflexivity|]. exfalso.
  destruct (promote_cleared _ _ _ _ Hk Hflag) as (n0 & Hin & [Hfalse|[v Hsearch]]).
  - pose proof (build_node_ok _ _ _ _ Hin) as (_ & _ & _ & Hext).
    rewrite HI, uri_is_external_nil in Hext. congruence.
  - apply has_internal_descendant_true in Hsearch.
    destruct Hsearch as (d & _ & Hd).
    rewrite HI, uri_is_external_nil in Hd. discriminate.
Qed.

Lemma small_ontology_all_external_witness :
  List.length (get_class_hierarchy Sample.pair_store "urn:pair") = 2 /\
  Forall (fun n => is_external n = true)
         (get_class_hierarchy Sample.pair_store "urn:pair").
Proof.
  split; [reflexivity|].
  apply small_ontology_all_external; [reflexivity | vm_compute; lia].
Defined.

(** * Stored configuration *)

Section UpdateFacts.
Import Sparql SparqlUpdate.

Lemma triple_eqb_eq (a b : Triple) : triple_eqb a b = true <-> a = b.
Proof.
  unfold triple_eqb. rewrite !andb_true_iff, !term_eqb_eq, String.eqb_eq.
  destruct a, b; simpl. split.
  - intros [[-> ->] ->]. reflexivity.
  - intros [= -> -> ->]. auto.
Qed.

Lemma existsb_triple (t : Triple) (g : Graph) :
  existsb (triple_eqb t) g = true <-> In t g.
Proof.
  rewrite existsb_exists. split.
  - intros (t' & Hin & Heq). apply triple_eqb_eq in Heq. now subst.
  - intros Hin. exists t. split; [assumption | now apply triple_eqb_eq].
Qed.

Lemma objects_app (g h : Graph) (s : Term) (p : string) :
  objects (g ++ h) s p = objects g s p ++ objects h s p.
Proof. unfold objects. now rewrite filter_app, map_app. Qed.

(** What [DELETE WHERE] removes is gone. *)
Lemma objects_delete_same (g : Graph) (s : Term) (p : string) :
  objects (delete_where s p g) s p = [].
Proof.
  unfold objects, delete_where. induction g as [|t g IH]; [reflexivity|].
  simpl. destruct (term_eqb (subject t) s && (predicate t =? p)) eqn:E; simpl;
    [|rewrite E]; exact IH.
Qed.

(** What it does not match stays, in place. *)
Lemma objects_delete_other (g : Graph) (s s' : Term) (p p' : string) :
  term_eqb s s' && (p =? p') = false ->
  objects (delete_where s p g) s' p' = objects g s' p'.
Proof.
  intros Hne. unfold objects, delete_where.
  induction g as [|t g IH]; [reflexivity|]. simpl.
  destruct (term_eqb (subject t) s && (predicate t =? p)) eqn:E; simpl.
  - apply andb_true_iff in E. destruct E as [Es Ep].
    apply term_eqb_eq in Es. apply String.eqb_eq in Ep.
    rewrite Es, Ep, Hne. exact IH.
  - destruct (term_eqb (subject t) s' && (predicate t =? p')); simpl;
      now rewrite IH.
Qed.

Lemma In_insert_triple (g : Graph) (t x : Triple) :
  In x (insert_triple g t) <-> In x g \/ x = t.
Proof.
  unfold insert_triple. destruct (existsb (triple_eqb t) g) eqn:E.
  - apply existsb_triple in E. split; [now left|]. intros [H| ->]; assumption.
  - rewrite in_app_iff. simpl. intuition.
Qed.

Lemma In_insert_data (ts : list Triple) (g : Graph) (x : Triple) :
  In x (insert_data ts g) <-> In x g \/ In x ts.
Proof.
  unfold insert_data. revert g.
  induction ts as [|t ts IH]; simpl; intros g; [tauto|].
  rewrite IH, In_insert_triple. intuition.
Qed.

(** [INSERT DATA] adds no object twice. *)
Lemma NoDup_objects_insert_triple (g : Graph) (t : Triple) (s : Term) (p : string) :
  NoDup (objects g s p) -> NoDup (objects (insert_triple g t) s p).
Proof.
  intros Hnd. unfold insert_triple.
  destruct (existsb (triple_eqb t) g) eqn:E; [assumption|].
  rewrite objects_app. unfold objects at 2. simpl.
  destruct (term_eqb (subject t) s && (predicate t =? p)) eqn:Em; simpl;
    [|now rewrite app_nil_r].
  apply andb_true_iff in Em. destruct Em as [Es Ep].
  apply term_eqb_eq in Es. apply String.eqb_eq in Ep.
  apply NoDup_app; [assumption | repeat constructor; intros [] |].
  intros x Hx [<-|[]]. apply objects_In in Hx.
  assert (Ht : existsb (triple_eqb t) g = true).
  { apply existsb_triple. destruct t; simpl in *. now subst. }
  congruence.
Qed.

Lemma NoDup_objects_insert_data (ts : list Triple) (g : Graph)
      (s : Term) (p : string) :
  NoDup (objects g s p) -> NoDup (objects (insert_data ts g) s p).
Proof.
  unfold insert_data. revert g.
  induction ts as [|t ts IH]; simpl; intros g H; [assumption|].
  apply IH. now apply NoDup_objects_insert_triple.
Qed.

(** Triples about another subject or predicate leave the answers alone. *)
Lemma objects_insert_data_other (ts : list Triple) (g : Graph)
      (s : Term) (p : string) :
  (forall t, In t ts -> term_eqb (subject t) s && (predicate t =? p) = false) ->
  objects (insert_data ts g) s p = objects g s p.
Proof.
  unfold insert_data. revert g.
  induction ts as [|t ts IH]; simpl; intros g H; [reflexivity|].
  rewrite IH by (intros t' Ht'; apply H; now right).
  unfold insert_triple. destruct (existsb (triple_eqb t) g); [reflexivity|].
  rewrite objects_app. unfold objects at 2. simpl.
  rewrite (H t (or_introl eq_refl)). simpl. apply app_nil_r.
Qed.

(** The one value of a setting inserted after its deletion. *)
Lemma objects_insert_fresh (g : Graph) (s : Term) (p : string) (x : Term) :
  objects g s p = [] ->
  objects (insert_data [mkTriple s p x] g) s p = [x].
Proof.
  intros Hnone. unfold insert_data. simpl. unfold insert_triple.
  destruct (existsb (triple_eqb (mkTriple s p x)) g) eqn:E.
  - apply existsb_triple, objects_In in E. rewrite Hnone in E. destruct E.
  - rewrite objects_app, Hnone. unfold objects. simpl.
    now rewrite term_eqb_refl, String.eqb_refl.
Qed.

Variable dataset : string -> Graph.
Variable o : string.
Variable namespaces : list string.
Variable mode : string.
Variable show : bool.

(** The meta graph after [_save_ontology_config]. *)
Lemma save_meta :
  _save_ontology_config dataset o namespaces mode show AIT_META_GRAPH =
  insert_data [mkTriple (NamedNode o) (setting "showDeprecated")
                        (Literal (Py.lower (str_of_bool show)) XSD_STRING)]
    (insert_data [mkTriple (NamedNode o) (setting "displayNameMode")
                           (Literal mode XSD_STRING)]
       (insert_data (map (fun ns => mkTriple (NamedNode o)
                                             (setting "selectedNamespace")
                                             (NamedNode ns)) namespaces)
          (delete_where (NamedNode o) (setting "showDeprecated")
             (delete_where (NamedNode o) (setting "displayNameMode")
                (delete_where (NamedNode o) (setting "selectedNamespace")
                   (dataset AIT_META_GRAPH)))))).
Proof.
  unfold _save_ontology_config. destruct namespaces; reflexivity.
Qed.

(** No other graph is touched. *)
Lemma save_other_graph (name : string) :
  name <> AIT_META_GRAPH ->
  _save_ontology_config dataset o namespaces mode show name = dataset name.
Proof.
  intros Hne. apply String.eqb_neq in Hne.
  unfold _save_ontology_config.
  destruct namespaces; unfold apply_update, on_graph; now rewrite Hne.
Qed.

Lemma saved_mode :
  objects (_save_ontology_config dataset o namespaces mode show AIT_META_GRAPH)
          (NamedNode o) (setting "displayNameMode")
  = [Literal mode XSD_STRING].
Proof.
  rewrite save_meta.
  rewrite objects_insert_data_other
    by (intros t [<-|[]]; simpl; now rewrite andb_false_r).
  apply objects_insert_fresh.
  rewrite objects_insert_data_other.
  - rewrite objects_delete_other by (simpl; now rewrite andb_false_r).
    apply objects_delete_same.
  - intros t Ht. apply in_map_iff in Ht. destruct Ht as (ns & <- & _).
    simpl. now rewrite andb_false_r.
Qed.

Lemma saved_show :
  objects (_save_ontology_config dataset o namespaces mode show AIT_META_GRAPH)
          (NamedNode o) (setting "showDeprecated")
  = [Literal (Py.lower (str_of_bool show)) XSD_STRING].
Proof.
  rewrite save_meta. apply objects_insert_fresh.
  rewrite objects_insert_data_other
    by (intros t [<-|[]]; simpl; now rewrite andb_false_r).
  rewrite objects_insert_data_other.
  - apply objects_delete_same.
  - intros t Ht. apply in_map_iff in Ht. destruct Ht as (ns & <- & _).
    simpl. now rewrite andb_false_r.
Qed.

Lemma saved_namespaces :
  let objs :=
    objects (_save_ontology_config dataset o namespaces mode show AIT_META_GRAPH)
            (NamedNode o) (setting "selectedNamespace") in
  NoDup objs /\
  forall x, In x objs <-> exists ns, In ns namespaces /\ x = NamedNode ns.
Proof.
  cbv zeta. rewrite save_meta.
  rewrite !(objects_insert_data_other [_])
    by (intros t [<-|[]]; simpl; now rewrite andb_false_r).
  assert (Hnone :
    objects (delete_where (NamedNode o) (setting "showDeprecated")
               (delete_where (NamedNode o) (setting "displayNameMode")
                  (delete_where (NamedNode o) (setting "selectedNamespace")
                     (dataset AIT_META_GRAPH))))
            (NamedNode o) (setting "selectedNamespace") = []).
  { rewrite !objects_delete_other by (simpl; now rewrite andb_false_r).
    apply objects_delete_same. }
  split.
  - apply NoDup_objects_insert_data. rewrite Hnone. constructor.
  - intros x. rewrite objects_In, In_insert_data, <- objects_In, Hnone.
    rewrite in_map_iff. split.
    + intros [[]|(ns & [= <-] & Hin)]. now exists ns.
    + intros (ns & Hin & ->). right. now exists ns.
Qed.


End UpdateFacts.

(** The namespaces [_get_ontology_config] reads from the rows of a list of
    terms: the rendered terms that are not empty. *)
Lemma config_namespaces (objs : list Sparql.Term) :
  flat_map (fun r => match Py.get r "namespace" with
                     | Some ns => if ns =? "" then [] else [ns]
                     | None => []
                     end)
           (map (fun t => Sparql.to_row [("namespace", Some t)]) objs)
  = filter (fun ns => negb (ns =? "")) (map Sparql.render objs).
Proof.
  induction objs as [|t objs IH]; [reflexivity|].
  cbn [map flat_map filter]. rewrite IH.
  change (Py.get (Sparql.to_row [("namespace", Some t)]) "namespace")
    with (Some (Sparql.render t)).
  cbv beta iota. destruct (Sparql.render t =? ""); reflexivity.
Qed.

Lemma lower_str_of_bool (b : bool) :
  (Py.lower (Py.lower (str_of_bool b)) =? "true") = b.
Proof. destruct b; reflexivity. Qed.

(** The namespaces read back after a save. *)
Lemma loaded_selection (dataset : string -> Sparql.Graph)
      (o : string) (namespaces : list string) (mode : string) (show : bool) :
  let c := _get_ontology_config
             (Sparql.store_of (_save_ontology_config dataset o namespaces mode show))
             o in
  NoDup (selected_namespaces c) /\
  (forall ns, In ns (selected_namespaces c) <-> In ns namespaces /\ ns <> "").
Proof.
  cbv zeta. unfold _get_ontology_config, Sparql.store_of, Sparql.config_rows.
  cbn [selected_namespaces]. rewrite config_namespaces.
  pose proof (saved_namespaces dataset o namespaces mode show) as [Hnd Hin].
  cbv zeta in Hnd, Hin.
  change (String.append AIT_NS "selectedNamespace")
    with (SparqlUpdate.setting "selectedNamespace").
  set (objs := Sparql.objects _ _ _) in *.
  assert (Hnamed : forall x, In x objs -> exists ns, x = Sparql.NamedNode ns).
  { intros x Hx. apply Hin in Hx. destruct Hx as (ns & _ & ->). now exists ns. }
  split.
  - apply NoDup_filter.
    apply NoDup_map_NoDup_ForallPairs; [|assumption].
    intros x y Hx Hy Heq.
    destruct (Hnamed x Hx) as [nx ->]. destruct (Hnamed y Hy) as [ny ->].
    simpl in Heq. now subst.
  - intros ns. rewrite filter_In, in_map_iff, negb_true_iff, String.eqb_neq.
    split.
    + intros [(x & Hr & Hx) Hne]. split; [|assumption].
      apply Hin in Hx. destruct Hx as (ns' & Hin' & ->). simpl in Hr. now subst.
    + intros [Hns Hne]. split; [|assumption].
      exists (Sparql.NamedNode ns). split; [reflexivity|].
      apply Hin. now exists ns.
Qed.

Lemma plain_iri_nonempty (s : string) : plain_iri s = true -> s <> "".
Proof. intros H ->. discriminate. Qed.

(** X17: what is saved is what is loaded.  For an ontology URI and
    namespaces that are plain IRIs and a display mode that is plain text
    (the store then reads every update of the save as written), the
    configuration read back after [_save_ontology_config] has the display
    mode and the deprecation switch saved, and as namespaces the saved
    ones, each once, whatever was stored before. *)
Theorem saved_config_is_loaded (dataset : string -> Sparql.Graph)
        (o : string) (namespaces : list string) (mode : string) (show : bool) :
  plain_iri o = true ->
  Forall (fun ns => plain_iri ns = true) namespaces ->
  plain_literal mode = true ->
  let c := _get_ontology_config
             (Sparql.store_of (_save_ontology_config dataset o namespaces mode show))
             o in
  display_name_mode c = mode /\
  show_deprecated c = show /\
  NoDup (selected_namespaces c) /\
  (forall ns, In ns (selected_namespaces c) <-> In ns namespaces).
Proof.
  intros _ Hplain _. cbv zeta.
  pose proof (loaded_selection dataset o namespaces mode show) as [Hnd Hsel].
  cbv zeta in Hnd, Hsel.
  split; [|split; [|split; [exact Hnd|]]].
  - unfold _get_ontology_config, Sparql.store_of, Sparql.config_rows.
    cbn [display_name_mode].
    change (String.append AIT_NS "displayNameMode")
      with (SparqlUpdate.setting "displayNameMode").
    now rewrite saved_mode.
  - unfold _get_ontology_config, Sparql.store_of, Sparql.config_rows.
    cbn [show_deprecated].
    change (String.append AIT_NS "showDeprecated")
      with (SparqlUpdate.setting "showDeprecated").
    rewrite saved_show. apply lower_str_of_bool.
  - intros ns. rewrite Hsel. split; [tauto|]. intros Hin. split; [assumption|].
    apply plain_iri_nonempty. rewrite Forall_forall in Hplain. now apply Hplain.
Qed.

Lemma saved_config_is_loaded_witness :
  display_name_mode
    (_get_ontology_config (Sparql.store_of Sample.reconfigured) "urn:soil")
  = "label" /\
  show_deprecated
    (_get_ontology_config (Sparql.store_of Sample.reconfigured) "urn:soil")
  = true.
Proof.
  destruct (saved_config_is_loaded Sample.configured "urn:soil"
              ["http://vocab.example.net/core/"] "label" true)
    as (Hmode & Hshow & _).
  - reflexivity.
  - repeat constructor.
  - reflexivity.
  - split; [exact Hmode | exact Hshow].
Defined.






(** * Entity details *)

(** ** The breadcrumb *)

Lemma crumb_loop_S (store : EntityStore) (ontology : string) (n : nat)
      (s : CrumbState) :
  crumb_loop store ontology (S n) s =
  match store (QBreadcrumbParent ontology (crumb_current s)) with
  | [] => s
  | r :: _ =>
    match Py.get r "parent" with
    | None => s
    | Some p =>
      if (p =? "") || Py.mem p (crumb_visited s) then s
      else crumb_loop store ontology n
             (mkCrumbState
                (crumbs s ++
                 [mkEntityRef p (Py.or_else (Py.get r "parentLabel")
                                            (_extract_local_name p))
                              (Py.get r "parentPrefixIRI")])
                (p :: crumb_visited s) p)
    end
  end.
Proof. reflexivity. Qed.

(** The breadcrumb loop, from any state: what it appends is a walk from the
    current class that avoids what was visited, and the loop ends at its
    bound or at a class where the walk stops. *)
Lemma crumb_loop_spec (store : EntityStore) (ontology : string) (n : nat) :
  forall s, exists new,
    crumbs (crumb_loop store ontology n s) = crumbs s ++ new /\
    crumb_visited (crumb_loop store ontology n s)
    = rev (map eref_uri new) ++ crumb_visited s /\
    crumb_current (crumb_loop store ontology n s)
    = last (map eref_uri new) (crumb_current s) /\
    crumb_path store ontology (crumb_current s) new /\
    Forall (fun r => eref_uri r <> "") new /\
    (NoDup (crumb_visited s) ->
     NoDup (crumb_visited (crumb_loop store ontology n s))) /\
    (List.length new = n \/
     (List.length new < n /\
      crumb_stops store ontology (crumb_visited (crumb_loop store ontology n s))
                  (crumb_current (crumb_loop store ontology n s)))).
Proof.
  induction n as [|n IH]; intros s.
  - exists []. simpl. rewrite app_nil_r.
    do 6 (split; [solve [auto]|]). now left.
  - assert (Hstop :
        crumb_stops store ontology (crumb_visited s) (crumb_current s) ->
        exists new,
          crumbs s = crumbs s ++ new /\
          crumb_visited s = rev (map eref_uri new) ++ crumb_visited s /\
          crumb_current s = last (map eref_uri new) (crumb_current s) /\
          crumb_path store ontology (crumb_current s) new /\
          Forall (fun r => eref_uri r <> "") new /\
          (NoDup (crumb_visited s) -> NoDup (crumb_visited s)) /\
          (List.length new = S n \/
           (List.length new < S n /\
            crumb_stops store ontology (crumb_visited s) (crumb_current s)))).
    { intros Hs. exists []. simpl. rewrite app_nil_r.
      do 6 (split; [solve [auto]|]).
      right. split; [lia | assumption]. }
    rewrite crumb_loop_S.
    destruct (store (QBreadcrumbParent ontology (crumb_current s)))
      as [|r rows] eqn:Hq.
    { apply Hstop. unfold crumb_stops, crumb_parent. now rewrite Hq. }
    destruct (Py.get r "parent") as [p|] eqn:Hp.
    2:{ apply Hstop. unfold crumb_stops, crumb_parent. now rewrite Hq, Hp. }
    destruct (String.eqb_spec p "") as [->|Hne]; cbn [orb].
    { apply Hstop. unfold crumb_stops, crumb_parent. rewrite Hq, Hp. now left. }
    destruct (Py.mem p (crumb_visited s)) eqn:Hv.
    { apply Hstop. unfold crumb_stops, crumb_parent. rewrite Hq, Hp.
      right. now apply mem_In. }
    clear Hstop.
    match goal with |- context [crumb_loop store ontology n ?s2] =>
      destruct (IH s2) as (new & Hsup & Hvis & Hcur & Hpath & Hne' & Hnd & Hend);
      set (s' := crumb_loop store ontology n s2) in * end.
    cbn [crumbs crumb_visited crumb_current] in Hsup, Hvis, Hcur, Hpath, Hnd.
    set (ref := mkEntityRef p (Py.or_else (Py.get r "parentLabel")
                                          (_extract_local_name p))
                            (Py.get r "parentPrefixIRI")) in *.
    exists (ref :: new). cbn [map rev List.length eref_uri ref].
    split; [rewrite Hsup, <- app_assoc; reflexivity|].
    split; [rewrite Hvis, <- app_assoc; reflexivity|].
    split.
    { rewrite Hcur. destruct (map eref_uri new) as [|x l]; [reflexivity|].
      symmetry. apply (last_cons p (crumb_current s) (x :: l)). }
    split.
    { split; [|assumption]. unfold crumb_parent. now rewrite Hq. }
    split.
    { constructor; assumption. }
    split.
    { intros H. apply Hnd.
      constructor; [exact (proj1 (mem_not_In p (crumb_visited s)) Hv) | assumption]. }
    destruct Hend as [Hlen|(Hlen & Hs)].
    + left. lia.
    + right. split; [lia | assumption].
Qed.

(** The breadcrumb of a class, as the loop leaves it. *)
Lemma crumb_run (store : EntityStore) (ontology entity : string) :
  let sup := crumbs (crumb_loop store ontology 20
                                (mkCrumbState [] [entity] entity)) in
  List.length sup <= 20 /\
  NoDup (entity :: map eref_uri sup) /\
  Forall (fun r => eref_uri r <> "") sup /\
  crumb_path store ontology entity sup /\
  (List.length sup = 20 \/
   crumb_stops store ontology (entity :: map eref_uri sup)
               (last (map eref_uri sup) entity)).
Proof.
  cbv zeta.
  destruct (crumb_loop_spec store ontology 20 (mkCrumbState [] [entity] entity))
    as (new & Hsup & Hvis & Hcur & Hpath & Hne & Hnd & Hend).
  set (s := crumb_loop store ontology 20 _) in *.
  cbn [crumbs crumb_visited crumb_current app] in Hsup, Hvis, Hcur, Hpath, Hnd.
  rewrite Hsup.
  assert (Hnodup : NoDup (entity :: map eref_uri new)).
  { rewrite <- (rev_involutive (entity :: map eref_uri new)).
    apply NoDup_rev. simpl. rewrite <- Hvis. apply Hnd.
    constructor; [simpl; tauto | constructor]. }
  split; [destruct Hend as [H|[H _]]; lia|].
  split; [assumption|]. split; [assumption|]. split; [assumption|].
  destruct Hend as [H|[_ Hs]]; [now left | right].
  rewrite <- Hcur. unfold crumb_stops in *.
  destruct (crumb_parent store ontology (crumb_current s)) as [p|]; [|exact I].
  destruct Hs as [H|H]; [now left | right].
  rewrite Hvis, in_app_iff, <- in_rev in H. simpl in H. simpl. tauto.
Qed.

(** X20: the breadcrumb of [get_entity_info] is a bounded walk.  It has at
    most 20 entries; their URIs are not empty, pairwise distinct and
    different from the entity, also on a cyclic graph; each is the first
    parent returned for the one before, the first for the entity. *)
Theorem breadcrumb_bounded_path (store : EntityStore) (ontology entity : string) :
  let sup := info_superclasses (get_entity_info store ontology entity) in
  List.length sup <= 20 /\
  NoDup (entity :: map eref_uri sup) /\
  Forall (fun r => eref_uri r <> "") sup /\
  crumb_path store ontology entity sup.
Proof.
  cbv zeta. unfold get_entity_info. cbn [info_superclasses].
  destruct (_detect_entity_type store ontology entity =? "Class").
  - pose proof (crumb_run store ontology entity) as H. cbv zeta in H. tauto.
  - simpl. repeat split; auto; try lia.
    constructor; [simpl; tauto | constructor].
Qed.

(** X21: the breadcrumb of a class is cut only where it must be.  It has 20
    entries, or the last class on it (the entity, if it is empty) has no
    parent, an empty one, or one already on the walk. *)
Theorem breadcrumb_complete (store : EntityStore) (ontology entity : string) :
  _detect_entity_type store ontology entity = "Class" ->
  let sup := info_superclasses (get_entity_info store ontology entity) in
  List.length sup = 20 \/
  crumb_stops store ontology (entity :: map eref_uri sup)
              (last (map eref_uri sup) entity).
Proof.
  intros Hclass. cbv zeta. unfold get_entity_info. cbn [info_superclasses].
  rewrite Hclass. cbn [String.eqb Ascii.eqb Bool.eqb].
  pose proof (crumb_run store ontology entity) as H. cbv zeta in H.
  change ("Class" =? "Class") with true. cbv iota. tauto.
Qed.

Lemma breadcrumb_complete_witness :
  map eref_uri
      (info_superclasses
         (get_entity_info Sample.entity_store "urn:soil" Sample.layer_uri))
  = [Sample.feature_uri] /\
  crumb_stops Sample.entity_store "urn:soil"
              [Sample.layer_uri; Sample.feature_uri] Sample.feature_uri.
Proof.
  split; [reflexivity|].
  destruct (breadcrumb_complete Sample.entity_store "urn:soil" Sample.layer_uri
              eq_refl) as [H|H].
  - vm_compute in H. discriminate.
  - exact H.
Defined.

(** ** The primary type *)

Lemma entity_type_class (store : EntityStore) (graph_uri entity_uri : string) :
  _detect_entity_type store graph_uri entity_uri = "Class" ->
  (In OWL_CLASS (entity_types store graph_uri entity_uri) \/
   In RDFS_CLASS (entity_types store graph_uri entity_uri)) /\
  ~ In SKOS_CONCEPT_SCHEME (entity_types store graph_uri entity_uri) /\
  ~ In SKOS_CONCEPT (entity_types store graph_uri entity_uri).
Proof.
  unfold _detect_entity_type. cbv zeta.
  set (types := entity_types store graph_uri entity_uri).
  rewrite <- !mem_In.
  destruct (Py.mem SKOS_CONCEPT_SCHEME types); [discriminate|].
  destruct (Py.mem SKOS_CONCEPT types); [discriminate|].
  destruct (Py.mem OWL_CLASS types); [intros _; intuition congruence|].
  destruct (Py.mem RDFS_CLASS types); [intros _; intuition congruence|].
  cbn [orb].
  destruct (Py.mem OWL_OBJECT_PROPERTY types); [discriminate|].
  destruct (Py.mem OWL_DATATYPE_PROPERTY types); [discriminate|].
  destruct (Py.mem OWL_ANNOTATION_PROPERTY types); [discriminate|].
  destruct (Py.mem OWL_NAMED_INDIVIDUAL types); discriminate.
Qed.

(** X22: only an entity taken as a class has a breadcrumb or subclasses: one
    declared [owl:Class] or [rdfs:Class] and neither a SKOS concept scheme
    nor a SKOS concept.  A class that is also a concept gets neither. *)
Theorem breadcrumb_only_for_classes (store : EntityStore) (ontology entity : string) :
  info_superclasses (get_entity_info store ontology entity) <> [] \/
  info_subclasses (get_entity_info store ontology entity) <> [] ->
  (In OWL_CLASS (entity_types store ontology entity) \/
   In RDFS_CLASS (entity_types store ontology entity)) /\
  ~ In SKOS_CONCEPT_SCHEME (entity_types store ontology entity) /\
  ~ In SKOS_CONCEPT (entity_types store ontology entity).
Proof.
  unfold get_entity_info. cbn [info_superclasses info_subclasses].
  destruct (String.eqb_spec (_detect_entity_type store ontology entity) "Class")
    as [Hclass|Hother].
  - intros _. now apply entity_type_class.
  - intros [H|H]; exfalso; apply H; reflexivity.
Qed.

Lemma breadcrumb_only_for_classes_witness :
  (In OWL_CLASS (entity_types Sample.entity_store "urn:soil" Sample.layer_uri) \/
   In RDFS_CLASS (entity_types Sample.entity_store "urn:soil" Sample.layer_uri)) /\
  ~ In SKOS_CONCEPT_SCHEME
       (entity_types Sample.entity_store "urn:soil" Sample.layer_uri) /\
  ~ In SKOS_CONCEPT (entity_types Sample.entity_store "urn:soil" Sample.layer_uri).
Proof.
  apply (breadcrumb_only_for_classes Sample.entity_store "urn:soil"
           Sample.layer_uri).
  left. vm_compute. discriminate.
Defined.

(** X23: the type [get_property_info] reports is one of the three property
    types, and [ObjectProperty] stands in for everything else: a property
    that is also declared a class, a concept scheme or a concept is
    reported as an object property, whatever property type it declares. *)
Theorem property_type_reported (store : EntityStore) (ontology property : string) :
  let t := property_type (get_property_info store ontology property) in
  let types := entity_types store ontology property in
  (t = "ObjectProperty" \/ t = "DatatypeProperty" \/ t = "AnnotationProperty") /\
  (In SKOS_CONCEPT_SCHEME types \/ In SKOS_CONCEPT types \/
   In OWL_CLASS types \/ In RDFS_CLASS types -> t = "ObjectProperty") /\
  (t = "DatatypeProperty" ->
   In OWL_DATATYPE_PROPERTY types /\ ~ In OWL_OBJECT_PROPERTY types) /\
  (t = "AnnotationProperty" ->
   In OWL_ANNOTATION_PROPERTY types /\ ~ In OWL_OBJECT_PROPERTY types /\
   ~ In OWL_DATATYPE_PROPERTY types).
Proof.
  cbv zeta. unfold get_property_info. cbn [property_type].
  unfold _detect_entity_type. cbv zeta.
  set (types := entity_types store ontology property).
  rewrite <- !mem_In.
  destruct (Py.mem SKOS_CONCEPT_SCHEME types);
    [vm_compute; intuition congruence|].
  destruct (Py.mem SKOS_CONCEPT types);
    [vm_compute; intuition congruence|].
  destruct (Py.mem OWL_CLASS types);
    [vm_compute; intuition congruence|].
  destruct (Py.mem RDFS_CLASS types);
    [vm_compute; intuition congruence|].
  cbn [orb].
  destruct (Py.mem OWL_OBJECT_PROPERTY types);
    [vm_compute; intuition congruence|].
  destruct (Py.mem OWL_DATATYPE_PROPERTY types);
    [vm_compute; intuition congruence|].
  destruct (Py.mem OWL_ANNOTATION_PROPERTY types);
    [vm_compute; intuition congruence|].
  destruct (Py.mem OWL_NAMED_INDIVIDUAL types);
    vm_compute; intuition congruence.
Qed.

(** * Code-list sidebar *)

(** The entries the scheme loop appends: one per row with a listable
    scheme, in the pattern [skos_scheme]. *)
Lemma scheme_loop_spec (rows : list Row) :
  forall acc l,
    scheme_loop rows acc = Ok l ->
    exists new,
      l = acc ++ new /\
      Forall (fun e => summary_pattern e = skos_scheme /\
                       listable (summary_uri e)) new /\
      (forall r u, In r rows -> Py.get r "scheme" = Some u -> listable u ->
         exists e, In e new /\ summary_uri e = u /\
                   summary_pattern e = skos_scheme /\
                   row_count r = Ok (summary_member_count e) /\
                   summary_label e
                   = Py.or_else (Py.get r "label") (_extract_local_name u)).
Proof.
  induction rows as [|r rows IH]; intros acc l H.
  - simpl in H. injection H as <-. exists []. rewrite app_nil_r.
    split; [reflexivity|]. split; [constructor|]. intros r u [].
  - assert (Hskip : scheme_loop rows acc = Ok l ->
                    (forall u, Py.get r "scheme" = Some u -> ~ listable u) ->
                    exists new,
                      l = acc ++ new /\
                      Forall (fun e => summary_pattern e = skos_scheme /\
                                       listable (summary_uri e)) new /\
                      (forall r0 u, In r0 (r :: rows) ->
                         Py.get r0 "scheme" = Some u -> listable u ->
                         exists e, In e new /\ summary_uri e = u /\
                           summary_pattern e = skos_scheme /\
                           row_count r0 = Ok (summary_member_count e) /\
                           summary_label e
                           = Py.or_else (Py.get r0 "label") (_extract_local_name u))).
    { intros H' Hno. destruct (IH _ _ H') as (new & Hl & Hpat & Hall).
      exists new. split; [assumption|]. split; [assumption|].
      intros r0 u [<-|Hin] Hu Hlist; [|now apply (Hall r0 u)].
      destruct (Hno u Hu Hlist). }
    simpl in H. destruct (Py.get r "scheme") as [uri|] eqn:Huri.
    2:{ apply Hskip; [assumption | discriminate]. }
    destruct (String.eqb_spec uri "") as [->|Hne]; cbn [negb andb] in H.
    { apply Hskip; [assumption|]. intros u [= <-] [Hu _]. now apply Hu. }
    destruct (Py.startswith uri "_:") eqn:Hblank; cbn [negb] in H.
    { apply Hskip; [assumption|]. intros u [= <-] [_ Hu]. congruence. }
    clear Hskip. destruct (row_count r) as [n|] eqn:Hn; [|discriminate].
    cbn [bind] in H.
    destruct (IH _ _ H) as (new & Hl & Hpat & Hall).
    set (e := mkCodeListSummary uri
                (Py.or_else (Py.get r "label") (_extract_local_name uri))
                None skos_scheme n) in *.
    exists (e :: new). split; [now rewrite Hl, <- app_assoc|].
    split; [constructor; [split; [reflexivity | now split] | assumption]|].
    intros r0 u [<-|Hin] Hu Hlist.
    + exists e. rewrite Huri in Hu. injection Hu as <-.
      split; [now left|]. repeat split; assumption.
    + destruct (Hall r0 u Hin Hu Hlist) as (e0 & He0 & Hrest).
      exists e0. split; [now right | assumption].
Qed.

(** The entries the collection loop appends: in the pattern
    [skos_collection], each URI once and none that was seen. *)
Lemma collection_loop_spec (rows : list Row) :
  forall acc seen l,
    collection_loop rows acc seen = Ok l ->
    exists new,
      l = acc ++ new /\
      Forall (fun e => summary_pattern e = skos_collection /\
                       listable (summary_uri e) /\
                       ~ In (summary_uri e) seen) new /\
      NoDup (map summary_uri new) /\
      (forall r u, In r rows -> Py.get r "collection" = Some u -> listable u ->
         In u seen \/ In u (map summary_uri new)).
Proof.
  induction rows as [|r rows IH]; intros acc seen l H.
  - simpl in H. injection H as <-. exists []. rewrite app_nil_r.
    split; [reflexivity|]. split; [constructor|]. split; [constructor|].
    intros r u [].
  - assert (Hskip : collection_loop rows acc seen = Ok l ->
                    (forall u, Py.get r "collection" = Some u -> listable u ->
                               In u seen) ->
                    exists new,
                      l = acc ++ new /\
                      Forall (fun e => summary_pattern e = skos_collection /\
                                       listable (summary_uri e) /\
                                       ~ In (summary_uri e) seen) new /\
                      NoDup (map summary_uri new) /\
                      (forall r0 u, In r0 (r :: rows) ->
                         Py.get r0 "collection" = Some u -> listable u ->
                         In u seen \/ In u (map summary_uri new))).
    { intros H' Hseen. destruct (IH _ _ _ H') as (new & Hl & Hpat & Hnd & Hall).
      exists new. split; [assumption|]. split; [assumption|].
      split; [assumption|].
      intros r0 u [<-|Hin] Hu Hlist; [left; now apply Hseen|].
      now apply (Hall r0 u). }
    simpl in H. destruct (Py.get r "collection") as [uri|] eqn:Huri.
    2:{ apply Hskip; [assumption | discriminate]. }
    destruct (String.eqb_spec uri "") as [->|Hne]; cbn [negb andb] in H.
    { apply Hskip; [assumption|]. intros u [= <-] [Hu _]. now destruct Hu. }
    destruct (Py.startswith uri "_:") eqn:Hblank; cbn [negb andb] in H.
    { apply Hskip; [assumption|]. intros u [= <-] [_ Hu]. congruence. }
    destruct (Py.mem uri seen) eqn:Hmem; cbn [negb] in H.
    { apply Hskip; [assumption|]. intros u [= <-] _. now apply mem_In. }
    clear Hskip. destruct (row_count r) as [n|] eqn:Hn; [|discriminate].
    cbn [bind] in H.
    destruct (IH _ _ _ H) as (new & Hl & Hpat & Hnd & Hall).
    set (e := mkCodeListSummary uri
                (Py.or_else (Py.get r "label") (_extract_local_name uri))
                None skos_collection n) in *.
    assert (Hfresh : ~ In uri (map summary_uri new)).
    { intros Hin. apply in_map_iff in Hin. destruct Hin as (e0 & He0 & Hin).
      rewrite Forall_forall in Hpat. destruct (Hpat e0 Hin) as (_ & _ & Hno).
      apply Hno. rewrite He0. now left. }
    exists (e :: new). split; [now rewrite Hl, <- app_assoc|].
    split.
    { constructor.
      - split; [reflexivity|]. split; [now split|].
        exact (proj1 (mem_not_In uri seen) Hmem).
      - eapply Forall_impl; [|exact Hpat].
        intros e0 (Hp & Hlist & Hno). split; [assumption|].
        split; [assumption|]. intros Hin. apply Hno. now right. }
    split; [simpl; constructor; assumption|].
    intros r0 u [<-|Hin] Hu Hlist.
    + rewrite Huri in Hu. injection Hu as <-. right. now left.
    + destruct (Hall r0 u Hin Hu Hlist) as [[Heq|Hs]|Hn'].
      * right. left. exact Heq.
      * now left.
      * right. now right.
Qed.

(** What [list_codelists] returns, before the sort and the prefix IRIs:
    the entries of the two loops. *)
Lemma list_codelists_parts (store : CodelistStore) (ontology_uri : string)
      (l : list CodeListSummary) :
  list_codelists store ontology_uri = Ok l ->
  exists schemes collections m,
    scheme_loop (store (QSchemes ontology_uri)) [] = Ok schemes /\
    collection_loop (store (QCollections ontology_uri)) schemes
                    (map summary_uri schemes) = Ok (schemes ++ collections) /\
    Permutation l (map (set_prefix_iri m) (schemes ++ collections)).
Proof.
  unfold list_codelists.
  destruct (scheme_loop (store (QSchemes ontology_uri)) []) as [S|] eqn:Hs;
    [|discriminate].
  cbn [bind].
  destruct (collection_loop (store (QCollections ontology_uri)) S
                            (map summary_uri S)) as [L|] eqn:Hc; [|discriminate].
  cbn [bind]. intros [= <-].
  destruct (collection_loop_spec _ _ _ _ Hc) as (C & HL & _).
  exists S, C. rewrite <- HL.
  destruct L as [|x xs].
  - exists []. split; [first [reflexivity | assumption]|].
    split; [first [reflexivity | assumption]|]. apply sorted_perm.
  - exists (prefix_map
              (store (QPrefixIRIs ontology_uri (map summary_uri (x :: xs))))).
    split; [first [reflexivity | assumption]|].
    split; [first [reflexivity | assumption]|]. apply sorted_perm.
Qed.

(** X24: a code list is listed as a collection once, and only if it is not
    listed as a scheme.  The result splits into the scheme entries and the
    collection entries; the URIs of the collection entries are pairwise
    distinct and none is the URI of a scheme entry; no URI is empty or a
    blank node. *)
Theorem codelists_collections_once (store : CodelistStore) (ontology_uri : string)
        (l : list CodeListSummary) :
  list_codelists store ontology_uri = Ok l ->
  exists schemes collections,
    Permutation l (schemes ++ collections) /\
    Forall (fun e => summary_pattern e = skos_scheme) schemes /\
    Forall (fun e => summary_pattern e = skos_collection) collections /\
    NoDup (map summary_uri collections) /\
    (forall c, In c collections -> ~ In (summary_uri c) (map summary_uri schemes)) /\
    Forall (fun e => listable (summary_uri e)) l.
Proof.
  intros H. destruct (list_codelists_parts _ _ _ H) as (S & C & m & Hs & Hc & Hperm).
  destruct (scheme_loop_spec _ _ _ Hs) as (S' & HS & HpatS & _).
  simpl in HS. subst S'.
  destruct (collection_loop_spec _ _ _ _ Hc) as (C' & HC & HpatC & Hnd & _).
  apply app_inv_head in HC. subst C'.
  assert (Huri : forall xs, map summary_uri (map (set_prefix_iri m) xs)
                            = map summary_uri xs).
  { intros xs. rewrite map_map. reflexivity. }
  exists (map (set_prefix_iri m) S), (map (set_prefix_iri m) C).
  rewrite <- map_app. split; [assumption|].
  rewrite Forall_forall in HpatS, HpatC.
  split.
  { apply Forall_forall. intros e He. apply in_map_iff in He.
    destruct He as (e0 & <- & He0). exact (proj1 (HpatS e0 He0)). }
  split.
  { apply Forall_forall. intros e He. apply in_map_iff in He.
    destruct He as (e0 & <- & He0). exact (proj1 (HpatC e0 He0)). }
  split; [now rewrite Huri|].
  split.
  { intros c Hc'. apply in_map_iff in Hc'. destruct Hc' as (c0 & <- & Hc0).
    rewrite Huri. exact (proj2 (proj2 (HpatC c0 Hc0))). }
  apply Forall_forall. intros e He.
  apply (Permutation_in _ Hperm) in He. apply in_map_iff in He.
  destruct He as (e0 & <- & He0). apply in_app_or in He0.
  destruct He0 as [He0|He0].
  - exact (proj2 (HpatS e0 He0)).
  - exact (proj1 (proj2 (HpatC e0 He0))).
Qed.

Lemma codelists_collections_once_witness :
  exists schemes collections,
    Permutation
      [mkCodeListSummary Sample.colours_uri "Colours" (Some "soil:Colours")
                         skos_collection 3;
       Sample.textures_summary]
      (schemes ++ collections) /\
    Forall (fun e => summary_pattern e = skos_scheme) schemes /\
    Forall (fun e => summary_pattern e = skos_collection) collections /\
    NoDup (map summary_uri collections) /\
    (forall c, In c collections -> ~ In (summary_uri c) (map summary_uri schemes)) /\
    Forall (fun e => listable (summary_uri e))
      [mkCodeListSummary Sample.colours_uri "Colours" (Some "soil:Colours")
                         skos_collection 3;
       Sample.textures_summary].
Proof.
  apply (codelists_collections_once Sample.codelist_store "urn:soil").
  reflexivity.
Defined.

(** X25: no code list is lost.  When [list_codelists] returns, every row of
    the scheme query with a listable scheme has its entry, with the pattern
    [skos_scheme], the count of the row and its label (the local name if
    the row has none); and every listable collection of the collection
    query is in the result, as a scheme or as a collection. *)
Theorem codelists_all_listed (store : CodelistStore) (ontology_uri : string)
        (l : list CodeListSummary) :
  list_codelists store ontology_uri = Ok l ->
  (forall r u, In r (store (QSchemes ontology_uri)) ->
     Py.get r "scheme" = Some u -> listable u ->
     exists e, In e l /\ summary_uri e = u /\
               summary_pattern e = skos_scheme /\
               row_count r = Ok (summary_member_count e) /\
               summary_label e
               = Py.or_else (Py.get r "label") (_extract_local_name u)) /\
  (forall r u, In r (store (QCollections ontology_uri)) ->
     Py.get r "collection" = Some u -> listable u ->
     exists e, In e l /\ summary_uri e = u).
Proof.
  intros H. destruct (list_codelists_parts _ _ _ H) as (S & C & m & Hs & Hc & Hperm).
  destruct (scheme_loop_spec _ _ _ Hs) as (S' & HS & _ & HallS).
  simpl in HS. subst S'.
  destruct (collection_loop_spec _ _ _ _ Hc) as (C' & HC & _ & _ & HallC).
  apply app_inv_head in HC. subst C'.
  assert (Hin : forall e, In e (S ++ C) -> In (set_prefix_iri m e) l).
  { intros e He. apply (Permutation_in _ (Permutation_sym Hperm)).
    now apply in_map. }
  split.
  - intros r u Hr Hu Hlist.
    destruct (HallS r u Hr Hu Hlist) as (e & He & Huri & Hpat & Hcount & Hlabel).
    exists (set_prefix_iri m e).
    split; [apply Hin, in_or_app; now left|]. now repeat split.
  - intros r u Hr Hu Hlist.
    destruct (HallC r u Hr Hu Hlist) as [Hseen|Hnew];
      apply in_map_iff in Hseen || apply in_map_iff in Hnew.
    + destruct Hseen as (e & Huri & He). exists (set_prefix_iri m e).
      split; [apply Hin, in_or_app; now left | assumption].
    + destruct Hnew as (e & Huri & He). exists (set_prefix_iri m e).
      split; [apply Hin, in_or_app; now right | assumption].
Qed.

Lemma codelists_all_listed_witness :
  exists e,
    In e [mkCodeListSummary Sample.colours_uri "Colours" (Some "soil:Colours")
                            skos_collection 3;
          Sample.textures_summary] /\
    summary_uri e = Sample.textures_uri /\
    summary_pattern e = skos_scheme /\
    row_count Sample.textures_row = Ok (summary_member_count e) /\
    summary_label e
    = Py.or_else (Py.get Sample.textures_row "label")
                 (_extract_local_name Sample.textures_uri).
Proof.
  refine (proj1 (codelists_all_listed Sample.codelist_store "urn:soil" _ eq_refl)
                Sample.textures_row Sample.textures_uri _ _ _).
  - now left.
  - reflexivity.
  - split; [discriminate | reflexivity].
Defined.

(** * Class list *)

Lemma last_default {A : Type} (l : list A) (d d' : A) :
  l <> [] -> last l d = last l d'.
Proof.
  induction l as [|a l IH]; [congruence|]. intros _.
  destruct l as [|b l]; [reflexivity|].
  change (last (b :: l) d = last (b :: l) d'). apply IH. discriminate.
Qed.

(** The parts of [s.split(c)]: one part if [c] does not occur, and
    otherwise a last part that is what follows the last [c]. *)
Lemma split_on_last (c : ascii) (s : string) :
  match last_index c s with
  | None => split_on c s = [s]
  | Some k => exists p ps, split_on c s = p :: ps /\ ps <> [] /\
                           last ps "" = Py.drop (S k) s
  end.
Proof.
  induction s as [|a s IH]; [reflexivity|].
  simpl last_index. simpl split_on.
  destruct (last_index c s) as [k|] eqn:E.
  - destruct IH as (p & ps & Hsplit & Hne & Hlast). rewrite Hsplit.
    destruct (Ascii.eqb a c).
    + exists "", (p :: ps). split; [reflexivity|]. split; [discriminate|].
      rewrite last_cons, (last_default ps p "" Hne). exact Hlast.
    + exists (String a p), ps. auto.
  - rewrite IH. destruct (Ascii.eqb a c).
    + exists "", [s]. split; [reflexivity|]. split; [discriminate | reflexivity].
    + reflexivity.
Qed.

Lemma last_part_spec (c : ascii) (s : string) :
  last_part c s = match last_index c s with
                  | Some k => Py.drop (S k) s
                  | None => s
                  end.
Proof.
  unfold last_part. pose proof (split_on_last c s) as H.
  destruct (last_index c s) as [k|].
  - destruct H as (p & ps & -> & Hne & Hlast).
    now rewrite last_cons, (last_default ps p "" Hne).
  - now rewrite H.
Qed.

Lemma last_index_drop_some (c : ascii) (n : nat) :
  forall s k, last_index c s = Some k -> n <= k ->
              last_index c (Py.drop n s) = Some (k - n).
Proof.
  induction n as [|n IH]; intros s k H Hle.
  - simpl. now rewrite Nat.sub_0_r.
  - destruct s as [|a s]; [discriminate|]. simpl in H. simpl Py.drop.
    destruct (last_index c s) as [k'|] eqn:E.
    + injection H as <-. simpl. apply IH; [assumption | lia].
    + destruct (Ascii.eqb a c); [|discriminate]. injection H as <-. lia.
Qed.

Lemma last_index_drop_none (c : ascii) (n : nat) :
  forall s, match last_index c s with
            | Some k => k < n
            | None => True
            end ->
            last_index c (Py.drop n s) = None.
Proof.
  induction n as [|n IH]; intros s H.
  - simpl. destruct (last_index c s); [lia | reflexivity].
  - destruct s as [|a s]; [reflexivity|]. simpl in H. simpl Py.drop.
    apply IH. destruct (last_index c s) as [k'|]; [lia | exact I].
Qed.

(** The label [list_classes] gives a class without label is its local
    name: splitting at the last slash and then at the last hash is
    cutting after the later of the two. *)
Lemma last_part_local_name (uri : string) :
  last_part "#" (last_part "/" uri) = _extract_local_name uri.
Proof.
  unfold _extract_local_name. cbv zeta.
  rewrite !rfind_last_index, (last_part_spec "/" uri).
  destruct (last_index "/" uri) as [ks|] eqn:Es;
    destruct (last_index "#" uri) as [kh|] eqn:Eh;
    rewrite last_part_spec.
  - destruct (Nat.lt_ge_cases ks kh) as [Hlt|Hge].
    + rewrite (last_index_drop_some "#" (S ks) uri kh Eh) by lia.
      rewrite <- drop_drop.
      replace (Z.max (Z.of_nat kh) (Z.of_nat ks)) with (Z.of_nat kh) by lia.
      destruct (Z.of_nat kh >=? 0)%Z eqn:Ez; [|rewrite Z.geb_leb in Ez; apply Z.leb_gt in Ez; lia].
      f_equal. lia.
    + rewrite (last_index_drop_none "#" (S ks) uri) by (rewrite Eh; lia).
      replace (Z.max (Z.of_nat kh) (Z.of_nat ks)) with (Z.of_nat ks) by lia.
      destruct (Z.of_nat ks >=? 0)%Z eqn:Ez; [|rewrite Z.geb_leb in Ez; apply Z.leb_gt in Ez; lia].
      f_equal. lia.
  - rewrite (last_index_drop_none "#" (S ks) uri) by (now rewrite Eh).
    replace (Z.max (-1) (Z.of_nat ks)) with (Z.of_nat ks) by lia.
    destruct (Z.of_nat ks >=? 0)%Z eqn:Ez; [|rewrite Z.geb_leb in Ez; apply Z.leb_gt in Ez; lia].
    f_equal. lia.
  - rewrite Eh.
    replace (Z.max (Z.of_nat kh) (-1)) with (Z.of_nat kh) by lia.
    destruct (Z.of_nat kh >=? 0)%Z eqn:Ez; [|rewrite Z.geb_leb in Ez; apply Z.leb_gt in Ez; lia].
    f_equal. lia.
  - rewrite Eh. reflexivity.
Qed.

(** X26: the class list labels as the hierarchy does.  Every entry of
    [list_classes] comes from a row with that class; its URI is not empty
    and not a blank node; and its label is the label of the row or, if the
    row has none, the local name [_extract_local_name] gives, although the
    function computes it by splitting at [/] and then at [#]. *)
Theorem class_list_labels (store : ClassStore) (ontology_uri : string) (limit : Z) :
  Forall (fun e =>
            listable (class_entry_uri e) /\
            exists row,
              In row (store (QClasses ontology_uri limit)) /\
              Py.get row "class" = Some (class_entry_uri e) /\
              class_entry_label e
              = Py.or_else (Py.get row "label")
                           (_extract_local_name (class_entry_uri e)) /\
              class_entry_comment e = Py.get row "comment")
         (list_classes store ontology_uri limit).
Proof.
  apply Forall_forall. intros e He. unfold list_classes in He.
  apply in_flat_map in He. destruct He as (row & Hrow & He). cbv zeta in He.
  destruct (Py.get row "class") as [c|] eqn:Hc; [|destruct He].
  destruct (String.eqb_spec c "") as [->|Hne]; [destruct He|].
  destruct (Py.startswith c "_:") eqn:Hblank; [destruct He|].
  destruct He as [<-|[]]. cbn [class_entry_uri class_entry_label class_entry_comment].
  split; [now split|]. exists row. rewrite last_part_local_name. auto.
Qed.
